(** * Live session engine of the diary collaboration server

    A shallow embedding of the WebSocket server (server.js), its
    collaboration handlers (handlers/collaboration.js), the presence
    handlers (handlers/presence.js), the friends list handler
    (handlers/friends.js) and the friends cache (cache/friendsCache.js),
    with the state updaters of the two client hooks (hooks/usePresence.js,
    hooks/useCollaboration.js) that consume the server's messages.

    Conventions.
    - [Date.now()] and the store's [NOW()] are the integer [now : Z]
      (milliseconds) handed to every handler.
    - A JavaScript [Map] is a [gmap], or an association list where the
      order of its keys matters. The registry [connectedUsers], a plain
      object, is the [gmap] of its own properties; it is read through
      [obj_get], which also finds the members of [Object.prototype],
      and written through [obj_set].
    - A handler returns the new state together with the list of messages
      it emitted, oldest first.
    - A failing [pool.query] is an input of the handler: [fails q] tells
      whether the statement [q] is rejected during that invocation.
    - An entry of a trace is one run of a handler, from its first
      statement to its last: a trace describes the schedules in which no
      other event is handled while a handler awaits the store.
    - A rejection that no handler catches, and an exception thrown by a
      synchronous listener, end the Node process: its maps, timers and
      sockets are gone, the store stays ([exit]). *)

From Stdlib Require Import ZArith Bool List Lia.
From stdpp Require Import base option list sorting gmap strings fin_maps.
Import ListNotations.

Open Scope string_scope.
Open Scope Z_scope.

(** ** Rate limiting (server.js, [checkRateLimit]) *)

Module RateLimit.

(** [userEventCounts] maps a userId to [{ count, lastReset }]. *)
Record RateData := mkRateData { count : Z; lastReset : Z }.

Definition RATE_LIMIT : Z := 10.
Definition windowMs : Z := 1000.

(** The body of [checkRateLimit] on the entry of one user: [od] is what
    [userEventCounts.get(userId)] returned. The result is the boolean
    returned and the object left in the map. *)
Definition tick (now : Z) (od : option RateData) : bool * RateData :=
  let data := match od with
              | Some d => d
              | None => mkRateData 0 now
              end in
  let data := if now - lastReset data >? windowMs
              then mkRateData 0 now
              else data in
  let data := mkRateData (count data + 1) (lastReset data) in
  (if count data >? RATE_LIMIT then false else true, data).

Definition checkRateLimit (now : Z) (userId : string)
    (userEventCounts : gmap string RateData) : bool * gmap string RateData :=
  let '(r, data) := tick now (userEventCounts !! userId) in
  (r, <[userId := data]> userEventCounts).

(** A trace of admit checks: who asked, and when. The answers come back
    in the order of the calls. *)
Fixpoint run (tr : list (string * Z)) (m : gmap string RateData)
    : list (string * bool) * gmap string RateData :=
  match tr with
  | [] => ([], m)
  | (u, t) :: tr' =>
      let '(r, m1) := checkRateLimit t u m in
      let '(rs, m2) := run tr' m1 in
      ((u, r) :: rs, m2)
  end.

(** The answers given to one user. *)
Definition answers (userId : string) (rs : list (string * bool)) : list bool :=
  map snd (filter (λ p, p.1 = userId) rs).

(** The calls of one user. *)
Definition calls (userId : string) (tr : list (string * Z)) : list Z :=
  map snd (filter (λ p, p.1 = userId) tr).

(** The next call of [userId] at [now] starts a new window: the user is
    unknown, or the window it has is older than [windowMs]. *)
Definition starts_window (m : gmap string RateData) (userId : string)
    (now : Z) : Prop :=
  match m !! userId with
  | None => True
  | Some d => now - lastReset d > windowMs
  end.

(** The calls of one user alone, on that user's entry of the map. *)
Fixpoint ticks (ts : list Z) (od : option RateData)
    : list bool * option RateData :=
  match ts with
  | [] => ([], od)
  | t :: ts' =>
      let '(r, d) := tick t od in
      let '(rs, od') := ticks ts' (Some d) in
      (r :: rs, od')
  end.

End RateLimit.

(** ** JavaScript values, objects with named properties, thrown errors *)

Module Js.

(** Values that travel inside payloads without being inspected, apart
    from the truthiness test of the validation guards. *)
Inductive jsval :=
| JUndefined
| JNull
| JBool (b : bool)
| JNum (n : Z)
| JStr (s : string)
| JPoint (x y : Z).

(** [!!v] *)
Definition truthy (v : jsval) : bool :=
  match v with
  | JUndefined | JNull => false
  | JBool b => b
  | JNum n => negb (n =? 0)
  | JStr s => negb (String.eqb s "")
  | JPoint _ _ => true
  end.

(** [!!id] for an identifier: the empty string stands for a missing or
    empty id, which the guards treat alike. *)
Definition truthy_id (id : string) : bool := negb (String.eqb id "").

(** [!!n] for a number: 0 stands for a missing timestamp or 0. *)
Definition truthy_num (n : Z) : bool := negb (n =? 0).

(** An object literal read by property name. A property written twice
    keeps the last value. *)
Fixpoint prop (k : string) (obj : list (string * string)) : option string :=
  match obj with
  | [] => None
  | (k', v) :: obj' =>
      match prop k obj' with
      | Some v' => Some v'
      | None => if String.eqb k k' then Some v else None
      end
  end.

(** What a handler can throw. *)
Inductive error :=
| StoreError   (* a rejected [pool.query] *)
| TypeError.   (* a property read on [undefined] *)

(** A computation that may throw after having changed the state. *)
Inductive outcome :=
| Returned
| Thrown (e : error).

(** Insertion-ordered [Map]: [set] on a known key keeps its place, on a
    new key appends; iteration follows the list. *)
Section OMap.
Context {V : Type}.

Fixpoint oget (k : string) (m : list (string * V)) : option V :=
  match m with
  | [] => None
  | (k', v) :: m' => if String.eqb k k' then Some v else oget k m'
  end.

Fixpoint oset (k : string) (v : V) (m : list (string * V))
    : list (string * V) :=
  match m with
  | [] => [(k, v)]
  | (k', v') :: m' =>
      if String.eqb k k' then (k, v) :: m' else (k', v') :: oset k v m'
  end.

Fixpoint odelete (k : string) (m : list (string * V)) : list (string * V) :=
  match m with
  | [] => []
  | (k', v') :: m' =>
      if String.eqb k k' then m' else (k', v') :: odelete k m'
  end.

Definition ohas (k : string) (m : list (string * V)) : bool :=
  match oget k m with Some _ => true | None => false end.
End OMap.

(** A plain object ([{}]) used as a dictionary with string values. The
    [gmap] holds its own properties. A read also finds what the object
    inherits: the members of [Object.prototype]. *)
Definition OBJECT_PROTOTYPE : list string :=
  [ "constructor"; "__defineGetter__"; "__defineSetter__"; "hasOwnProperty";
    "__lookupGetter__"; "__lookupSetter__"; "isPrototypeOf";
    "propertyIsEnumerable"; "toString"; "valueOf"; "__proto__";
    "toLocaleString" ].

(** What [obj[k]] gives when it is not [undefined]: an own string, or
    the inherited member called [name] (a function; for [__proto__] the
    prototype object). *)
Inductive member :=
| Own (v : string)
| Inherited (name : string).

(** [obj[k]] *)
Definition obj_get (k : string) (obj : gmap string string) : option member :=
  match obj !! k with
  | Some v => Some (Own v)
  | None => if bool_decide (k ∈ OBJECT_PROTOTYPE) then Some (Inherited k)
            else None
  end.

(** [obj[k] = v] for a string [v]. Under the key [__proto__] the
    assignment runs the inherited setter, which ignores a value that is no
    object: nothing is stored. *)
Definition obj_set (k v : string) (obj : gmap string string)
    : gmap string string :=
  if String.eqb k "__proto__" then obj else <[k := v]> obj.

End Js.

Import Js.

(** ** Event names (constants/*.js) *)

Module Events.

(** constants/diaryCollabWsEvents.js *)
Definition DIARY_COLLAB_WS_EVENTS : list (string * string) :=
  [ ("COLLAB_INVITE_SENT", "collab_invite_sent");
    ("COLLAB_INVITE_RECEIVED", "collab_invite_received");
    ("COLLAB_INVITE_ACCEPTED", "collab_invite_accepted");
    ("COLLAB_INVITE_DECLINED", "collab_invite_declined");
    ("COLLAB_INVITE_REVOKED", "collab_invite_revoked");
    ("ENTRY_CURSOR_MOVE", "entry_cursor_move");
    ("ENTRY_CURSOR_CLEAR", "entry_cursor_clear");
    ("JOIN_ENTRY_ROOM", "join_entry_room");
    ("LEAVE_ENTRY_ROOM", "leave_entry_room");
    ("CURRENT_VIEWERS", "current_viewers");
    ("ENTRY_COLLAB_JOIN", "entry_collab_join");
    ("ENTRY_COLLAB_LEAVE", "entry_collab_leave");
    ("USER_VIEWING_ENTRY", "user_viewing_entry");
    ("USER_EDITING_ENTRY", "user_editing_entry");
    ("USER_IDLE_ENTRY", "user_idle_entry");
    ("ENTRY_EDIT", "entry_edit");
    ("ENTRY_CURSOR_MOVE", "entry_cursor_move");
    ("ENTRY_SELECTION_CHANGE", "entry_selection_change");
    ("COMMENT_ADDED", "comment_added");
    ("COMMENT_DELETED", "comment_deleted");
    ("ACCESS_DENIED", "access_denied");
    ("PERMISSION_GRANTED", "permission_granted");
    ("PERMISSION_REVOKED", "permission_revoked");
    ("COLLAB_ENDED", "collab_ended");
    ("STATE_REQUEST", "state_request");
    ("STATE_RESPONSE", "state_response");
    ("DESYNC_DETECTED", "desync_detected");
    ("ENTRY_PERMISSION_UPDATED", "entry_permission_updated") ].

(** constants/diarySocialWsEvent.js *)
Definition DIARY_SOCIAL_WS_EVENTS : list (string * string) :=
  [ ("FRIEND_REQUEST_SENT", "friend_request_sent");
    ("FRIEND_REQUEST_RECEIVED", "friend_request_received");
    ("FRIEND_ACCEPTED", "friend_accepted");
    ("FRIEND_ONLINE", "friend_online");
    ("FRIEND_OFFLINE", "friend_offline");
    ("FRIEND_TYPING", "friend_typing");
    ("FRIENDS_LIST", "friends_list");
    ("ENTRY_INVITE_SENT", "entry_invite_sent");
    ("ENTRY_INVITE_ACCEPTED", "entry_invite_accepted");
    ("ENTRY_INVITE_DECLINED", "entry_invite_declined");
    ("ENTRY_INVITE_CANCELLED", "entry_invite_cancelled") ].

(** constants/wsEvents.js *)
Definition WS_EVENTS : list (string * string) :=
  [ ("CONNECT", "connect");
    ("DISCONNECT", "disconnect");
    ("AUTHENTICATED", "authenticated");
    ("RECONNECT", "reconnect");
    ("HEARTBEAT", "heartbeat");
    ("PONG", "pong");
    ("ERROR", "error");
    ("SESSION_EXPIRED", "session_expired");
    ("FORCE_LOGOUT", "force_logout");
    ("ONLINE", "online");
    ("OFFLINE", "offline");
    ("IDLE", "idle");
    ("USER_JOINED", "user_joined");
    ("USER_LEFT", "user_left");
    ("PRESENCE_UPDATE", "presence_update") ].

End Events.

Import Events.

(** ** Transport: sockets, rooms and emitted messages (socket.io) *)

Module Transport.

(** The two fields of a socket the handlers read: [socket.id] and
    [socket.data.userId] (set by the authentication middleware). *)
Record Socket := mkSocket { socket_id : string; socket_userId : string }.

(** [socket.emit], [socket.to(room).emit], [io.to(room).emit] and
    [io.emit]. [ToObject name] is [io.to(v)] for [v] the member [name] of
    [Object.prototype]: a room that is no string, which no socket is in. *)
Inductive Target :=
| ToSocket (sid : string)
| ToRoomExcept (room sid : string)
| ToRoom (room : string)
| ToObject (name : string)
| ToAll.

(** [active_sessions.status] *)
Inductive Status := viewing | editing | idle.

(** The objects handed to [emit]. *)
Inductive Payload :=
| PCursor (userId : string) (position : jsval) (timestamp : Z)
| PCursorClear (userId entryId : string)
| PViewers (entryId : string) (viewers : list (string * Status))
| PPresence (entryId userId : string) (timestamp : Z)
| PEdit (entryId : string) (content operation cursorPosition : jsval)
        (userId : string) (timestamp : Z)
| PConflict (entryId strategy : string) (timestamp : Z)
| PError (code message : string)
| PThrown (e : error)
| PFriend (userId : string) (timestamp : Z)
| PFriendsList (cached : gmap string (list string)) (timestamp : Z)
| PAuthenticated (userId : string) (timestamp : Z)
| PHeartbeat (timestamp : Z).

(** An emitted message. The event name is what the constant table gave:
    [None] is [undefined], the value of a constant the table lacks. *)
Record Message := mkMessage {
  target : Target;
  event : option string;
  payload : Payload
}.

(** Rooms of the adapter: room name to the socket ids in it. A room
    without members is dropped. *)
Definition members (room : string) (rooms : gmap string (gset string))
    : gset string :=
  default ∅ (rooms !! room).

Definition join (room sid : string) (rooms : gmap string (gset string))
    : gmap string (gset string) :=
  <[room := {[sid]} ∪ members room rooms]> rooms.

Definition prune (ms : gset string) : option (gset string) :=
  if decide (ms = ∅) then None else Some ms.

Definition leave (room sid : string) (rooms : gmap string (gset string))
    : gmap string (gset string) :=
  partial_alter (λ o, o ≫= λ ms, prune (ms ∖ {[sid]})) room rooms.

Definition leaveAll (sid : string) (rooms : gmap string (gset string))
    : gmap string (gset string) :=
  omap (λ ms, prune (ms ∖ {[sid]})) rooms.

(** Does the socket [sid] get the message, given who is in which room?
    A connected socket is in the room named by its id. *)
Definition receives (rooms : gmap string (gset string)) (m : Message)
    (sid : string) : bool :=
  match target m with
  | ToSocket sid' => bool_decide (sid = sid')
  | ToRoomExcept room sid' =>
      bool_decide (sid ∈ members room rooms) && negb (bool_decide (sid = sid'))
  | ToRoom room => bool_decide (sid ∈ members room rooms)
  | ToObject _ => false
  | ToAll => bool_decide (sid ∈ members sid rooms)
  end.

Definition has_event (name : string) (m : Message) : bool :=
  match event m with
  | Some n => String.eqb n name
  | None => false
  end.

End Transport.

Import Transport.

(** ** The relational store behind [pool.query] *)

Module Store.

(** A row of [active_sessions], keyed by [(entry_id, user_id)]
    (constraint [unique_entry_user]). *)
Record Session := mkSession {
  status : Status;
  joined_at : Z;
  last_seen : Z
}.

(** A row of [ws_connections], keyed by [user_id]. *)
Record Connection := mkConnection {
  conn_socket_id : string;
  online : bool;
  conn_last_seen : Z
}.

Record Tables := mkTables {
  active_sessions : gmap (string * string) Session;
  ws_connections : gmap string Connection;
  friends : list (string * string)   (* (user_id, friend_id) *)
}.

(** The statements the handlers send, one constructor per call site. *)
Inductive query :=
| QUpsertConnection   (* presence.js, setUserOnline *)
| QMarkOffline        (* presence.js, setUserOffline *)
| QWhoLists           (* presence.js, both *)
| QFriendsWithStatus  (* friends.js *)
| QFriendsOf          (* server.js, connection *)
| QSessionsOf         (* server.js, connection *)
| QUpsertSession      (* collaboration.js, joinEntryRoom *)
| QViewers            (* collaboration.js, joinEntryRoom *)
| QDeleteSession      (* collaboration.js, leaveEntryRoom *)
| QSetStatus          (* collaboration.js, userEditingEntry, userIdleEntry *)
| QDeleteSessions     (* server.js, disconnect *)
| QTouchConnection    (* server.js, pong, first statement *)
| QTouchSessions      (* server.js, pong, second statement *)
| QCleanup.           (* server.js, cleanup of stale sessions *)

(** No statement fails. *)
Definition all_ok : query → bool := λ _, false.

Definition with_sessions (f : gmap (string * string) Session →
                              gmap (string * string) Session)
    (t : Tables) : Tables :=
  mkTables (f (active_sessions t)) (ws_connections t) (friends t).

Definition with_connections (f : gmap string Connection →
                                 gmap string Connection)
    (t : Tables) : Tables :=
  mkTables (active_sessions t) (f (ws_connections t)) (friends t).

(** INSERT INTO active_sessions ... VALUES ($1, $2, 'viewing', NOW())
    ON CONFLICT (entry_id, user_id)
    DO UPDATE SET status = 'viewing', last_seen = NOW() *)
Definition upsert_session (entryId userId : string) (now : Z)
    (ss : gmap (string * string) Session) : gmap (string * string) Session :=
  match ss !! (entryId, userId) with
  | Some r => <[(entryId, userId) := mkSession viewing (joined_at r) now]> ss
  | None => <[(entryId, userId) := mkSession viewing now now]> ss
  end.

(** SELECT user_id, status FROM active_sessions WHERE entry_id = $1.
    The store promises no row order; the rows come in the order of the
    map. *)
Definition select_viewers (entryId : string)
    (ss : gmap (string * string) Session) : list (string * Status) :=
  omap (λ '((e, u), r), if String.eqb e entryId then Some (u, status r)
                        else None)
       (map_to_list ss).

(** DELETE FROM active_sessions WHERE entry_id = $1 AND user_id = $2 *)
Definition delete_session (entryId userId : string)
    (ss : gmap (string * string) Session) : gmap (string * string) Session :=
  delete (entryId, userId) ss.

(** DELETE FROM active_sessions WHERE user_id = $1 *)
Definition delete_sessions_of (userId : string)
    (ss : gmap (string * string) Session) : gmap (string * string) Session :=
  filter (λ kv, kv.1.2 ≠ userId) ss.

(** UPDATE active_sessions SET status = .., last_seen = NOW()
    WHERE entry_id = $1 AND user_id = $2 *)
Definition set_status (st : Status) (entryId userId : string) (now : Z)
    (ss : gmap (string * string) Session) : gmap (string * string) Session :=
  alter (λ r, mkSession st (joined_at r) now) (entryId, userId) ss.

(** SELECT entry_id FROM active_sessions WHERE user_id = $1 *)
Definition sessions_of (userId : string)
    (ss : gmap (string * string) Session) : list string :=
  omap (λ '((e, u), _), if String.eqb u userId then Some e else None)
       (map_to_list ss).

(** INSERT INTO ws_connections ... ON CONFLICT(user_id) DO UPDATE
    SET socket_id = $2, online = true, last_seen = NOW() *)
Definition upsert_connection (userId socketId : string) (now : Z)
    (cs : gmap string Connection) : gmap string Connection :=
  <[userId := mkConnection socketId true now]> cs.

(** UPDATE ws_connections SET online = false, last_seen = NOW()
    WHERE user_id = $1 *)
Definition mark_offline (userId : string) (now : Z)
    (cs : gmap string Connection) : gmap string Connection :=
  alter (λ c, mkConnection (conn_socket_id c) false now) userId cs.

(** SELECT user_id FROM friends WHERE friend_id = $1 *)
Definition who_lists (friendId : string) (fs : list (string * string))
    : list string :=
  omap (λ '(u, f), if String.eqb f friendId then Some u else None) fs.

(** SELECT friend_id FROM friends WHERE user_id = $1 *)
Definition friends_of (userId : string) (fs : list (string * string))
    : list string :=
  omap (λ '(u, f), if String.eqb u userId then Some f else None) fs.

(** SELECT f.friend_id, COALESCE(w.online, false) AS online
    FROM friends f LEFT JOIN ws_connections w ON w.user_id = f.friend_id
    WHERE f.user_id = $1 *)
Definition friends_with_status (userId : string) (t : Tables)
    : list (string * bool) :=
  map (λ f, (f, match ws_connections t !! f with
                | Some c => online c
                | None => false
                end))
      (friends_of userId (friends t)).

End Store.

Import Store.

(** ** Process state: the module-level maps and the store *)

Module Model.

(** [cursorPayload] of [handleCursorMove], as kept in [cursorStore]. *)
Record Cursor := mkCursor {
  cursor_userId : string;
  position : jsval;
  cursor_timestamp : Z
}.

(** A value of [lastEditMap]. *)
Record LastEdit := mkLastEdit {
  edit_userId : string;
  edit_timestamp : Z
}.

(** A pending [setTimeout] of the edit handler: when it is due and what
    its callback captured. [timer_id] orders timers by creation. *)
Record Timeout := mkTimeout {
  timer_id : nat;
  due : Z;
  t_room : string;
  t_entryId : string;
  t_content : jsval;
  t_operation : jsval;
  t_cursorPosition : jsval;
  t_userId : string
}.

Record State := mkState {
  userEventCounts : gmap string RateLimit.RateData;        (* server.js *)
  connectedUsers : gmap string string;                     (* server.js *)
  cursorStore : list (string * gmap string Cursor);        (* server.js *)
  lastEditMap : gmap string LastEdit;               (* collaboration.js *)
  debounceMap : gmap string Timeout;                (* collaboration.js *)
  timerSeq : nat;                                   (* timers created *)
  cursorThrottleMap : gmap string Z;                (* collaboration.js *)
  friendsCache : gmap string (gmap string (list string)); (* friendsCache.js *)
  rooms : gmap string (gset string);                       (* socket.io *)
  db : Tables;                                             (* pool *)
  exited : bool                        (* the Node process has ended *)
}.

Definition initial (t : Tables) : State :=
  mkState ∅ ∅ [] ∅ ∅ 0%nat ∅ ∅ ∅ t false.

(** The end of the process, on a rejection that nothing catches or an
    exception nothing catches: the maps of the process, its pending timers
    and its sockets (and with them the rooms) are gone; the store, which
    lives outside, stays as it is. *)
Definition exit (s : State) : State :=
  mkState ∅ ∅ [] ∅ ∅ (timerSeq s) ∅ ∅ ∅ (db s) true.

Definition with_userEventCounts (v : gmap string RateLimit.RateData)
    (s : State) : State :=
  mkState v (connectedUsers s) (cursorStore s) (lastEditMap s)
          (debounceMap s) (timerSeq s) (cursorThrottleMap s)
          (friendsCache s) (rooms s) (db s) (exited s).

Definition with_connectedUsers (v : gmap string string) (s : State) : State :=
  mkState (userEventCounts s) v (cursorStore s) (lastEditMap s)
          (debounceMap s) (timerSeq s) (cursorThrottleMap s)
          (friendsCache s) (rooms s) (db s) (exited s).

Definition with_cursorStore (v : list (string * gmap string Cursor))
    (s : State) : State :=
  mkState (userEventCounts s) (connectedUsers s) v (lastEditMap s)
          (debounceMap s) (timerSeq s) (cursorThrottleMap s)
          (friendsCache s) (rooms s) (db s) (exited s).

Definition with_lastEditMap (v : gmap string LastEdit) (s : State) : State :=
  mkState (userEventCounts s) (connectedUsers s) (cursorStore s) v
          (debounceMap s) (timerSeq s) (cursorThrottleMap s)
          (friendsCache s) (rooms s) (db s) (exited s).

Definition with_debounceMap (v : gmap string Timeout) (s : State) : State :=
  mkState (userEventCounts s) (connectedUsers s) (cursorStore s)
          (lastEditMap s) v (timerSeq s) (cursorThrottleMap s)
          (friendsCache s) (rooms s) (db s) (exited s).

Definition with_timerSeq (v : nat) (s : State) : State :=
  mkState (userEventCounts s) (connectedUsers s) (cursorStore s)
          (lastEditMap s) (debounceMap s) v (cursorThrottleMap s)
          (friendsCache s) (rooms s) (db s) (exited s).

Definition with_cursorThrottleMap (v : gmap string Z) (s : State) : State :=
  mkState (userEventCounts s) (connectedUsers s) (cursorStore s)
          (lastEditMap s) (debounceMap s) (timerSeq s) v
          (friendsCache s) (rooms s) (db s) (exited s).

Definition with_friendsCache (v : gmap string (gmap string (list string)))
    (s : State) : State :=
  mkState (userEventCounts s) (connectedUsers s) (cursorStore s)
          (lastEditMap s) (debounceMap s) (timerSeq s)
          (cursorThrottleMap s) v (rooms s) (db s) (exited s).

Definition with_rooms (v : gmap string (gset string)) (s : State) : State :=
  mkState (userEventCounts s) (connectedUsers s) (cursorStore s)
          (lastEditMap s) (debounceMap s) (timerSeq s)
          (cursorThrottleMap s) (friendsCache s) v (db s) (exited s).

Definition with_db (v : Tables) (s : State) : State :=
  mkState (userEventCounts s) (connectedUsers s) (cursorStore s)
          (lastEditMap s) (debounceMap s) (timerSeq s)
          (cursorThrottleMap s) (friendsCache s) (rooms s) v (exited s).

Definition room_of (entryId : string) : string := "entry_" +:+ entryId.

End Model.

Import Model.

(** ** server.js, the PONG handler and the cleanup of stale sessions *)

Module Heartbeat.

(** INTERVAL '10 minutes' *)
Definition STALE_SESSION_MS : Z := 10 * 60 * 1000.

(** UPDATE ws_connections SET last_seen = NOW() WHERE user_id = $1 *)
Definition touch_connection (userId : string) (now : Z)
    (cs : gmap string Store.Connection) : gmap string Store.Connection :=
  alter (λ c, mkConnection (conn_socket_id c) (online c) now) userId cs.

(** UPDATE active_sessions SET last_seen = NOW() WHERE user_id = $1 *)
Definition touch_sessions (userId : string) (now : Z)
    (ss : gmap (string * string) Session) : gmap (string * string) Session :=
  map_imap (λ k r, Some (if decide (k.2 = userId)
                         then mkSession (status r) (joined_at r) now
                         else r)) ss.

(** [socket.on(PONG, ...)]: two statements in one try block. *)
Definition onPong (now : Z) (userId : string)
    (connection_rejected sessions_rejected : bool) (t : Tables) : Tables :=
  if connection_rejected then t
  else
    let t := with_connections (touch_connection userId now) t in
    if sessions_rejected then t
    else with_sessions (touch_sessions userId now) t.

(** DELETE FROM active_sessions
    WHERE last_seen < NOW() - INTERVAL '10 minutes' *)
Definition cleanupStaleSessions (now : Z) (rejected : bool) (t : Tables)
    : Tables :=
  if rejected then t
  else with_sessions
         (filter (λ kv, ¬ (last_seen kv.2 < now - STALE_SESSION_MS))) t.

End Heartbeat.

(** ** cache/friendsCache.js *)

Module FriendsCache.

(** [arr.includes(x)] *)
Definition includes (x : string) (arr : list string) : bool :=
  existsb (String.eqb x) arr.

(** [arr.filter(id => id !== x)] *)
Definition without (x : string) (arr : list string) : list string :=
  List.filter (λ id, negb (String.eqb id x)) arr.

(** One branch of [updateStatus]: take [friendId] out of the array
    under [from], add it to the array under [to]. Reading [.filter] or
    [.includes] on a property the object lacks throws; the assignment
    to [from] done before is kept. *)
Definition move (from to friendId : string)
    (cache : gmap string (list string))
    : gmap string (list string) * outcome :=
  match cache !! from with
  | None => (cache, Thrown TypeError)
  | Some arr =>
      let cache := <[from := without friendId arr]> cache in
      match cache !! to with
      | None => (cache, Thrown TypeError)
      | Some arr' =>
          if includes friendId arr' then (cache, Returned)
          else (<[to := (arr' ++ [friendId])%list]> cache, Returned)
      end
  end.

Definition updateStatus (userId friendId : string) (isOnline : bool)
    (fc : gmap string (gmap string (list string)))
    : gmap string (gmap string (list string)) * outcome :=
  match fc !! userId with
  | None => (fc, Returned)
  | Some cache =>
      let '(cache', o) :=
        if isOnline then move "offline" "online" friendId cache
        else move "online" "offline" friendId cache in
      (<[userId := cache']> fc, o)
  end.

End FriendsCache.

(** ** handlers/presence.js *)

Module Presence.

(** The [rows.forEach] of [setUserOnline] and [setUserOffline]: update
    the cache entry of each user who lists [userId], then emit to the
    room named after that user. A throw ends the loop. *)
Fixpoint notify (isOnline : bool) (now : Z) (userId : string)
    (rows : list string) (fc : gmap string (gmap string (list string)))
    : gmap string (gmap string (list string)) * list Message * outcome :=
  match rows with
  | [] => (fc, [], Returned)
  | r :: rows' =>
      match FriendsCache.updateStatus r userId isOnline fc with
      | (fc1, Thrown e) => (fc1, [], Thrown e)
      | (fc1, Returned) =>
          let m := mkMessage (ToRoom r)
                     (prop (if isOnline then "FRIEND_ONLINE"
                            else "FRIEND_OFFLINE") DIARY_SOCIAL_WS_EVENTS)
                     (PFriend userId now) in
          let '(fc2, ms, o) := notify isOnline now userId rows' fc1 in
          (fc2, m :: ms, o)
      end
  end.

(** Both functions catch, log and rethrow: the caller sees the throw. *)
Definition setUserOnline (now : Z) (userId socketId : string)
    (fails : query → bool) (s : State) : State * list Message * outcome :=
  if fails QUpsertConnection then (s, [], Thrown StoreError)
  else
    let s := with_db (with_connections
                        (upsert_connection userId socketId now) (db s)) s in
    if fails QWhoLists then (s, [], Thrown StoreError)
    else
      let rows := who_lists userId (friends (db s)) in
      let '(fc, ms, o) := notify true now userId rows (friendsCache s) in
      (with_friendsCache fc s, ms, o).

Definition setUserOffline (now : Z) (userId : string)
    (fails : query → bool) (s : State) : State * list Message * outcome :=
  if fails QMarkOffline then (s, [], Thrown StoreError)
  else
    let s := with_db (with_connections (mark_offline userId now) (db s)) s in
    if fails QWhoLists then (s, [], Thrown StoreError)
    else
      let rows := who_lists userId (friends (db s)) in
      let '(fc, ms, o) := notify false now userId rows (friendsCache s) in
      (with_friendsCache fc s, ms, o).

End Presence.

(** ** handlers/friends.js *)

Module Friends.

(** The object [{ onlineFriends, offlineFriends }] built from the rows. *)
Definition result (rows : list (string * bool)) : gmap string (list string) :=
  <["offlineFriends" := map fst (List.filter (λ r, negb r.2) rows)]>
    (<["onlineFriends" := map fst (List.filter (λ r, r.2) rows)]> ∅).

Definition sendFriendsList (now : Z) (socket : Socket) (userId : string)
    (fails : query → bool) (s : State) : State * list Message * outcome :=
  let emit cached :=
    mkMessage (ToSocket (socket_id socket))
              (prop "FRIENDS_LIST" DIARY_SOCIAL_WS_EVENTS)
              (PFriendsList cached now) in
  match friendsCache s !! userId with
  | Some cached => (s, [emit cached], Returned)
  | None =>
      if fails QFriendsWithStatus then (s, [], Thrown StoreError)
      else
        let res := result (friends_with_status userId (db s)) in
        (with_friendsCache (<[userId := res]> (friendsCache s)) s,
         [emit res], Returned)
  end.

End Friends.

(** ** handlers/collaboration.js *)

Module Collaboration.

Definition collab (name : string) : option string :=
  prop name DIARY_COLLAB_WS_EVENTS.

(** *** Cursor management *)

Definition handleCursorMove (now : Z) (socket : Socket)
    (userId entryId : string) (pos : jsval)
    (cs : list (string * gmap string Cursor))
    : list (string * gmap string Cursor) * list Message :=
  let room := room_of entryId in
  let cs := if ohas entryId cs then cs else oset entryId ∅ cs in
  let entryCursors := default ∅ (oget entryId cs) in
  let cursorPayload := mkCursor userId pos now in
  (oset entryId (<[userId := cursorPayload]> entryCursors) cs,
   [mkMessage (ToRoomExcept room (socket_id socket))
              (collab "ENTRY_CURSOR_MOVE")
              (PCursor userId pos now)]).

Definition clearCursor (socket : Socket) (userId entryId : string)
    (cs : list (string * gmap string Cursor))
    : list (string * gmap string Cursor) * list Message :=
  let room := room_of entryId in
  match oget entryId cs with
  | None => (cs, [])
  | Some entryCursors =>
      let entryCursors := delete userId entryCursors in
      let cs := if decide (size entryCursors = 0%nat)
                then odelete entryId cs
                else oset entryId entryCursors cs in
      (cs, [mkMessage (ToRoomExcept room (socket_id socket))
                      (collab "ENTRY_CURSOR_CLEAR")
                      (PCursorClear userId entryId)])
  end.

(** *** Entry room lifecycle *)

Definition joinEntryRoom (now : Z) (socket : Socket)
    (userId entryId : string) (fails : query → bool) (s : State)
    : State * list Message * outcome :=
  let room := room_of entryId in
  let s := with_rooms (join room (socket_id socket) (rooms s)) s in
  if fails QUpsertSession then (s, [], Thrown StoreError)
  else
    let s := with_db (with_sessions (upsert_session entryId userId now)
                                    (db s)) s in
    if fails QViewers then (s, [], Thrown StoreError)
    else
      let rows := select_viewers entryId (active_sessions (db s)) in
      (s,
       [ mkMessage (ToSocket (socket_id socket))
                   (collab "CURRENT_VIEWERS") (PViewers entryId rows);
         mkMessage (ToRoomExcept room (socket_id socket))
                   (collab "USER_VIEWING_ENTRY")
                   (PPresence entryId userId now) ],
       Returned).

Definition drop_cursor (userId entryId : string)
    (cs : list (string * gmap string Cursor))
    : list (string * gmap string Cursor) :=
  match oget entryId cs with
  | Some cursors => oset entryId (delete userId cursors) cs
  | None => cs
  end.

Definition leaveEntryRoom (now : Z) (socket : Socket)
    (userId entryId : string) (fails : query → bool) (s : State)
    : State * list Message * outcome :=
  let room := room_of entryId in
  let s := with_rooms (leave room (socket_id socket) (rooms s)) s in
  if fails QDeleteSession then (s, [], Thrown StoreError)
  else
    let s := with_db (with_sessions (delete_session entryId userId)
                                    (db s)) s in
    let s := with_cursorStore (drop_cursor userId entryId (cursorStore s)) s in
    (s,
     [ mkMessage (ToRoomExcept room (socket_id socket))
                 (collab "ENTRY_COLLAB_LEAVE")
                 (PPresence entryId userId now) ],
     Returned).

(** *** Editing state *)

Definition userStatusEntry (st : Status) (name : string) (now : Z)
    (userId entryId : string) (fails : query → bool) (s : State)
    : State * list Message * outcome :=
  if fails QSetStatus then (s, [], Thrown StoreError)
  else
    let s := with_db (with_sessions (set_status st entryId userId now)
                                    (db s)) s in
    (s,
     [ mkMessage (ToRoom (room_of entryId)) (collab name)
                 (PPresence entryId userId now) ],
     Returned).

Definition userEditingEntry := userStatusEntry editing "USER_EDITING_ENTRY".
Definition userIdleEntry := userStatusEntry idle "USER_IDLE_ENTRY".

(** *** Collaboration event handlers *)

(** The payload of an ENTRY_EDIT event, as destructured by the handler. *)
Record EditEvent := mkEditEvent {
  entryId : string;
  content : jsval;
  operation : jsval;
  cursorPosition : jsval;
  timestamp : Z
}.

Definition debounceMs : Z := 500.
Definition conflictMs : Z := 300.
Definition throttleMs : Z := 100.

(** The callback handed to [setTimeout], run at time [t] for the timer
    [tm] that the socket [sid] had pending. *)
Definition fire (t : Z) (sid : string) (tm : Timeout) (s : State)
    : State * list Message :=
  let s1 := with_lastEditMap
              (<[t_entryId tm := mkLastEdit (t_userId tm) t]> (lastEditMap s))
              s in
  let s2 := with_debounceMap (delete sid (debounceMap s1)) s1 in
  (s2,
   [ mkMessage (ToRoomExcept (t_room tm) sid) (collab "ENTRY_EDIT")
               (PEdit (t_entryId tm) (t_content tm) (t_operation tm)
                      (t_cursorPosition tm) (t_userId tm) t) ]).

(** The conflict test of the edit handler. *)
Definition conflicts (userId : string) (timestamp : Z)
    (lastEdit : option LastEdit) : bool :=
  match lastEdit with
  | Some le =>
      negb (String.eqb (edit_userId le) userId)
      && (Z.abs (timestamp - edit_timestamp le) <? conflictMs)
  | None => false
  end.

(** [socket.on(ENTRY_EDIT, ...)]. [checkRateLimit] is the function of
    server.js, handed in at registration. *)
Definition onEntryEdit (now : Z) (socket : Socket) (p : EditEvent)
    (s : State) : State * list Message :=
  let userId := socket_userId socket in
  let sid := socket_id socket in
  if negb (truthy_id (entryId p)) || negb (truthy_num (timestamp p))
  then (s, [])
  else
    let '(admitted, counts) :=
      RateLimit.checkRateLimit now userId (userEventCounts s) in
    let s := with_userEventCounts counts s in
    if negb admitted
    then (s, [ mkMessage (ToSocket sid) (Some "ERROR")
                         (PError "RATE_LIMIT" "Too many edits per second") ])
    else
      let room := room_of (entryId p) in
      let notice :=
        if conflicts userId (timestamp p) (lastEditMap s !! entryId p)
        then [ mkMessage (ToSocket sid) (collab "CONFLICT_DETECTED")
                         (PConflict (entryId p) "last-write-wins" now) ]
        else [] in
      let tm := mkTimeout (timerSeq s) (now + debounceMs) room (entryId p)
                          (content p) (operation p) (cursorPosition p)
                          userId in
      let s := with_debounceMap (<[sid := tm]> (debounceMap s)) s in
      let s := with_timerSeq (S (timerSeq s)) s in
      (s, notice).

(** [socket.on(ENTRY_CURSOR_MOVE, ...)] *)
Definition onCursorMove (now : Z) (socket : Socket) (entryId : string)
    (pos : jsval) (s : State) : State * list Message :=
  let userId := socket_userId socket in
  let sid := socket_id socket in
  if negb (truthy_id entryId) || negb (truthy pos) then (s, [])
  else
    let lastEmit := default 0 (cursorThrottleMap s !! sid) in
    if now - lastEmit <? throttleMs then (s, [])
    else
      let s := with_cursorThrottleMap (<[sid := now]> (cursorThrottleMap s)) s in
      let '(cs, ms) := handleCursorMove now socket userId entryId pos
                                        (cursorStore s) in
      (with_cursorStore cs s, ms).

(** What becomes of the promise an async listener returns when nothing
    in the listener catches: a rejection is unhandled, and the process
    ends. *)
Definition uncaught (r : State * list Message * outcome)
    : State * list Message :=
  match r with
  | (s, ms, Returned) => (s, ms)
  | (s, ms, Thrown _) => (exit s, ms)
  end.

(** [socket.on(USER_EDITING_ENTRY, ...)] and [socket.on(USER_IDLE_ENTRY,
    ...)]: async listeners without try/catch. A rejected UPDATE rejects
    the listener's promise. *)
Definition onUserEditing (now : Z) (socket : Socket) (entryId : string)
    (fails : query → bool) (s : State) : State * list Message :=
  if negb (truthy_id entryId) then (s, [])
  else uncaught (userEditingEntry now (socket_userId socket) entryId fails s).

Definition onUserIdle (now : Z) (socket : Socket) (entryId : string)
    (fails : query → bool) (s : State) : State * list Message :=
  if negb (truthy_id entryId) then (s, [])
  else uncaught (userIdleEntry now (socket_userId socket) entryId fails s).

(** *** Timers

    A timer runs its callback at the time it is due, before any event
    that arrives at or after that time. Timers due together run in the
    order they were created. *)

Definition timer_before (a b : string * Timeout) : Prop :=
  due a.2 < due b.2 ∨ (due a.2 = due b.2 ∧ (timer_id a.2 ≤ timer_id b.2)%nat).

#[global] Instance timer_before_dec a b : Decision (timer_before a b).
Proof. unfold timer_before. apply _. Defined.

Definition due_timers (now : Z) (dm : gmap string Timeout)
    : list (string * Timeout) :=
  merge_sort timer_before
    (filter (λ p, due p.2 ≤ now) (map_to_list dm)).

Fixpoint fire_all (l : list (string * Timeout)) (s : State)
    : State * list Message :=
  match l with
  | [] => (s, [])
  | (sid, tm) :: l' =>
      let '(s1, ms1) := fire (due tm) sid tm s in
      let '(s2, ms2) := fire_all l' s1 in
      (s2, (ms1 ++ ms2)%list)
  end.

Definition advance (now : Z) (s : State) : State * list Message :=
  fire_all (due_timers now (debounceMap s)) s.

End Collaboration.

(** ** server.js *)

Module Server.

Import Collaboration.

Definition ws (name : string) : option string := prop name WS_EVENTS.

Definition to_self (socket : Socket) (ev : option string) (p : Payload)
    : Message :=
  mkMessage (ToSocket (socket_id socket)) ev p.

(** [io.on("connection", ...)], up to the registration of the handlers.
    The transport has put the socket in the room named by its id. *)
Definition onConnection (now : Z) (socket : Socket) (fails : query → bool)
    (s : State) : State * list Message :=
  let userId := socket_userId socket in
  let sid := socket_id socket in
  if negb (truthy_id userId)
  then (s, [to_self socket (ws "ERROR") (PError "AUTH_ERROR" "Missing userId")])
  else
    let s := with_rooms (join sid sid (rooms s)) s in
    let s := with_connectedUsers (obj_set userId sid (connectedUsers s)) s in
    let failed := [to_self socket (ws "ERROR")
                           (PError "SERVER_ERROR" "Connection failed")] in
    match Presence.setUserOnline now userId sid fails s with
    | (s, ms1, Thrown _) => (s, ms1 ++ failed)
    | (s, ms1, Returned) =>
        match Friends.sendFriendsList now socket userId fails s with
        | (s, ms2, Thrown _) => (s, ms1 ++ ms2 ++ failed)
        | (s, ms2, Returned) =>
            if fails QFriendsOf then (s, ms1 ++ ms2 ++ failed)
            else
              let ms3 :=
                omap (λ f, match obj_get f (connectedUsers s) with
                           | Some (Own friendSocket) =>
                               if truthy_id friendSocket
                               then Some (mkMessage (ToRoom friendSocket)
                                            (prop "FRIEND_ONLINE"
                                                  DIARY_SOCIAL_WS_EVENTS)
                                            (PFriend userId now))
                               else None
                           | Some (Inherited name) =>
                               Some (mkMessage (ToObject name)
                                       (prop "FRIEND_ONLINE"
                                             DIARY_SOCIAL_WS_EVENTS)
                                       (PFriend userId now))
                           | None => None
                           end)
                     (friends_of userId (friends (db s))) in
              if fails QSessionsOf then (s, ms1 ++ ms2 ++ ms3 ++ failed)
              else
                let restored := sessions_of userId (active_sessions (db s)) in
                let s := with_rooms
                           (fold_left (λ r e, join (room_of e) sid r)
                                      restored (rooms s)) s in
                (s, ms1 ++ ms2 ++ ms3 ++
                    [to_self socket (ws "AUTHENTICATED")
                             (PAuthenticated userId now)])
        end
    end%list.

(** [socket.on(JOIN_ENTRY_ROOM, ...)] *)
Definition onJoinEntryRoom (now : Z) (socket : Socket) (entryId : string)
    (fails : query → bool) (s : State) : State * list Message :=
  if negb (truthy_id entryId)
  then (s, [to_self socket (ws "ERROR")
                    (PError "VALIDATION_ERROR" "entryId is required")])
  else
    match joinEntryRoom now socket (socket_userId socket) entryId fails s with
    | (s, ms, Returned) => (s, ms)
    | (s, ms, Thrown e) => (s, (ms ++ [to_self socket (ws "ERROR") (PThrown e)])%list)
    end.

(** [socket.on(LEAVE_ENTRY_ROOM, ...)] *)
Definition onLeaveEntryRoom (now : Z) (socket : Socket) (entryId : string)
    (fails : query → bool) (s : State) : State * list Message :=
  if negb (truthy_id entryId) then (s, [])
  else (leaveEntryRoom now socket (socket_userId socket) entryId fails s).1.

(** The loop over [cursorStore.entries()] of the disconnect handler. *)
Fixpoint clear_cursors (socket : Socket) (userId : string)
    (cs : list (string * gmap string Cursor))
    : list (string * gmap string Cursor) * list Message :=
  match cs with
  | [] => ([], [])
  | (entryId, cursors) :: cs' =>
      let '(cs'', ms) := clear_cursors socket userId cs' in
      match cursors !! userId with
      | Some _ =>
          ((entryId, delete userId cursors) :: cs'',
           mkMessage (ToRoomExcept (room_of entryId) (socket_id socket))
                     (collab "ENTRY_CURSOR_CLEAR")
                     (PCursorClear userId entryId) :: ms)
      | None => ((entryId, cursors) :: cs'', ms)
      end
  end.

(** [socket.on("disconnect", ...)]. The transport has taken the socket
    out of every room before the listener runs. [delete
    connectedUsers[userId]] removes the own property, if any. *)
Definition onDisconnect (now : Z) (socket : Socket) (fails : query → bool)
    (s : State) : State * list Message :=
  let userId := socket_userId socket in
  let s := with_rooms (leaveAll (socket_id socket) (rooms s)) s in
  let s := with_connectedUsers (delete userId (connectedUsers s)) s in
  match Presence.setUserOffline now userId fails s with
  | (s, ms1, Thrown _) => (s, ms1)
  | (s, ms1, Returned) =>
      let '(cs, ms2) := clear_cursors socket userId (cursorStore s) in
      let s := with_cursorStore cs s in
      if fails QDeleteSessions then (s, (ms1 ++ ms2)%list)
      else
        (with_db (with_sessions (delete_sessions_of userId) (db s)) s,
         (ms1 ++ ms2)%list)
  end.

(** [socket.on(PONG, ...)]: the two UPDATEs of [Heartbeat.onPong], inside
    one try block. ([socket.lastHeartbeatReceived], which the handler also
    sets, is read by the sweep of stale sockets alone.) *)
Definition onPong (now : Z) (socket : Socket) (fails : query → bool)
    (s : State) : State * list Message :=
  (with_db (Heartbeat.onPong now (socket_userId socket)
              (fails QTouchConnection) (fails QTouchSessions) (db s)) s,
   []).

(** The interval that deletes stale sessions, every five minutes. *)
Definition onCleanup (now : Z) (fails : query → bool) (s : State)
    : State * list Message :=
  (with_db (Heartbeat.cleanupStaleSessions now (fails QCleanup) (db s)) s, []).

(** The interval that emits the heartbeat, every 30 seconds. *)
Definition onHeartbeat (now : Z) (s : State) : State * list Message :=
  (s, [mkMessage ToAll (ws "HEARTBEAT") (PHeartbeat now)]).

(** The sweep of stale sockets, at one socket it finds stale: it awaits
    [setUserOffline], outside any try/catch, and then calls
    [socket.disconnect(true)], which raises the socket's disconnect event
    (the next entry of the trace). *)
Definition onStaleSocket (now : Z) (socket : Socket) (fails : query → bool)
    (s : State) : State * list Message :=
  uncaught (Presence.setUserOffline now (socket_userId socket) fails s).

(** A listener that destructures its payload, called without one
    ([undefined] or [null]): the destructuring throws a TypeError, before
    any try block is entered. Every listener of the socket but those of
    the pong and of the disconnect is of this kind. *)
Definition onNoPayload (s : State) : State * list Message := (exit s, []).

(** What reaches the server: the events of a socket, and the three
    intervals of server.js. *)
Inductive Event :=
| Connection (socket : Socket) (fails : query → bool)
| JoinEntryRoom (socket : Socket) (entryId : string) (fails : query → bool)
| LeaveEntryRoom (socket : Socket) (entryId : string) (fails : query → bool)
| EntryEdit (socket : Socket) (p : EditEvent)
| EntryCursorMove (socket : Socket) (entryId : string) (pos : jsval)
| UserEditingEntry (socket : Socket) (entryId : string) (fails : query → bool)
| UserIdleEntry (socket : Socket) (entryId : string) (fails : query → bool)
| Disconnect (socket : Socket) (fails : query → bool)
| Pong (socket : Socket) (fails : query → bool)
| CleanupStaleSessions (fails : query → bool)
| HeartbeatTick
| StaleSocket (socket : Socket) (fails : query → bool)
| NoPayload (socket : Socket).

Definition dispatch (now : Z) (ev : Event) (s : State)
    : State * list Message :=
  match ev with
  | Connection socket fails => onConnection now socket fails s
  | JoinEntryRoom socket entryId fails =>
      onJoinEntryRoom now socket entryId fails s
  | LeaveEntryRoom socket entryId fails =>
      onLeaveEntryRoom now socket entryId fails s
  | EntryEdit socket p => onEntryEdit now socket p s
  | EntryCursorMove socket entryId pos =>
      onCursorMove now socket entryId pos s
  | UserEditingEntry socket entryId fails =>
      onUserEditing now socket entryId fails s
  | UserIdleEntry socket entryId fails =>
      onUserIdle now socket entryId fails s
  | Disconnect socket fails => onDisconnect now socket fails s
  | Pong socket fails => onPong now socket fails s
  | CleanupStaleSessions fails => onCleanup now fails s
  | HeartbeatTick => onHeartbeat now s
  | StaleSocket socket fails => onStaleSocket now socket fails s
  | NoPayload _ => onNoPayload s
  end.

(** One event arriving at [now]: the timers due by then run first. A
    process that has ended handles nothing. ([exit] has emptied
    [debounceMap], so no timer of an ended process is left to run.) *)
Definition step (now : Z) (ev : Event) (s : State) : State * list Message :=
  if exited s then (s, [])
  else
    let '(s1, ms1) := advance now s in
    let '(s2, ms2) := dispatch now ev s1 in
    (s2, (ms1 ++ ms2)%list).

Fixpoint run (tr : list (Z * Event)) (s : State) : State * list Message :=
  match tr with
  | [] => (s, [])
  | (now, ev) :: tr' =>
      let '(s1, ms1) := step now ev s in
      let '(s2, ms2) := run tr' s1 in
      (s2, (ms1 ++ ms2)%list)
  end.

(** The events of [tr], then quiet until [t]. *)
Definition run_until (t : Z) (tr : list (Z * Event)) (s : State)
    : State * list Message :=
  let '(s1, ms1) := run tr s in
  let '(s2, ms2) := advance t s1 in
  (s2, (ms1 ++ ms2)%list).

End Server.

Import Collaboration Server.


(** ** What an observer of one connection sees *)

Module Observations.

Import Collaboration Server.

(** Sent with [socket.to(room).emit] by the socket [sid]. *)
Definition sent_by (sid : string) (m : Message) : bool :=
  match target m with
  | ToRoomExcept _ sid' => String.eqb sid' sid
  | _ => false
  end.

(** A cursor position broadcast by the socket [sid]. *)
Definition cursor_from (sid : string) (m : Message) : bool :=
  has_event "entry_cursor_move" m && sent_by sid m.

(** An edit relayed on behalf of the socket [sid]. *)
Definition relay_from (sid : string) (m : Message) : bool :=
  has_event "entry_edit" m && sent_by sid m.


(** The positions carried by cursor broadcasts, in order. *)
Definition positions (ms : list Message) : list jsval :=
  omap (λ m, match payload m with
             | PCursor _ pos _ =>
                 if has_event "entry_cursor_move" m then Some pos else None
             | _ => None
             end) ms.

(** A conflict notice, whatever event name it was emitted under. *)
Definition conflict_notice (m : Message) : bool :=
  match payload m with
  | PConflict _ _ _ => true
  | _ => false
  end.

(** The contents carried by relayed edits, in order. *)
Definition relayed_contents (ms : list Message) : list jsval :=
  omap (λ m, match payload m with
             | PEdit _ c _ _ _ _ =>
                 if has_event "entry_edit" m then Some c else None
             | _ => None
             end) ms.

(** The cursor moves of the socket [sid] in a trace. *)
Definition cursor_moves (sid : string) (tr : list (Z * Event))
    : list (Z * Socket * string * jsval) :=
  omap (λ '(t, ev), match ev with
                    | EntryCursorMove so e pos =>
                        if String.eqb (socket_id so) sid
                        then Some (t, so, e, pos) else None
                    | _ => None
                    end) tr.


(** One cursor move of the socket [sid] against its throttle entry
    [last]: the broadcast it causes, if it passes the guards. *)
Definition accepts (sid : string) (mv : Z * Socket * string * jsval)
    (last : option Z) : option Message :=
  let '(t, so, e, pos) := mv in
  if negb (truthy_id e) || negb (truthy pos) then None
  else if t - default 0 last <? throttleMs then None
  else Some (mkMessage (ToRoomExcept (room_of e) sid)
                       (collab "ENTRY_CURSOR_MOVE")
                       (PCursor (socket_userId so) pos t)).

(** The cursor moves of one socket alone: the broadcasts they cause. *)
Fixpoint throttled (sid : string)
    (moves : list (Z * Socket * string * jsval)) (last : option Z)
    : list Message :=
  match moves with
  | [] => []
  | mv :: moves' =>
      match accepts sid mv last with
      | Some m => m :: throttled sid moves' (Some mv.1.1.1)
      | None => throttled sid moves' last
      end
  end.

(** The message the callback of the timer [tm] of the socket [sid] emits. *)
Definition timer_relay (sid : string) (tm : Timeout) : Message :=
  mkMessage (ToRoomExcept (t_room tm) sid) (collab "ENTRY_EDIT")
            (PEdit (t_entryId tm) (t_content tm) (t_operation tm)
                   (t_cursorPosition tm) (t_userId tm) (due tm)).

(** The relay of the edit [p] of the socket [so], stamped [t]. *)
Definition relay_of (so : Socket) (p : EditEvent) (t : Z) : Message :=
  mkMessage (ToRoomExcept (room_of (entryId p)) (socket_id so))
            (Some "entry_edit")
            (PEdit (entryId p) (content p) (operation p) (cursorPosition p)
                   (socket_userId so) t).

(** The payload guard of the edit handler. *)
Definition valid_edit (p : EditEvent) : bool :=
  truthy_id (entryId p) && truthy_num (timestamp p).

(** The rate limiter admits a call of [userId] at [now]. *)
Definition admitted (now : Z) (userId : string) (s : State) : bool :=
  (RateLimit.checkRateLimit now userId (userEventCounts s)).1.

(** No edit for the entry [A] is pending. *)
Definition none_pending_for (A : string) (s : State) : Prop :=
  ∀ sid tm, debounceMap s !! sid = Some tm → t_entryId tm ≠ A.


(** Every cached object is one that [sendFriendsList] built. *)
Definition cache_as_written (fc : gmap string (gmap string (list string)))
    : Prop :=
  ∀ u c, fc !! u = Some c → ∃ rows, c = Friends.result rows.

(** The events a list of messages may carry. *)
Definition events_within (allowed : list (option string))
    (ms : list Message) : Prop :=
  Forall (λ m, In (event m) allowed) ms.

(** The events the handlers other than the cursor handler emit: no
    cursor position, no relayed edit. *)
Definition other_events : list (option string) :=
  [ Some "error"; Some "friend_online"; Some "friend_offline";
    Some "friends_list"; Some "authenticated"; Some "current_viewers";
    Some "user_viewing_entry"; Some "entry_collab_leave"; Some "ERROR";
    None; Some "user_editing_entry"; Some "user_idle_entry";
    Some "entry_cursor_clear"; Some "heartbeat" ].

(** [s'] differs from [s] at most in the friends cache and in the
    [ws_connections] table. *)
Definition presence_only (s s' : State) : Prop :=
  userEventCounts s' = userEventCounts s
  ∧ connectedUsers s' = connectedUsers s
  ∧ cursorStore s' = cursorStore s
  ∧ lastEditMap s' = lastEditMap s
  ∧ debounceMap s' = debounceMap s
  ∧ timerSeq s' = timerSeq s
  ∧ cursorThrottleMap s' = cursorThrottleMap s
  ∧ rooms s' = rooms s
  ∧ active_sessions (db s') = active_sessions (db s)
  ∧ friends (db s') = friends (db s)
  ∧ exited s' = exited s.

(** A Membership is a row of [active_sessions]; a Cursor is an entry of
    the cursor store. *)
Definition membership (s : State) (userId entryId : string)
    : option Session :=
  active_sessions (db s) !! (entryId, userId).

Definition cursor (s : State) (userId entryId : string) : option Cursor :=
  oget entryId (cursorStore s) ≫= λ cursors, cursors !! userId.

Definition cursor_implies_membership (s : State) : Prop :=
  ∀ userId entryId, is_Some (cursor s userId entryId) →
                    is_Some (membership s userId entryId).

End Observations.

Import Observations.

(** ** Sample connections and traces *)

Module Scenario.

Import Collaboration Server.

Definition sockA : Socket := mkSocket "sA" "A".
Definition sockB : Socket := mkSocket "sB" "B".

(** An empty store, and one in which "A" lists "B" as a friend. *)
Definition empty_tables : Tables := mkTables ∅ ∅ [].
Definition friend_tables : Tables := mkTables ∅ ∅ [("A", "B")].

(** Three cursor samples of B within 100 ms. *)
Definition cursor_burst : list (Z * Event) :=
  [ (1000, EntryCursorMove sockB "E1" (JPoint 1 1));
    (1040, EntryCursorMove sockB "E1" (JPoint 5 5));
    (1080, EntryCursorMove sockB "E1" (JPoint 10 5)) ].

(** A then B edit the entry "E1"; B's edit arrives, and is stamped by
    its client, [gap] ms after A's. *)
Definition two_editors (gap : Z) : list (Z * Event) :=
  [ (1000, EntryEdit sockA
             (mkEditEvent "E1" (JStr "a") (JStr "update") JUndefined 1000));
    (1000 + gap,
     EntryEdit sockB
       (mkEditEvent "E1" (JStr "b") (JStr "update") JUndefined
                    (1000 + gap))) ].

(** A and B connect and join "E1"; B moves its cursor to (10, 5). *)
Definition shared_entry : list (Z * Event) :=
  [ (100, Connection sockA all_ok);
    (200, Connection sockB all_ok);
    (300, JoinEntryRoom sockA "E1" all_ok);
    (400, JoinEntryRoom sockB "E1" all_ok);
    (500, EntryCursorMove sockB "E1" (JPoint 10 5)) ].

Definition in_shared_entry : State :=
  (run shared_entry (initial empty_tables)).1.

(** A and B have connected and joined "E1"; nobody has moved a cursor. *)
Definition both_joined : State :=
  (run [ (100, Connection sockA all_ok);
         (200, Connection sockB all_ok);
         (300, JoinEntryRoom sockA "E1" all_ok);
         (400, JoinEntryRoom sockB "E1" all_ok) ]
       (initial empty_tables)).1.

(** B joins "E1" and moves its cursor, then sends nothing; the cleanup
    of stale sessions runs more than ten minutes later. *)
Definition stale_session : list (Z * Event) :=
  [ (100, Connection sockB all_ok);
    (200, JoinEntryRoom sockB "E1" all_ok);
    (300, EntryCursorMove sockB "E1" (JPoint 10 5));
    (900000, CleanupStaleSessions all_ok) ].

(** The store rejects the statement that marks a user offline. *)
Definition offline_fails : query → bool :=
  λ q, match q with QMarkOffline => true | _ => false end.


(** The store rejects the UPDATE of a session's status. *)
Definition status_fails : query → bool :=
  λ q, match q with QSetStatus => true | _ => false end.

(** A sends three edits of "E1", 200 ms apart. *)
Definition three_edits : list (Z * Event) :=
  [ (1000, EntryEdit sockA
             (mkEditEvent "E1" (JStr "a") (JStr "update") JUndefined 1000));
    (1200, EntryEdit sockA
             (mkEditEvent "E1" (JStr "ab") (JStr "update") JUndefined 1200));
    (1400, EntryEdit sockA
             (mkEditEvent "E1" (JStr "abc") (JStr "update") JUndefined 1400)) ].


(** A sends three edits of "E1", then reports itself idle 100 ms after
    the last one, and the store rejects the status update. *)
Definition edits_then_rejection : list (Z * Event) :=
  (three_edits ++ [ (1500, UserIdleEntry sockA "E1" status_fails) ])%list.

(** A has edited "E1" at 1000; the edit is pending. *)
Definition editing_E1 : State :=
  (step 1000 (EntryEdit sockA
                (mkEditEvent "E1" (JStr "a") (JStr "update") JUndefined 1000))
        (initial empty_tables)).1.

End Scenario.

(** ** handlers/presence.js, [getOnlineFriends] *)

Module OnlineFriends.

(** SELECT f.friend_id, w.socket_id, w.online
    FROM friends f LEFT JOIN ws_connections w ON w.user_id = f.friend_id
    WHERE f.user_id = $1 AND w.online = true *)
Definition rows (userId : string) (t : Tables)
    : list (string * string * bool) :=
  omap (λ f, match ws_connections t !! f with
             | Some c => if online c
                         then Some (f, conn_socket_id c, online c)
                         else None
             | None => None
             end)
       (friends_of userId (friends t)).

(** The function catches a rejected query, logs it and returns []. *)
Definition getOnlineFriends (userId : string) (rejected : bool) (t : Tables)
    : list (string * string * bool) :=
  if rejected then [] else rows userId t.

End OnlineFriends.

(** ** handlers/collaboration.js, [handleStateRequest], and the
    STATE_REQUEST and DESYNC_DETECTED handlers of server.js *)

Module StateRequest.

(** A row of [diary_entries], as selected: [content] may be NULL. *)
Record DiaryEntry := mkDiaryEntry {
  entry_content : option string;
  entry_updated_at : Z
}.

(** The two shapes of the STATE_RESPONSE payload. *)
Inductive Response :=
| Found (entryId : string) (content : option string) (updatedAt : Z)
        (viewers : list (string * Status)) (timestamp : Z)
| Failed (entryId error : string).

(** [socket.emit(event, body)] *)
Record Reply := mkReply {
  reply_to : string;
  reply_event : option string;
  reply_body : Response
}.

(** [entries] is the table [diary_entries]; the two flags tell whether
    the store rejects the first and the second query. Every throw is
    caught inside the function. *)
Definition handleStateRequest (now : Z) (socket : Socket)
    (userId entryId : string) (entries : gmap string DiaryEntry)
    (entry_rejected viewers_rejected : bool) (s : State) : Reply :=
  let reply body :=
    mkReply (socket_id socket) (Collaboration.collab "STATE_RESPONSE") body in
  if entry_rejected then reply (Failed entryId "Failed to fetch state")
  else
    match entries !! entryId with
    | None => reply (Failed entryId "Entry not found")
    | Some entry =>
        if viewers_rejected
        then reply (Failed entryId "Failed to fetch state")
        else reply (Found entryId (entry_content entry)
                          (entry_updated_at entry)
                          (select_viewers entryId (active_sessions (db s)))
                          now)
    end.

(** [socket.on(STATE_REQUEST, ...)] and [socket.on(DESYNC_DETECTED, ...)] *)
Definition onStateRequest (now : Z) (socket : Socket) (entryId : string)
    (entries : gmap string DiaryEntry)
    (entry_rejected viewers_rejected : bool) (s : State) : list Reply :=
  if negb (truthy_id entryId) then []
  else [handleStateRequest now socket (socket_userId socket) entryId entries
                           entry_rejected viewers_rejected s].

End StateRequest.

(** ** hooks/usePresence.js: the state updaters of the hook *)

Module UsePresence.

(** The two pieces of state of the hook. *)
Record View := mkView {
  onlineUsers : list string;
  offlineUsers : list string
}.

Definition initial : View := mkView [] [].

(** FRIEND_ONLINE *)
Definition handleFriendOnline (userId : string) (v : View) : View :=
  mkView (if FriendsCache.includes userId (onlineUsers v)
          then onlineUsers v
          else (onlineUsers v ++ [userId])%list)
         (FriendsCache.without userId (offlineUsers v)).

(** FRIEND_OFFLINE *)
Definition handleFriendOffline (userId : string) (v : View) : View :=
  mkView (FriendsCache.without userId (onlineUsers v))
         (if FriendsCache.includes userId (offlineUsers v)
          then offlineUsers v
          else (offlineUsers v ++ [userId])%list).

(** FRIENDS_LIST *)
Definition handleFriendsList (onlineFriends offlineFriends : list string)
    (v : View) : View :=
  mkView onlineFriends offlineFriends.

(** The presence events a client receives, in order. *)
Inductive PresenceEvent :=
| FriendOnline (userId : string)
| FriendOffline (userId : string).

Definition receive (ev : PresenceEvent) (v : View) : View :=
  match ev with
  | FriendOnline u => handleFriendOnline u v
  | FriendOffline u => handleFriendOffline u v
  end.

Definition receive_all (evs : list PresenceEvent) (v : View) : View :=
  fold_left (λ v ev, receive ev v) evs v.

(** No friend is listed twice, and none as both online and offline. *)
Definition consistent (v : View) : Prop :=
  NoDup (onlineUsers v) ∧ NoDup (offlineUsers v)
  ∧ ∀ u, u ∈ onlineUsers v → u ∉ offlineUsers v.

End UsePresence.

(** ** hooks/useCollaboration.js: the state updaters of the hook *)

Module UseCollaboration.

Record ClientCursor := mkClientCursor {
  cc_position : jsval;
  cc_timestamp : Z
}.

(** The three pieces of state of the hook. *)
Record View := mkView {
  viewers : list (string * Status);
  cursors : gmap string ClientCursor;
  content : jsval
}.

Definition initial : View := mkView [] ∅ (JStr "").

(** [prev.find(v => v.user_id === userId)] finds something. *)
Definition knows (userId : string) (vs : list (string * Status)) : bool :=
  existsb (λ v, String.eqb v.1 userId) vs.

Definition handleCurrentViewers (current : list (string * Status)) (v : View)
    : View :=
  mkView current (cursors v) (content v).

Definition handleUserViewing (userId : string) (v : View) : View :=
  mkView (if knows userId (viewers v) then viewers v
          else (viewers v ++ [(userId, viewing)])%list)
         (cursors v) (content v).

Definition handleUserLeave (userId : string) (v : View) : View :=
  mkView (List.filter (λ x, negb (String.eqb x.1 userId)) (viewers v))
         (delete userId (cursors v)) (content v).

Definition handleCursorMove (now : Z) (userId : string) (pos : jsval)
    (v : View) : View :=
  mkView (viewers v) (<[userId := mkClientCursor pos now]> (cursors v))
         (content v).

Definition handleCursorClear (userId : string) (v : View) : View :=
  mkView (viewers v) (delete userId (cursors v)) (content v).

Definition handleEntryEdit (newContent : jsval) (v : View) : View :=
  mkView (viewers v) (cursors v)
         (if truthy newContent then newContent else JStr "").

(** The listeners the hook registers, applied to a message of the server.
    A message whose payload is not the one the server sends under that
    event name is left aside. *)
Definition receive (now : Z) (m : Message) (v : View) : View :=
  match payload m with
  | PViewers _ rows =>
      if has_event "current_viewers" m then handleCurrentViewers rows v else v
  | PPresence _ userId _ =>
      if has_event "user_viewing_entry" m then handleUserViewing userId v
      else if has_event "entry_collab_leave" m then handleUserLeave userId v
      else v
  | PCursor userId pos _ =>
      if has_event "entry_cursor_move" m then handleCursorMove now userId pos v
      else v
  | PCursorClear userId _ =>
      if has_event "entry_cursor_clear" m then handleCursorClear userId v
      else v
  | PEdit _ c _ _ _ _ =>
      if has_event "entry_edit" m then handleEntryEdit c v else v
  | _ => v
  end.

Definition receive_all (now : Z) (ms : list Message) (v : View) : View :=
  fold_left (λ v m, receive now m v) ms v.

End UseCollaboration.

(** ** Further observations *)

Module Views.

(** The friend notification of [setUserOnline] and [setUserOffline]. *)
Definition friend_notice (isOnline : bool) (now : Z) (userId lister : string)
    : Message :=
  mkMessage (ToRoom lister)
            (Some (if isOnline then "friend_online" else "friend_offline"))
            (PFriend userId now).

(** How many calls were admitted. *)
Definition admissions (answers : list bool) : nat :=
  length (List.filter (λ b, b) answers).

(** The user a presence event is about. *)
Definition subject (ev : UsePresence.PresenceEvent) : string :=
  match ev with
  | UsePresence.FriendOnline u => u
  | UsePresence.FriendOffline u => u
  end.

(** A viewers snapshot names no user twice. *)
Definition snapshot_unique (m : Message) : Prop :=
  match payload m with
  | PViewers _ rows => NoDup rows.*1
  | _ => True
  end.

(** The event is a join of the entry [entryId] by the user [userId]. *)
Definition joins (userId entryId : string) (ev : Server.Event) : Prop :=
  match ev with
  | Server.JoinEntryRoom so e _ => socket_userId so = userId ∧ e = entryId
  | _ => False
  end.

End Views.

(** * Properties *)

(** ** Rate limiter *)

Section RateLimitFacts.

Import RateLimit.

Lemma tick_new_window now od :
  match od with
  | None => True
  | Some d => now - lastReset d > windowMs
  end →
  tick now od = (true, mkRateData 1 now).
Proof.
  unfold tick, windowMs, RATE_LIMIT. destruct od as [[k t0]|]; simpl; intros H.
  - destruct (Z.gtb_spec (now - t0) 1000); [reflexivity | lia].
  - replace (now - now) with 0 by lia. reflexivity.
Qed.

Lemma tick_same_window now k t0 :
  now - t0 ≤ windowMs →
  tick now (Some (mkRateData k t0))
  = (if k + 1 >? RATE_LIMIT then false else true, mkRateData (k + 1) t0).
Proof.
  unfold tick, windowMs. simpl. intros H.
  destruct (Z.gtb_spec (now - t0) 1000); [lia | reflexivity].
Qed.

(** Another user's call leaves this user's entry alone. *)
Lemma checkRateLimit_other now u u' m :
  u ≠ u' → (checkRateLimit now u m).2 !! u' = m !! u'.
Proof.
  intros Hne. unfold checkRateLimit. destruct (tick now (m !! u)) as [r d].
  simpl. by rewrite lookup_insert_ne.
Qed.

Lemma checkRateLimit_self now u m :
  (checkRateLimit now u m).1 = (tick now (m !! u)).1
  ∧ (checkRateLimit now u m).2 !! u = Some (tick now (m !! u)).2.
Proof.
  unfold checkRateLimit. destruct (tick now (m !! u)) as [r d].
  simpl. by rewrite lookup_insert_eq.
Qed.

(** In any interleaving, a user is answered as if alone. *)
Lemma run_ticks u tr : ∀ m,
  answers u (run tr m).1 = (ticks (calls u tr) (m !! u)).1
  ∧ (run tr m).2 !! u = (ticks (calls u tr) (m !! u)).2.
Proof.
  induction tr as [|[u' t] tr IH]; intros m; [done|].
  cbn [run]. destruct (checkRateLimit t u' m) as [r m1] eqn:Hc.
  specialize (IH m1). destruct (run tr m1) as [rs m2]. cbn [fst snd] in *.
  unfold answers, calls in *. rewrite !filter_cons. cbn [fst snd].
  destruct (decide (u' = u)) as [->|Hne]; cbn [map snd].
  - destruct (checkRateLimit_self t u m) as [H1 H2]. rewrite Hc in H1, H2.
    cbn [fst snd] in H1, H2. rewrite H2 in IH. cbn [ticks].
    destruct (tick t (m !! u)) as [r' d]. cbn [fst snd] in *. subst r'.
    destruct (ticks _ (Some d)) as [rs' od']. cbn [fst snd] in *.
    destruct IH as [-> ->]. done.
  - pose proof (checkRateLimit_other t u' u m Hne) as H. rewrite Hc in H.
    cbn [snd] in H. rewrite H in IH. done.
Qed.

(** Calls that stay inside the open window: the [i]-th of them (from 0)
    is admitted while the count stays within the limit. *)
Lemma ticks_same_window t0 ts : ∀ k,
  Forall (λ t, t - t0 ≤ windowMs) ts →
  ticks ts (Some (mkRateData k t0))
  = (map (λ i, if k + 1 + Z.of_nat i >? RATE_LIMIT then false else true)
         (seq 0 (length ts)),
     Some (mkRateData (k + Z.of_nat (length ts)) t0)).
Proof.
  induction ts as [|t ts IH]; intros k Hall.
  - simpl. do 3 f_equal. lia.
  - inversion Hall as [|? ? Ht Hts]; subst.
    cbn [ticks]. rewrite tick_same_window by done.
    rewrite (IH (k + 1) Hts). cbn [length seq map].
    rewrite <- seq_shift, map_map. f_equal.
    + f_equal.
      * replace (k + 1 + Z.of_nat 0) with (k + 1) by lia. done.
      * apply map_ext. intros i.
        replace (k + 1 + Z.of_nat (S i)) with (k + 1 + 1 + Z.of_nat i) by lia.
        done.
    + do 2 f_equal. lia.
Qed.

End RateLimitFacts.

(** C9. For every user and every interleaving of admit checks in which
    the user's first call opens a rate window and the user's next N = 10
    calls fall inside that window (at most 1000 ms after it opened), the
    first N calls are answered [true] and the (N+1)-th [false]; the answer
    is a boolean, nothing is thrown. A later call of that user, more than
    1000 ms after the window opened, is admitted and leaves the entry with
    count 1 and the window start at the time of that call. *)
Theorem checkRateLimit_window (userId : string)
    (m : gmap string RateLimit.RateData) (tr : list (string * Z))
    (t0 : Z) (ts : list Z) :
  RateLimit.starts_window m userId t0 →
  RateLimit.calls userId tr = t0 :: ts →
  length ts = Z.to_nat RateLimit.RATE_LIMIT →
  Forall (λ t, t - t0 ≤ RateLimit.windowMs) ts →
  RateLimit.answers userId (RateLimit.run tr m).1
  = (repeat true (Z.to_nat RateLimit.RATE_LIMIT) ++ [false])%list
  ∧ ∀ t, t - t0 > RateLimit.windowMs →
      RateLimit.checkRateLimit t userId (RateLimit.run tr m).2
      = (true, <[userId := RateLimit.mkRateData 1 t]> (RateLimit.run tr m).2).
Proof.
  intros Hstart Hcalls Hlen Hall.
  destruct (run_ticks userId tr m) as [Hans Hfin].
  rewrite Hcalls in Hans, Hfin. cbn [RateLimit.ticks] in Hans, Hfin.
  rewrite (tick_new_window t0 _ Hstart) in Hans, Hfin.
  rewrite (ticks_same_window t0 ts 1 Hall) in Hans, Hfin.
  simpl in Hans, Hfin. split.
  - rewrite Hans, Hlen. reflexivity.
  - intros t Ht. unfold RateLimit.checkRateLimit. rewrite Hfin.
    rewrite tick_new_window; [done|]. simpl. done.
Qed.

(** A run of C9: user "u" calls eleven times within one second while
    user "v" calls in between, then once more two seconds later. *)
Lemma checkRateLimit_window_witness :
  let tr := [("u", 5000); ("u", 5010); ("v", 5015); ("u", 5020); ("u", 5030);
             ("u", 5040); ("u", 5050); ("v", 5055); ("u", 5060); ("u", 5070);
             ("u", 5080); ("u", 5090); ("u", 6000)] in
  RateLimit.answers "u" (RateLimit.run tr ∅).1
  = [true; true; true; true; true; true; true; true; true; true; false]
  ∧ (RateLimit.checkRateLimit 7000 "u" (RateLimit.run tr ∅).2).1 = true.
Proof.
  intros tr.
  destruct (checkRateLimit_window "u" ∅ tr 5000
              [5010; 5020; 5030; 5040; 5050; 5060; 5070; 5080; 5090; 6000])
    as [H1 H2].
  - reflexivity.
  - reflexivity.
  - reflexivity.
  - repeat constructor; unfold RateLimit.windowMs; lia.
  - split; [exact H1|]. rewrite (H2 7000); [reflexivity|].
    unfold RateLimit.windowMs; lia.
Defined.

(** ** Which events a handler emits, and which maps it touches *)

Section Frames.

Lemma events_within_app allowed ms1 ms2 :
  events_within allowed ms1 → events_within allowed ms2 →
  events_within allowed (ms1 ++ ms2)%list.
Proof. unfold events_within. intros. by apply Forall_app. Qed.

Lemma events_within_weaken allowed allowed' ms :
  events_within allowed ms → incl allowed allowed' →
  events_within allowed' ms.
Proof.
  unfold events_within. intros H Hincl. eapply Forall_impl; [exact H|].
  intros m Hm. by apply Hincl.
Qed.

Lemma events_within_filter name (f : Message → bool) allowed ms :
  events_within allowed ms → ¬ In (Some name) allowed →
  List.filter (λ m, has_event name m && f m) ms = [].
Proof.
  intros H Hnot. induction H as [|m ms Hm _ IH]; [done|].
  simpl. rewrite IH. unfold has_event.
  destruct (event m) as [n|] eqn:He; [|done].
  destruct (String.eqb_spec n name) as [->|]; [|done].
  by destruct Hnot.
Qed.

Ltac events_tac :=
  unfold events_within; simpl;
  repeat (constructor; [simpl; auto 20|]); try constructor.

Lemma notify_events isOnline now userId rows : ∀ fc,
  events_within [Some "friend_online"; Some "friend_offline"]
    (Presence.notify isOnline now userId rows fc).1.2.
Proof.
  induction rows as [|r rows IH]; intros fc; simpl; [constructor|].
  destruct (FriendsCache.updateStatus r userId isOnline fc) as [fc1 [|e]];
    [|constructor].
  specialize (IH fc1).
  destruct (Presence.notify isOnline now userId rows fc1) as [[fc2 ms] o].
  simpl in *. constructor; [|done].
  destruct isOnline; simpl; auto 20.
Qed.

Lemma setUserOnline_events now userId sid fails s :
  events_within [Some "friend_online"; Some "friend_offline"]
    (Presence.setUserOnline now userId sid fails s).1.2.
Proof.
  unfold Presence.setUserOnline.
  destruct (fails QUpsertConnection); [constructor|].
  destruct (fails QWhoLists); [constructor|].
  match goal with |- context [Presence.notify ?a ?b ?c ?d ?e] =>
    pose proof (notify_events a b c d e) as H;
    destruct (Presence.notify a b c d e) as [[fc ms] o] end.
  done.
Qed.

Lemma setUserOffline_events now userId fails s :
  events_within [Some "friend_online"; Some "friend_offline"]
    (Presence.setUserOffline now userId fails s).1.2.
Proof.
  unfold Presence.setUserOffline.
  destruct (fails QMarkOffline); [constructor|].
  destruct (fails QWhoLists); [constructor|].
  match goal with |- context [Presence.notify ?a ?b ?c ?d ?e] =>
    pose proof (notify_events a b c d e) as H;
    destruct (Presence.notify a b c d e) as [[fc ms] o] end.
  done.
Qed.

Lemma sendFriendsList_events now socket userId fails s :
  events_within [Some "friends_list"]
    (Friends.sendFriendsList now socket userId fails s).1.2.
Proof.
  unfold Friends.sendFriendsList.
  destruct (friendsCache s !! userId); [events_tac|].
  destruct (fails QFriendsWithStatus); events_tac.
Qed.

Lemma clear_cursors_events socket userId cs :
  events_within [Some "entry_cursor_clear"]
    (clear_cursors socket userId cs).2.
Proof.
  induction cs as [|[e cursors] cs IH]; simpl; [constructor|].
  destruct (clear_cursors socket userId cs) as [cs' ms].
  destruct (cursors !! userId); simpl in *; [|done].
  constructor; [simpl; auto 20|done].
Qed.

Lemma fire_all_events l : ∀ s,
  events_within [Some "entry_edit"] (fire_all l s).2.
Proof.
  induction l as [|[sid tm] l IH]; intros s; simpl; [constructor|].
  specialize (IH (fire (due tm) sid tm s).1).
  destruct (fire_all l _) as [s2 ms2]. simpl in *.
  constructor; [simpl; auto 20|done].
Qed.

Lemma advance_events now s :
  events_within [Some "entry_edit"] (advance now s).2.
Proof. apply fire_all_events. Qed.

Ltac within_other :=
  eapply events_within_weaken;
  [ eassumption || eauto
  | intros x Hx; unfold other_events; simpl in Hx |- *;
    intuition (subst; auto 20) ].

Lemma onConnection_events now socket fails s :
  events_within other_events (onConnection now socket fails s).2.
Proof.
  unfold onConnection.
  destruct (negb (truthy_id (socket_userId socket))); [events_tac|].
  match goal with |- context [Presence.setUserOnline ?a ?b ?c ?d ?e] =>
    pose proof (setUserOnline_events a b c d e) as H1;
    destruct (Presence.setUserOnline a b c d e) as [[s1 ms1] o1] end.
  simpl in H1.
  assert (Hms1 : events_within other_events ms1) by within_other.
  destruct o1 as [|e1]; [|apply events_within_app; [done|events_tac]].
  match goal with |- context [Friends.sendFriendsList ?a ?b ?c ?d ?e] =>
    pose proof (sendFriendsList_events a b c d e) as H2;
    destruct (Friends.sendFriendsList a b c d e) as [[s2 ms2] o2] end.
  simpl in H2.
  assert (Hms2 : events_within other_events ms2) by within_other.
  destruct o2 as [|e2];
    [|repeat (apply events_within_app; [done|]); events_tac].
  destruct (fails QFriendsOf);
    [repeat (apply events_within_app; [done|]); events_tac|].
  match goal with |- context [omap ?f ?l] =>
    assert (Hms3 : events_within other_events (omap f l)) end.
  { generalize (friends_of (socket_userId socket) (friends (db s2))).
    intros l. induction l as [|f l IH]; [constructor|].
    cbn [omap list_omap].
    destruct (obj_get f (connectedUsers s2)) as [[fs|name]|]; [| |exact IH].
    - destruct (truthy_id fs); [|exact IH].
      constructor; [simpl; auto 20|exact IH].
    - constructor; [simpl; auto 20|exact IH]. }
  destruct (fails QSessionsOf);
    simpl; repeat (apply events_within_app; [done|]); events_tac.
Qed.

Lemma onJoinEntryRoom_events now socket entryId fails s :
  events_within other_events (onJoinEntryRoom now socket entryId fails s).2.
Proof.
  unfold onJoinEntryRoom, joinEntryRoom.
  destruct (negb (truthy_id entryId)); [events_tac|].
  destruct (fails QUpsertSession); [events_tac|].
  destruct (fails QViewers); events_tac.
Qed.

Lemma onLeaveEntryRoom_events now socket entryId fails s :
  events_within other_events (onLeaveEntryRoom now socket entryId fails s).2.
Proof.
  unfold onLeaveEntryRoom, leaveEntryRoom.
  destruct (negb (truthy_id entryId)); [events_tac|].
  destruct (fails QDeleteSession); events_tac.
Qed.

Lemma onEntryEdit_events now socket p s :
  events_within other_events (onEntryEdit now socket p s).2.
Proof.
  unfold onEntryEdit.
  destruct (_ || _); [events_tac|].
  destruct (RateLimit.checkRateLimit _ _ _) as [[|] counts]; simpl;
    [|events_tac].
  destruct (conflicts _ _ _); events_tac.
Qed.

Lemma onUserEditing_events now socket entryId fails s :
  events_within other_events (onUserEditing now socket entryId fails s).2.
Proof.
  unfold onUserEditing, uncaught, userEditingEntry, userStatusEntry.
  destruct (negb (truthy_id entryId)); [events_tac|].
  destruct (fails QSetStatus); events_tac.
Qed.

Lemma onUserIdle_events now socket entryId fails s :
  events_within other_events (onUserIdle now socket entryId fails s).2.
Proof.
  unfold onUserIdle, uncaught, userIdleEntry, userStatusEntry.
  destruct (negb (truthy_id entryId)); [events_tac|].
  destruct (fails QSetStatus); events_tac.
Qed.

(** The disconnect handler emits presence notices and cursor clears,
    nothing else. *)
Lemma onDisconnect_emits now socket fails s :
  events_within
    [Some "friend_online"; Some "friend_offline"; Some "entry_cursor_clear"]
    (onDisconnect now socket fails s).2.
Proof.
  unfold onDisconnect.
  match goal with |- context [Presence.setUserOffline ?a ?b ?c ?d] =>
    pose proof (setUserOffline_events a b c d) as H1;
    destruct (Presence.setUserOffline a b c d) as [[s1 ms1] o1] end.
  simpl in H1.
  assert (Hms1 : events_within
            [Some "friend_online"; Some "friend_offline";
             Some "entry_cursor_clear"] ms1).
  { eapply events_within_weaken; [exact H1|].
    intros x Hx. simpl in *. tauto. }
  destruct o1 as [|e1]; [|done].
  pose proof (clear_cursors_events socket (socket_userId socket)
                (cursorStore s1)) as H2.
  destruct (clear_cursors _ _ _) as [cs ms2]. simpl in H2.
  assert (Hms2 : events_within
            [Some "friend_online"; Some "friend_offline";
             Some "entry_cursor_clear"] ms2).
  { eapply events_within_weaken; [exact H2|].
    intros x Hx. simpl in *. tauto. }
  destruct (fails QDeleteSessions); by apply events_within_app.
Qed.

Lemma onDisconnect_events now socket fails s :
  events_within other_events (onDisconnect now socket fails s).2.
Proof.
  eapply events_within_weaken; [apply onDisconnect_emits|].
  intros x Hx. unfold other_events. simpl in *. intuition (subst; auto 20).
Qed.

(** No "entry_collab_leave" comes out of a disconnect, whatever the
    state and whatever the store does. *)
Lemma onDisconnect_no_leave now socket fails s :
  List.filter (has_event "entry_collab_leave")
              (onDisconnect now socket fails s).2 = [].
Proof.
  pose proof (events_within_filter "entry_collab_leave" (λ _, true) _ _
                (onDisconnect_emits now socket fails s)) as H.
  erewrite List.filter_ext; [apply H|].
  - simpl. intuition congruence.
  - intros m. simpl. by rewrite andb_true_r.
Qed.

Lemma onCursorMove_events now socket entryId pos s :
  events_within [Some "entry_cursor_move"]
    (onCursorMove now socket entryId pos s).2.
Proof.
  unfold onCursorMove, handleCursorMove.
  destruct (_ || _); [events_tac|].
  destruct (_ <? _); events_tac.
Qed.

(** The sweep of stale sockets emits presence notices, nothing else. *)
Lemma onStaleSocket_emits now socket fails s :
  events_within [Some "friend_online"; Some "friend_offline"]
    (onStaleSocket now socket fails s).2.
Proof.
  unfold onStaleSocket, uncaught.
  pose proof (setUserOffline_events now (socket_userId socket) fails s) as H.
  by destruct (Presence.setUserOffline _ _ _ _) as [[s1 ms1] [|e]].
Qed.

Lemma onStaleSocket_events now socket fails s :
  events_within other_events (onStaleSocket now socket fails s).2.
Proof.
  eapply events_within_weaken; [apply onStaleSocket_emits|].
  intros x Hx. unfold other_events. simpl in *. intuition (subst; auto 20).
Qed.

(** [dispatch] never relays an edit: only a timer does. *)
Lemma dispatch_no_relay now ev s f :
  List.filter (λ m, has_event "entry_edit" m && f m) (dispatch now ev s).2
  = [].
Proof.
  assert (Hno : ¬ In (Some "entry_edit") other_events).
  { unfold other_events. simpl. intuition congruence. }
  destruct ev; simpl.
  - eapply events_within_filter; [apply onConnection_events|exact Hno].
  - eapply events_within_filter; [apply onJoinEntryRoom_events|exact Hno].
  - eapply events_within_filter; [apply onLeaveEntryRoom_events|exact Hno].
  - eapply events_within_filter; [apply onEntryEdit_events|exact Hno].
  - eapply events_within_filter; [apply onCursorMove_events|].
    simpl. intuition congruence.
  - eapply events_within_filter; [apply onUserEditing_events|exact Hno].
  - eapply events_within_filter; [apply onUserIdle_events|exact Hno].
  - eapply events_within_filter; [apply onDisconnect_events|exact Hno].
  - reflexivity.
  - reflexivity.
  - reflexivity.
  - eapply events_within_filter; [apply onStaleSocket_events|exact Hno].
  - reflexivity.
Qed.

Lemma presence_only_refl s : presence_only s s.
Proof. by repeat split. Qed.

Lemma setUserOnline_frame now userId sid fails s :
  presence_only s (Presence.setUserOnline now userId sid fails s).1.1.
Proof.
  unfold Presence.setUserOnline.
  destruct (fails QUpsertConnection); [apply presence_only_refl|].
  destruct (fails QWhoLists); [by repeat split|].
  destruct (Presence.notify _ _ _ _ _) as [[fc ms] o]. by repeat split.
Qed.

Lemma setUserOffline_frame now userId fails s :
  presence_only s (Presence.setUserOffline now userId fails s).1.1.
Proof.
  unfold Presence.setUserOffline.
  destruct (fails QMarkOffline); [apply presence_only_refl|].
  destruct (fails QWhoLists); [by repeat split|].
  destruct (Presence.notify _ _ _ _ _) as [[fc ms] o]. by repeat split.
Qed.

Lemma sendFriendsList_frame now socket userId fails s :
  presence_only s (Friends.sendFriendsList now socket userId fails s).1.1.
Proof.
  unfold Friends.sendFriendsList.
  destruct (friendsCache s !! userId); [apply presence_only_refl|].
  destruct (fails QFriendsWithStatus); by repeat split.
Qed.

(** The connection handler changes the registry, the rooms, the friends
    cache and [ws_connections], nothing else. *)
Lemma onConnection_frame now socket fails s :
  let s' := (onConnection now socket fails s).1 in
  userEventCounts s' = userEventCounts s
  ∧ cursorStore s' = cursorStore s
  ∧ lastEditMap s' = lastEditMap s
  ∧ debounceMap s' = debounceMap s
  ∧ timerSeq s' = timerSeq s
  ∧ cursorThrottleMap s' = cursorThrottleMap s
  ∧ active_sessions (db s') = active_sessions (db s)
  ∧ exited s' = exited s.
Proof.
  unfold onConnection.
  destruct (negb (truthy_id (socket_userId socket))); [done|].
  match goal with |- context [Presence.setUserOnline ?a ?b ?c ?d ?e] =>
    pose proof (setUserOnline_frame a b c d e) as Hon;
    destruct (Presence.setUserOnline a b c d e) as [[s1 ms1] o1] end.
  destruct Hon as (?&?&?&?&?&?&?&?&?&?&?). simpl in *.
  destruct o1 as [|e1]; [|done].
  match goal with |- context [Friends.sendFriendsList ?a ?b ?c ?d ?e] =>
    pose proof (sendFriendsList_frame a b c d e) as Hfl;
    destruct (Friends.sendFriendsList a b c d e) as [[s2 ms2] o2] end.
  destruct Hfl as (?&?&?&?&?&?&?&?&?&?&?). simpl in *.
  destruct o2 as [|e2]; [|simpl; repeat split; congruence].
  destruct (fails QFriendsOf); [simpl; repeat split; congruence|].
  destruct (fails QSessionsOf); simpl; repeat split; congruence.
Qed.

(** The disconnect handler changes the registry, the rooms, the cursor
    store, the friends cache and the tables of the store, nothing else. *)
Lemma onDisconnect_frame now socket fails s :
  let s' := (onDisconnect now socket fails s).1 in
  userEventCounts s' = userEventCounts s
  ∧ lastEditMap s' = lastEditMap s
  ∧ debounceMap s' = debounceMap s
  ∧ timerSeq s' = timerSeq s
  ∧ cursorThrottleMap s' = cursorThrottleMap s
  ∧ friends (db s') = friends (db s)
  ∧ exited s' = exited s.
Proof.
  unfold onDisconnect.
  match goal with |- context [Presence.setUserOffline ?a ?b ?c ?d] =>
    pose proof (setUserOffline_frame a b c d) as Hoff;
    destruct (Presence.setUserOffline a b c d) as [[s1 ms1] o1] end.
  destruct Hoff as (?&?&?&?&?&?&?&?&?&?&?). simpl in *.
  destruct o1; [|done].
  destruct (clear_cursors _ _ _) as [cs ms2].
  by destruct (fails QDeleteSessions).
Qed.

(** The sweep of stale sockets, when it does not end the process, changes
    the friends cache and [ws_connections], nothing else. *)
Lemma onStaleSocket_frame now socket fails s :
  exited (onStaleSocket now socket fails s).1 = false →
  presence_only s (onStaleSocket now socket fails s).1.
Proof.
  unfold onStaleSocket, uncaught.
  pose proof (setUserOffline_frame now (socket_userId socket) fails s) as H.
  by destruct (Presence.setUserOffline _ _ _ _) as [[s1 ms1] [|e]].
Qed.

(** The timers leave the flag of the process alone; a process that has
    ended stays so and handles nothing. *)
Lemma fire_all_exited l : ∀ s, exited (fire_all l s).1 = exited s.
Proof.
  induction l as [|[sid tm] l IH]; intros s; simpl; [done|].
  specialize (IH (fire (due tm) sid tm s).1).
  destruct (fire_all l _) as [s2 ms2]. simpl in *. by rewrite IH.
Qed.

Lemma step_exited now ev s : exited s = true → step now ev s = (s, []).
Proof. intros H. unfold step. by rewrite H. Qed.

Lemma run_exited tr : ∀ s, exited s = true → run tr s = (s, []).
Proof.
  induction tr as [|[now ev] tr IH]; intros s H; [done|].
  cbn [run]. rewrite step_exited by done. by rewrite IH.
Qed.

(** A step after which the process runs: it ran before, the timers due
    ran, and the handler of the event ran to its end. *)
Lemma step_alive now ev s :
  exited (step now ev s).1 = false →
  exited s = false
  ∧ step now ev s
    = ((dispatch now ev (advance now s).1).1,
       ((advance now s).2 ++ (dispatch now ev (advance now s).1).2)%list)
  ∧ exited (advance now s).1 = false
  ∧ exited (dispatch now ev (advance now s).1).1 = false.
Proof.
  unfold step. destruct (exited s) eqn:Hs; [simpl; congruence|]. intros H.
  pose proof (fire_all_exited (due_timers now (debounceMap s)) s) as Ha.
  fold (advance now s) in Ha.
  destruct (advance now s) as [s1 ms1]. cbn [fst snd] in *.
  destruct (dispatch now ev s1) as [s2 ms2]. cbn [fst snd] in *.
  repeat split; [congruence|done].
Qed.


Lemma run_cons_snd now ev tr s :
  (run ((now, ev) :: tr) s).2
  = ((step now ev s).2 ++ (run tr (step now ev s).1).2)%list.
Proof.
  cbn [run]. destruct (step now ev s) as [s1 ms1]. cbn [fst snd].
  by destruct (run tr s1) as [s2 ms2].
Qed.

Lemma run_cons_fst now ev tr s :
  (run ((now, ev) :: tr) s).1 = (run tr (step now ev s).1).1.
Proof.
  cbn [run]. destruct (step now ev s) as [s1 ms1]. cbn [fst snd].
  by destruct (run tr s1) as [s2 ms2].
Qed.

Lemma run_alive tr : ∀ s,
  exited (run tr s).1 = false → exited s = false.
Proof.
  intros s H. destruct (exited s) eqn:Hs; [|done].
  rewrite run_exited in H by done. simpl in H. congruence.
Qed.

Lemma run_cons_alive now ev tr s :
  exited (run ((now, ev) :: tr) s).1 = false →
  exited (step now ev s).1 = false
  ∧ exited (run tr (step now ev s).1).1 = false.
Proof.
  cbn [run]. destruct (step now ev s) as [s1 ms1] eqn:Hstep.
  destruct (run tr s1) as [s2 ms2] eqn:Hrun. cbn [fst]. intros H.
  split; [|by rewrite Hrun]. apply (run_alive tr). by rewrite Hrun.
Qed.

(** Only the cursor handler writes the throttle map, and only at the
    key of its socket. *)
Lemma dispatch_cursorThrottleMap now ev s sid :
  match ev with
  | EntryCursorMove so _ _ => socket_id so ≠ sid
  | _ => True
  end →
  exited (dispatch now ev s).1 = false →
  cursorThrottleMap (dispatch now ev s).1 !! sid = cursorThrottleMap s !! sid.
Proof.
  destruct ev; simpl; intros Hev Hex.
  - by destruct (onConnection_frame now socket fails s) as (?&?&?&?&?&->&?).
  - unfold onJoinEntryRoom, joinEntryRoom.
    repeat (case_match; simplify_eq/=; try done).
  - unfold onLeaveEntryRoom, leaveEntryRoom.
    repeat (case_match; simplify_eq/=; try done).
  - unfold onEntryEdit.
    repeat (case_match; simplify_eq/=; try done).
  - unfold onCursorMove, handleCursorMove.
    repeat (case_match; simplify_eq/=; try done).
    by rewrite lookup_insert_ne.
  - unfold onUserEditing, uncaught, userEditingEntry, userStatusEntry in *.
    repeat (case_match; simplify_eq/=; try done).
  - unfold onUserIdle, uncaught, userIdleEntry, userStatusEntry in *.
    repeat (case_match; simplify_eq/=; try done).
  - by destruct (onDisconnect_frame now socket fails s) as (?&?&?&?&->&?).
  - done.
  - done.
  - done.
  - by destruct (onStaleSocket_frame now socket fails s Hex)
      as (?&?&?&?&?&?&->&?).
  - done.
Qed.

Lemma fire_all_userEventCounts l : ∀ s,
  userEventCounts (fire_all l s).1 = userEventCounts s.
Proof.
  induction l as [|[sid tm] l IH]; intros s; simpl; [done|].
  specialize (IH (fire (due tm) sid tm s).1).
  destruct (fire_all l _) as [s2 ms2]. simpl in *. by rewrite IH.
Qed.

Lemma fire_all_cursorThrottleMap l : ∀ s,
  cursorThrottleMap (fire_all l s).1 = cursorThrottleMap s.
Proof.
  induction l as [|[sid tm] l IH]; intros s; simpl; [done|].
  specialize (IH (fire (due tm) sid tm s).1).
  destruct (fire_all l _) as [s2 ms2]. simpl in *. by rewrite IH.
Qed.

End Frames.

(** ** Cursor throttle *)

Section CursorStoreFacts.

Context {V : Type}.

Lemma oget_oset_eq (k : string) (v : V) (m : list (string * V)) :
  oget k (oset k v m) = Some v.
Proof.
  induction m as [|[k' v'] m IH]; simpl.
  - by rewrite String.eqb_refl.
  - destruct (String.eqb_spec k k'); simpl.
    + by rewrite String.eqb_refl.
    + by destruct (String.eqb_spec k k').
Qed.

Lemma oget_oset_ne (k k' : string) (v : V) (m : list (string * V)) :
  k ≠ k' → oget k' (oset k v m) = oget k' m.
Proof.
  intros Hne. induction m as [|[k0 v0] m IH]; simpl.
  - by destruct (String.eqb_spec k' k).
  - destruct (String.eqb_spec k k0) as [->|]; simpl.
    + by destruct (String.eqb_spec k' k0).
    + by rewrite IH.
Qed.

End CursorStoreFacts.

Section CursorCells.

Lemma fire_all_store l : ∀ s,
  cursorStore (fire_all l s).1 = cursorStore s ∧ db (fire_all l s).1 = db s.
Proof.
  induction l as [|[sid tm] l IH]; intros s; simpl; [done|].
  specialize (IH (fire (due tm) sid tm s).1).
  destruct (fire_all l _) as [s2 ms2]. simpl in *. done.
Qed.

(** The cursor of [(u, e)] after [handleCursorMove] for [(userId, entryId)]. *)
Lemma handleCursorMove_cursor now socket userId entryId pos
    (cs : list (string * gmap string Cursor)) (u e : string) :
  oget e (handleCursorMove now socket userId entryId pos cs).1
    ≫= (λ cursors, cursors !! u)
  = if decide (e = entryId ∧ u = userId)
    then Some (mkCursor userId pos now)
    else oget e cs ≫= (λ cursors, cursors !! u).
Proof.
  unfold handleCursorMove. cbn [fst].
  destruct (decide (e = entryId)) as [->|Hne].
  - rewrite oget_oset_eq. simpl.
    destruct (decide (u = userId)) as [->|Hu].
    + rewrite lookup_insert_eq. by rewrite decide_True.
    + rewrite lookup_insert_ne by done. rewrite decide_False by tauto.
      unfold ohas. destruct (oget entryId cs) as [c|] eqn:Hc; simpl.
      * by rewrite Hc.
      * by rewrite oget_oset_eq.
  - rewrite decide_False by tauto.
    rewrite oget_oset_ne by done.
    unfold ohas. destruct (oget entryId cs); [done|].
    by rewrite oget_oset_ne.
Qed.

(** The cursor of [(u, e)] after [drop_cursor] for [(userId, entryId)]. *)
Lemma drop_cursor_cursor userId entryId
    (cs : list (string * gmap string Cursor)) (u e : string) :
  oget e (drop_cursor userId entryId cs) ≫= (λ cursors, cursors !! u)
  = if decide (e = entryId ∧ u = userId) then None
    else oget e cs ≫= (λ cursors, cursors !! u).
Proof.
  unfold drop_cursor.
  destruct (oget entryId cs) as [c|] eqn:Hc.
  - destruct (decide (e = entryId)) as [->|Hne].
    + rewrite oget_oset_eq, Hc. simpl.
      destruct (decide (u = userId)) as [->|Hu].
      * rewrite decide_True by done. apply lookup_delete_eq.
      * rewrite decide_False by tauto. by apply lookup_delete_ne.
    + rewrite decide_False by tauto. by rewrite oget_oset_ne.
  - case_decide as Heq; [|done]. destruct Heq as [-> ->]. by rewrite Hc.
Qed.

(** The cursor of [(u, e)] after the loop of the disconnect handler. *)
Lemma clear_cursors_cursor socket userId
    (cs : list (string * gmap string Cursor)) (u e : string) :
  oget e (clear_cursors socket userId cs).1 ≫= (λ cursors, cursors !! u)
  = if decide (u = userId) then None
    else oget e cs ≫= (λ cursors, cursors !! u).
Proof.
  induction cs as [|[e' c] cs IH]; simpl.
  - by case_decide.
  - destruct (clear_cursors socket userId cs) as [cs' ms]. simpl in IH.
    destruct (c !! userId) as [x|] eqn:Hx; simpl;
      destruct (String.eqb_spec e e') as [->|]; simpl; try done.
    + case_decide as Hu; [subst; apply lookup_delete_eq|].
      by apply lookup_delete_ne.
    + case_decide as Hu; [by subst|done].
Qed.

(** A valid cursor move that passes the throttle: the cursor it stores,
    the throttle entry it writes, the message it sends; the store is
    not consulted. *)
Lemma onCursorMove_stores now so e pos s :
  truthy_id e = true → truthy pos = true →
  throttleMs ≤ now - default 0 (cursorThrottleMap s !! socket_id so) →
  (∀ u e', cursor (onCursorMove now so e pos s).1 u e'
           = if decide (e' = e ∧ u = socket_userId so)
             then Some (mkCursor (socket_userId so) pos now)
             else cursor s u e')
  ∧ cursorThrottleMap (onCursorMove now so e pos s).1
    = <[socket_id so := now]> (cursorThrottleMap s)
  ∧ db (onCursorMove now so e pos s).1 = db s
  ∧ (onCursorMove now so e pos s).2
    = [ mkMessage (ToRoomExcept (room_of e) (socket_id so))
                  (Some "entry_cursor_move")
                  (PCursor (socket_userId so) pos now) ].
Proof.
  intros He Hp Ht. unfold onCursorMove. rewrite He, Hp. cbn [negb orb].
  destruct (Z.ltb_spec (now - default 0 (cursorThrottleMap s !! socket_id so))
                       throttleMs) as [Hlt|_]; [lia|].
  cbn [cursorStore with_cursorThrottleMap].
  pose proof (handleCursorMove_cursor now so (socket_userId so) e pos
                (cursorStore s)) as Hcur.
  destruct (handleCursorMove _ _ _ _ _ _) as [cs ms] eqn:Hh.
  cbn [fst snd] in *. repeat split.
  - intros u e'. unfold cursor. cbn. apply Hcur.
  - unfold handleCursorMove in Hh. by injection Hh as _ <-.
Qed.

End CursorCells.

Section CursorFacts.

(** A cursor move of the socket [sid], seen from that socket. *)
Lemma onCursorMove_accepts now so e pos s :
  let sid := socket_id so in
  let r := onCursorMove now so e pos s in
  List.filter (cursor_from sid) r.2
  = match accepts sid (now, so, e, pos) (cursorThrottleMap s !! sid) with
    | Some m => [m]
    | None => []
    end
  ∧ cursorThrottleMap r.1 !! sid
    = match accepts sid (now, so, e, pos) (cursorThrottleMap s !! sid) with
      | Some _ => Some now
      | None => cursorThrottleMap s !! sid
      end.
Proof.
  unfold onCursorMove, accepts, handleCursorMove. simpl.
  destruct (_ || _); [done|].
  destruct (_ <? _); [done|]. simpl.
  rewrite lookup_insert_eq. split; [|done].
  unfold cursor_from, sent_by. simpl. by rewrite String.eqb_refl.
Qed.

Lemma advance_no_cursor now s sid :
  List.filter (cursor_from sid) (advance now s).2 = []
  ∧ cursorThrottleMap (advance now s).1 = cursorThrottleMap s.
Proof.
  split; [|apply fire_all_cursorThrottleMap].
  unfold cursor_from. eapply events_within_filter; [apply advance_events|].
  simpl. intuition congruence.
Qed.

Lemma dispatch_no_cursor now ev s sid :
  match ev with
  | EntryCursorMove so _ _ => socket_id so ≠ sid
  | _ => True
  end →
  List.filter (cursor_from sid) (dispatch now ev s).2 = [].
Proof.
  assert (Hno : ¬ In (Some "entry_cursor_move") other_events).
  { unfold other_events. simpl. intuition congruence. }
  unfold cursor_from. destruct ev; simpl; intros Hev.
  - eapply events_within_filter; [apply onConnection_events|exact Hno].
  - eapply events_within_filter; [apply onJoinEntryRoom_events|exact Hno].
  - eapply events_within_filter; [apply onLeaveEntryRoom_events|exact Hno].
  - eapply events_within_filter; [apply onEntryEdit_events|exact Hno].
  - unfold onCursorMove, handleCursorMove.
    destruct (_ || _); [done|]. destruct (_ <? _); [done|]. simpl.
    unfold sent_by. simpl.
    by destruct (String.eqb_spec (socket_id socket) sid).
  - eapply events_within_filter; [apply onUserEditing_events|exact Hno].
  - eapply events_within_filter; [apply onUserIdle_events|exact Hno].
  - eapply events_within_filter; [apply onDisconnect_events|exact Hno].
  - reflexivity.
  - reflexivity.
  - reflexivity.
  - eapply events_within_filter; [apply onStaleSocket_events|exact Hno].
  - reflexivity.
Qed.

(** In any trace the process survives, the broadcasts of one socket's
    cursor are those of its own cursor moves against its own throttle
    entry. *)
Lemma run_throttled sid tr : ∀ s,
  exited (run tr s).1 = false →
  List.filter (cursor_from sid) (run tr s).2
  = throttled sid (cursor_moves sid tr) (cursorThrottleMap s !! sid).
Proof.
  induction tr as [|[now ev] tr IH]; intros s Hex; [done|].
  apply run_cons_alive in Hex as [Hex1 Hex2].
  destruct (step_alive now ev s Hex1) as (Hs & Hstep & Ha & Hd).
  rewrite run_cons_snd, List.filter_app, (IH _ Hex2), Hstep.
  cbn [fst snd].
  destruct (advance_no_cursor now s sid) as [Ha1 Ha2].
  rewrite List.filter_app, Ha1. cbn [app].
  unfold cursor_moves. cbn [omap list_omap].
  assert (Hother :
    match ev with
    | EntryCursorMove so _ _ => socket_id so ≠ sid
    | _ => True
    end →
    List.filter (cursor_from sid) (dispatch now ev (advance now s).1).2 = []
    ∧ cursorThrottleMap (dispatch now ev (advance now s).1).1 !! sid
      = cursorThrottleMap s !! sid).
  { intros Hev. split; [by apply dispatch_no_cursor|].
    rewrite dispatch_cursorThrottleMap by done. by rewrite Ha2. }
  destruct ev as [| | | |so e pos| | | | | | | |];
    try (destruct (Hother I) as [-> ->]; done).
  destruct (String.eqb_spec (socket_id so) sid) as [Heq|Hne].
  - subst sid.
    destruct (onCursorMove_accepts now so e pos (advance now s).1) as [H1 H2].
    cbn [dispatch] in *. rewrite H1, H2, Ha2. cbn [omap list_omap throttled].
    match goal with |- context [accepts ?a ?b ?c] =>
      destruct (accepts a b c) end; cbn [app fst]; done.
  - by destruct (Hother Hne) as [-> ->].
Qed.

Lemma throttled_window sid t1 moves :
  Forall (λ mv, mv.1.1.1 - t1 < throttleMs) moves →
  throttled sid moves (Some t1) = [].
Proof.
  induction 1 as [|[[[t so] e] pos] moves Ht _ IH]; [done|].
  cbn [throttled]. unfold accepts. simpl in Ht |- *.
  destruct (_ || _); [done|].
  destruct (Z.ltb_spec (t - t1) throttleMs); [done|lia].
Qed.

End CursorFacts.

(** C1, as amended. Take any trace the process survives and any
    connection whose first cursor move in the trace is valid and arrives at
    least 100 ms after the connection's last accepted one, and whose later
    cursor moves all arrive less than 100 ms after that first one. Then the
    connection broadcasts exactly one cursor position, the one of the FIRST
    move, stamped with its arrival time. Handling that first move stores
    this position in the cursor store under the entry and the user, and
    records the arrival time as the connection's last accepted update. Each
    later move of the window returns without a message and without changing
    the state, the cursor store included. *)
Theorem cursor_throttle_keeps_first (sid : string) (s : State)
    (tr : list (Z * Event)) (t1 : Z) (so : Socket) (e1 : string) (p1 : jsval)
    (rest : list (Z * Socket * string * jsval)) :
  exited (run tr s).1 = false →
  cursor_moves sid tr = (t1, so, e1, p1) :: rest →
  truthy_id e1 = true →
  truthy p1 = true →
  throttleMs ≤ t1 - default 0 (cursorThrottleMap s !! sid) →
  Forall (λ mv, mv.1.1.1 - t1 < throttleMs) rest →
  List.filter (cursor_from sid) (run tr s).2
  = [ mkMessage (ToRoomExcept (room_of e1) sid) (Some "entry_cursor_move")
                (PCursor (socket_userId so) p1 t1) ]
  ∧ (∀ s1,
      cursorThrottleMap s1 !! sid = cursorThrottleMap s !! sid →
      cursor (onCursorMove t1 so e1 p1 s1).1 (socket_userId so) e1
      = Some (mkCursor (socket_userId so) p1 t1)
      ∧ cursorThrottleMap (onCursorMove t1 so e1 p1 s1).1 !! sid = Some t1
      ∧ (onCursorMove t1 so e1 p1 s1).2
        = [ mkMessage (ToRoomExcept (room_of e1) sid)
                      (Some "entry_cursor_move")
                      (PCursor (socket_userId so) p1 t1) ])
  ∧ ∀ s' t so' e p,
      socket_id so' = sid →
      cursorThrottleMap s' !! sid = Some t1 →
      t - t1 < throttleMs →
      onCursorMove t so' e p s' = (s', []).
Proof.
  intros Hex Hmoves He1 Hp1 Hfirst Hrest.
  assert (Hsid : socket_id so = sid).
  { clear -Hmoves. induction tr as [|[t ev] tr IH]; [done|].
    unfold cursor_moves in *. cbn [omap list_omap] in Hmoves.
    destruct ev; try (by apply IH).
    destruct (String.eqb_spec (socket_id socket) sid) as [Heq|_];
      [|by apply IH].
    by injection Hmoves as _ <- _ _ _. }
  split; [|split].
  - rewrite run_throttled, Hmoves by done. cbn [throttled]. unfold accepts.
    rewrite He1, Hp1. cbn [negb orb].
    destruct (Z.ltb_spec (t1 - default 0 (cursorThrottleMap s !! sid))
                         throttleMs) as [Hlt|_]; [lia|].
    cbn [fst]. by rewrite throttled_window.
  - intros s1 Hs1. subst sid.
    destruct (onCursorMove_stores t1 so e1 p1 s1 He1 Hp1) as (Hc & Hm & _ & Hms).
    { by rewrite Hs1. }
    rewrite Hc, Hm, Hms, decide_True, lookup_insert_eq by done. done.
  - intros s' t so' e p <- Hlast Ht. unfold onCursorMove.
    destruct (_ || _); [done|]. rewrite Hlast. simpl.
    by destruct (Z.ltb_spec (t - t1) throttleMs); [|lia].
Qed.

(** The three samples of [cursor_burst]: the first one is broadcast, and
    it is the one the store holds at the end. *)
Lemma cursor_throttle_keeps_first_witness :
  List.filter (cursor_from "sB")
    (run Scenario.cursor_burst (initial Scenario.empty_tables)).2
  = [ mkMessage (ToRoomExcept "entry_E1" "sB") (Some "entry_cursor_move")
                (PCursor "B" (JPoint 1 1) 1000) ]
  ∧ cursor (run Scenario.cursor_burst (initial Scenario.empty_tables)).1
           "B" "E1"
    = Some (mkCursor "B" (JPoint 1 1) 1000).
Proof.
  split; [|vm_compute; reflexivity].
  refine (proj1 (cursor_throttle_keeps_first "sB"
           (initial Scenario.empty_tables)
           Scenario.cursor_burst 1000 Scenario.sockB "E1" (JPoint 1 1)
           [ (1040, Scenario.sockB, "E1", JPoint 5 5);
             (1080, Scenario.sockB, "E1", JPoint 10 5) ] _ _ _ _ _ _)).
  - vm_compute. reflexivity.
  - reflexivity.
  - reflexivity.
  - reflexivity.
  - vm_compute. discriminate.
  - repeat constructor; vm_compute; reflexivity.
Defined.

(** C1 as stated fails: of three cursor samples sent by one connection for
    one entry within 100 ms, the position broadcast is the first one, not
    the last one. *)
Lemma cursor_throttle_drops_last :
  positions (run Scenario.cursor_burst (initial Scenario.empty_tables)).2
  = [JPoint 1 1]
  ∧ positions (run Scenario.cursor_burst (initial Scenario.empty_tables)).2
    ≠ [JPoint 10 5].
Proof. split; [vm_compute; reflexivity | vm_compute; discriminate]. Qed.

(** ** Disconnect *)

(** C3, the code at the scenario of the specification. A and B have joined
    "E1" and B has a cursor there. When B disconnects, B's session row and
    cursor are removed and A receives "entry_cursor_clear", but no
    "entry_collab_leave" is emitted at all. Had B left the room instead, A
    would have received "entry_collab_leave", and no cursor clear. *)
Theorem disconnect_sends_no_leave :
  let s := Scenario.in_shared_entry in
  let gone := step 600 (Disconnect Scenario.sockB all_ok) s in
  let left := step 600 (LeaveEntryRoom Scenario.sockB "E1" all_ok) s in
  is_Some (membership s "B" "E1") ∧ is_Some (cursor s "B" "E1")
  ∧ membership gone.1 "B" "E1" = None
  ∧ cursor gone.1 "B" "E1" = None
  ∧ List.filter (λ m, receives (rooms s) m "sA") gone.2
    = [ mkMessage (ToRoomExcept "entry_E1" "sB") (Some "entry_cursor_clear")
                  (PCursorClear "B" "E1") ]
  ∧ List.filter (has_event "entry_collab_leave") gone.2 = []
  ∧ List.filter (λ m, receives (rooms s) m "sA") left.2
    = [ mkMessage (ToRoomExcept "entry_E1" "sB") (Some "entry_collab_leave")
                  (PPresence "E1" "B" 600) ].
Proof.
  repeat split; try (vm_compute; reflexivity); vm_compute; eauto.
Qed.

(** C4 as stated fails: with the store rejecting the statement that marks
    B offline, B's disconnect leaves B's cursor in the cursor store, sends
    no cursor-cleared broadcast and leaves B's session row in place. *)
Lemma disconnect_cleanup_blocked :
  let gone := step 600 (Disconnect Scenario.sockB Scenario.offline_fails)
                   Scenario.in_shared_entry in
  is_Some (cursor gone.1 "B" "E1")
  ∧ is_Some (membership gone.1 "B" "E1")
  ∧ gone.2 = [].
Proof. repeat split; vm_compute; eauto. Qed.

(** C4, as amended. When the store rejects the statement that marks the
    user offline, the disconnect handler still ends normally (the error is
    caught and logged) and the user is out of the connection registry, but
    the rest of the cleanup is skipped: nothing is emitted, the cursor
    store, the session rows, the rest of the store and the friends cache
    are as before. *)
Theorem disconnect_offline_failure (now : Z) (socket : Socket)
    (fails : query → bool) (s : State) :
  fails QMarkOffline = true →
  let r := onDisconnect now socket fails s in
  r.2 = []
  ∧ connectedUsers r.1 = delete (socket_userId socket) (connectedUsers s)
  ∧ cursorStore r.1 = cursorStore s
  ∧ db r.1 = db s
  ∧ friendsCache r.1 = friendsCache s.
Proof.
  intros Hfail. unfold onDisconnect, Presence.setUserOffline.
  rewrite Hfail. simpl. done.
Qed.

Lemma disconnect_offline_failure_witness :
  (onDisconnect 600 Scenario.sockB Scenario.offline_fails
                Scenario.in_shared_entry).2 = []
  ∧ cursorStore (onDisconnect 600 Scenario.sockB Scenario.offline_fails
                              Scenario.in_shared_entry).1
    = cursorStore Scenario.in_shared_entry.
Proof.
  destruct (disconnect_offline_failure 600 Scenario.sockB
              Scenario.offline_fails Scenario.in_shared_entry)
    as (H1 & _ & H2 & _).
  - reflexivity.
  - split; [exact H1 | exact H2].
Defined.

(** ** Friends cache *)

Section FriendsCacheFacts.

Lemma result_has_no_online rows :
  Friends.result rows !! "online" = None
  ∧ Friends.result rows !! "offline" = None.
Proof.
  unfold Friends.result. split.
  - rewrite !lookup_insert_ne by done. apply lookup_empty.
  - rewrite !lookup_insert_ne by done. apply lookup_empty.
Qed.

(** On an object built by [sendFriendsList], the only writer of the
    cache, [updateStatus] throws and changes nothing, whoever comes
    online or goes offline. *)
Lemma updateStatus_on_result userId friendId isOnline rows
    (fc : gmap string (gmap string (list string))) :
  fc !! userId = Some (Friends.result rows) →
  FriendsCache.updateStatus userId friendId isOnline fc
  = (fc, Thrown TypeError).
Proof.
  intros Hc. unfold FriendsCache.updateStatus, FriendsCache.move.
  rewrite Hc. destruct (result_has_no_online rows) as [Hon Hoff].
  destruct isOnline; rewrite ?Hon, ?Hoff; by rewrite insert_id.
Qed.

(** On an object of the shape the cache module documents,
    [{ online: [], offline: [] }], a friend coming online moves from the
    offline array to the online array. *)
Lemma updateStatus_documented_shape userId friendId on off
    (fc : gmap string (gmap string (list string))) :
  fc !! userId = Some (<["offline" := off]> (<["online" := on]> ∅)) →
  FriendsCache.includes friendId on = false →
  FriendsCache.updateStatus userId friendId true fc
  = (<[userId := <["online" := (on ++ [friendId])%list]>
                   (<["offline" := FriendsCache.without friendId off]>
                      (<["offline" := off]> (<["online" := on]> ∅)))]> fc,
     Returned).
Proof.
  intros Hc Hnew. unfold FriendsCache.updateStatus, FriendsCache.move.
  rewrite Hc, lookup_insert_eq. cbn zeta.
  rewrite lookup_insert_ne by done. rewrite lookup_insert_ne by done.
  rewrite lookup_insert_eq, Hnew. done.
Qed.

End FriendsCacheFacts.

(** C5, the code at a transition. "A" lists "B" as a friend. A connects:
    its friends list is computed and cached as
    [{ onlineFriends: [], offlineFriends: ["B"] }]. B then connects: the
    update of A's cached entry reads the properties [offline] and
    [online], which the cached object lacks, and throws; A's entry still
    lists B as offline, no "friend_online" is emitted, and B is told that
    its connection failed. *)
Theorem friend_cache_not_updated :
  let s1 := (step 100 (Connection Scenario.sockA all_ok)
                  (initial Scenario.friend_tables)).1 in
  let r := step 200 (Connection Scenario.sockB all_ok) s1 in
  (friendsCache s1 !! "A" ≫= λ c, c !! "offlineFriends") = Some ["B"]
  ∧ (friendsCache s1 !! "A" ≫= λ c, c !! "onlineFriends") = Some []
  ∧ FriendsCache.updateStatus "A" "B" true (friendsCache s1)
    = (friendsCache s1, Thrown TypeError)
  ∧ (friendsCache r.1 !! "A" ≫= λ c, c !! "offlineFriends") = Some ["B"]
  ∧ (friendsCache r.1 !! "A" ≫= λ c, c !! "onlineFriends") = Some []
  ∧ r.2 = [ mkMessage (ToSocket "sB") (Some "error")
                      (PError "SERVER_ERROR" "Connection failed") ].
Proof. repeat split; vm_compute; reflexivity. Qed.

Section CacheShapeFacts.

Lemma notify_on_results isOnline now userId rows :
  ∀ fc, cache_as_written fc →
        (Presence.notify isOnline now userId rows fc).1.1 = fc.
Proof.
  induction rows as [|r rows IH]; intros fc Hshape; [done|].
  cbn [Presence.notify].
  destruct (fc !! r) as [c|] eqn:Hc.
  - destruct (Hshape r c Hc) as [rs ->].
    by rewrite (updateStatus_on_result r userId isOnline rs fc Hc).
  - unfold FriendsCache.updateStatus. rewrite Hc.
    specialize (IH fc Hshape).
    by destruct (Presence.notify isOnline now userId rows fc) as [[fc2 ms] o].
Qed.

Lemma setUserOnline_cache now userId sid fails s :
  cache_as_written (friendsCache s) →
  friendsCache (Presence.setUserOnline now userId sid fails s).1.1
  = friendsCache s.
Proof.
  intros Hshape. unfold Presence.setUserOnline.
  destruct (fails QUpsertConnection); [done|].
  destruct (fails QWhoLists); [done|].
  match goal with |- context [Presence.notify ?a ?b ?c ?d ?e] =>
    pose proof (notify_on_results a b c d e Hshape) as H;
    destruct (Presence.notify a b c d e) as [[fc ms] o] end.
  exact H.
Qed.

Lemma setUserOffline_cache now userId fails s :
  cache_as_written (friendsCache s) →
  friendsCache (Presence.setUserOffline now userId fails s).1.1
  = friendsCache s.
Proof.
  intros Hshape. unfold Presence.setUserOffline.
  destruct (fails QMarkOffline); [done|].
  destruct (fails QWhoLists); [done|].
  match goal with |- context [Presence.notify ?a ?b ?c ?d ?e] =>
    pose proof (notify_on_results a b c d e Hshape) as H;
    destruct (Presence.notify a b c d e) as [[fc ms] o] end.
  exact H.
Qed.

(** What [sendFriendsList] does to the cache: nothing on a hit, one new
    entry of the written shape on a miss. *)
Lemma sendFriendsList_cache now socket userId fails s :
  let fc' := friendsCache (Friends.sendFriendsList now socket userId fails s).1.1 in
  fc' = friendsCache s
  ∨ (friendsCache s !! userId = None
     ∧ ∃ rows, fc' = <[userId := Friends.result rows]> (friendsCache s)).
Proof.
  unfold Friends.sendFriendsList.
  destruct (friendsCache s !! userId) eqn:Hc; [by left|].
  destruct (fails QFriendsWithStatus); [by left|].
  right. split; [done|]. by eexists.
Qed.

(** One event: cached entries keep the written shape, and an entry that
    is cached stays as it is while the process runs. *)
Lemma dispatch_cache now ev s :
  cache_as_written (friendsCache s) →
  cache_as_written (friendsCache (dispatch now ev s).1)
  ∧ (exited (dispatch now ev s).1 = false →
     ∀ u c, friendsCache s !! u = Some c →
            friendsCache (dispatch now ev s).1 !! u = Some c).
Proof.
  intros Hshape.
  assert (Hsame : ∀ s', friendsCache s' = friendsCache s →
            cache_as_written (friendsCache s')
            ∧ (exited s' = false →
               ∀ u c, friendsCache s !! u = Some c →
                      friendsCache s' !! u = Some c)).
  { intros s' ->. done. }
  assert (Hexit : ∀ s0,
            cache_as_written (friendsCache (exit s0))
            ∧ (exited (exit s0) = false →
               ∀ u c, friendsCache s !! u = Some c →
                      friendsCache (exit s0) !! u = Some c)).
  { intros s0. split; [|done]. intros u c Hc. done. }
  destruct ev; simpl.
  - unfold onConnection.
    destruct (negb (truthy_id (socket_userId socket))); [by apply Hsame|].
    match goal with |- context [Presence.setUserOnline ?a ?b ?c ?d ?e] =>
      pose proof (setUserOnline_cache a b c d e Hshape) as Hon;
      destruct (Presence.setUserOnline a b c d e) as [[s1 ms1] o1] end.
    simpl in Hon. destruct o1 as [|e1]; [|by apply Hsame].
    pose proof (sendFriendsList_cache now socket (socket_userId socket)
                  fails s1) as Hfl.
    destruct (Friends.sendFriendsList _ _ _ _ _) as [[s2 ms2] o2].
    simpl in Hfl.
    assert (Hs2 : cache_as_written (friendsCache s2)
                  ∧ ∀ u c, friendsCache s !! u = Some c →
                           friendsCache s2 !! u = Some c).
    { destruct Hfl as [Hfl|(Hmiss & rows & Hfl)].
      - rewrite Hfl, Hon. done.
      - rewrite Hfl, Hon in *. split.
        + intros u c.
          destruct (decide (socket_userId socket = u)) as [<-|Hne].
          * rewrite lookup_insert_eq. intros [= <-]. by eexists.
          * rewrite lookup_insert_ne by done. apply Hshape.
        + intros u c Hu. rewrite lookup_insert_ne; [done|].
          intros <-. congruence. }
    assert (Hs2' : cache_as_written (friendsCache s2)
                   ∧ (exited s2 = false →
                      ∀ u c, friendsCache s !! u = Some c →
                             friendsCache s2 !! u = Some c)).
    { split; [apply Hs2|intros _; apply Hs2]. }
    destruct o2 as [|e2]; [|exact Hs2'].
    destruct (fails QFriendsOf); [exact Hs2'|].
    destruct (fails QSessionsOf); exact Hs2'.
  - apply Hsame. unfold onJoinEntryRoom, joinEntryRoom.
    repeat (case_match; simplify_eq/=; try done).
  - apply Hsame. unfold onLeaveEntryRoom, leaveEntryRoom.
    repeat (case_match; simplify_eq/=; try done).
  - apply Hsame. unfold onEntryEdit.
    repeat (case_match; simplify_eq/=; try done).
  - apply Hsame. unfold onCursorMove, handleCursorMove.
    repeat (case_match; simplify_eq/=; try done).
  - unfold onUserEditing, uncaught, userEditingEntry, userStatusEntry.
    destruct (negb (truthy_id entryId0)); [by apply Hsame|].
    destruct (fails QSetStatus); [apply Hexit|by apply Hsame].
  - unfold onUserIdle, uncaught, userIdleEntry, userStatusEntry.
    destruct (negb (truthy_id entryId0)); [by apply Hsame|].
    destruct (fails QSetStatus); [apply Hexit|by apply Hsame].
  - apply Hsame. unfold onDisconnect.
    match goal with |- context [Presence.setUserOffline ?a ?b ?c ?d] =>
      pose proof (setUserOffline_cache a b c d Hshape) as Hoff;
      destruct (Presence.setUserOffline a b c d) as [[s1 ms1] o1] end.
    simpl in Hoff. destruct o1; [|done].
    destruct (clear_cursors _ _ _) as [cs ms2].
    by destruct (fails QDeleteSessions).
  - by apply Hsame.
  - by apply Hsame.
  - by apply Hsame.
  - unfold onStaleSocket, uncaught.
    match goal with |- context [Presence.setUserOffline ?a ?b ?c ?d] =>
      pose proof (setUserOffline_cache a b c d Hshape) as Hoff;
      destruct (Presence.setUserOffline a b c d) as [[s1 ms1] o1] end.
    simpl in Hoff. destruct o1; [by apply Hsame|apply Hexit].
  - apply (Hexit s).
Qed.

Lemma fire_all_cache l : ∀ s,
  friendsCache (fire_all l s).1 = friendsCache s.
Proof.
  induction l as [|[sid tm] l IH]; intros s; [done|].
  cbn [fire_all]. cbn [fire].
  match goal with |- context [fire_all l ?s1] =>
    specialize (IH s1); destruct (fire_all l s1) as [s2 ms2] end.
  exact IH.
Qed.

Lemma step_cache now ev s :
  cache_as_written (friendsCache s) →
  cache_as_written (friendsCache (step now ev s).1)
  ∧ (exited (step now ev s).1 = false →
     ∀ u c, friendsCache s !! u = Some c →
            friendsCache (step now ev s).1 !! u = Some c).
Proof.
  intros Hshape. unfold step. destruct (exited s); [done|].
  pose proof (fire_all_cache (due_timers now (debounceMap s)) s) as Hadv.
  fold (advance now s) in Hadv.
  destruct (advance now s) as [s1 ms1]. cbn [fst] in Hadv.
  rewrite <- Hadv in Hshape |- *.
  pose proof (dispatch_cache now ev s1 Hshape) as Hd.
  by destruct (dispatch now ev s1) as [s2 ms2].
Qed.

(** From the start of the server on, whatever happens: every cached
    entry has the shape [sendFriendsList] wrote, so no online or offline
    transition ever changes an entry once it is cached; an entry goes
    only with the process. *)
Lemma friends_cache_never_updated (t : Tables) (tr : list (Z * Event)) :
  cache_as_written (friendsCache (run tr (initial t)).1)
  ∧ ∀ now ev u c,
      exited (step now ev (run tr (initial t)).1).1 = false →
      friendsCache (run tr (initial t)).1 !! u = Some c →
      friendsCache (step now ev (run tr (initial t)).1).1 !! u = Some c.
Proof.
  assert (Hshape : ∀ s, cache_as_written (friendsCache s) →
                        cache_as_written (friendsCache (run tr s).1)).
  { induction tr as [|[now ev] tr IH]; intros s Hs; [done|].
    cbn [run]. destruct (step_cache now ev s Hs) as [Hs1 _].
    destruct (step now ev s) as [s1 ms1]. specialize (IH s1 Hs1).
    by destruct (run tr s1). }
  assert (Hinit : cache_as_written (friendsCache (initial t))).
  { intros u c Hc. done. }
  split; [by apply Hshape|].
  intros now ev u c Hex. by apply step_cache; [apply Hshape|].
Qed.

End CacheShapeFacts.

(** ** Joining a room *)

Section JoinFacts.

Lemma join_member (room sid : string) (rooms : gmap string (gset string)) :
  sid ∈ members room rooms → join room sid rooms = rooms.
Proof.
  unfold join, members. intros Hin.
  destruct (rooms !! room) as [ms|] eqn:Hr; simpl in *.
  - apply insert_id. rewrite Hr. f_equal.
    symmetry. apply subseteq_union_1_L. by apply singleton_subseteq_l.
  - by apply not_elem_of_empty in Hin.
Qed.

Lemma members_join (room sid : string) (rooms : gmap string (gset string)) :
  sid ∈ members room (join room sid rooms).
Proof.
  unfold join, members. rewrite lookup_insert_eq. simpl.
  apply elem_of_union_l. by apply elem_of_singleton.
Qed.

(** The upsert of [joinEntryRoom] on a row that exists. *)
Lemma upsert_session_known (entryId userId : string) (now : Z)
    (r : Session) (ss : gmap (string * string) Session) :
  ss !! (entryId, userId) = Some r →
  upsert_session entryId userId now ss
  = <[(entryId, userId) := mkSession viewing (joined_at r) now]> ss.
Proof. intros H. unfold upsert_session. by rewrite H. Qed.

(** After the upsert the row exists and is viewing. *)
Lemma upsert_session_lookup (entryId userId : string) (now : Z)
    (ss : gmap (string * string) Session) :
  ∃ j, upsert_session entryId userId now ss !! (entryId, userId)
       = Some (mkSession viewing j now).
Proof.
  unfold upsert_session.
  destruct (ss !! (entryId, userId)) as [r|];
    eexists; by rewrite lookup_insert_eq.
Qed.

End JoinFacts.

(** C6 as stated fails: B is editing "E1"; joining the room again puts
    B's status back to viewing. *)
Lemma rejoin_resets_status :
  let s := (step 550 (UserEditingEntry Scenario.sockB "E1" all_ok)
                 Scenario.in_shared_entry).1 in
  let s' := (step 600 (JoinEntryRoom Scenario.sockB "E1" all_ok) s).1 in
  status <$> membership s "B" "E1" = Some editing
  ∧ status <$> membership s' "B" "E1" = Some viewing.
Proof. split; vm_compute; reflexivity. Qed.

(** C6, as amended. With the store answering, joining a room
    - when the Membership exists and the socket is in the room: sets the
      Membership's status to viewing and its lastSeenAt to now, and changes
      nothing else (joinedAt, the other Memberships, the rooms, the
      cursors are as before);
    - twice in a row, from any state: the second join changes only the
      lastSeenAt of the Membership the first one left. *)
Theorem join_again_refreshes (t1 t2 : Z) (socket : Socket) (entryId : string)
    (fails : query → bool) (s : State) :
  fails QUpsertSession = false →
  fails QViewers = false →
  let userId := socket_userId socket in
  let s1 := (joinEntryRoom t1 socket userId entryId fails s).1.1 in
  let s2 := (joinEntryRoom t2 socket userId entryId fails s1).1.1 in
  (∀ r, membership s userId entryId = Some r →
        socket_id socket ∈ members (room_of entryId) (rooms s) →
        s1 = with_db (with_sessions
                        (<[(entryId, userId) :=
                             mkSession viewing (joined_at r) t1]>) (db s)) s)
  ∧ s2 = with_db (with_sessions
                    (alter (λ r, mkSession (status r) (joined_at r) t2)
                           (entryId, userId)) (db s1)) s1.
Proof.
  intros Hq1 Hq2 userId s1 s2. subst s1 s2. unfold joinEntryRoom.
  rewrite Hq1, Hq2. cbn [fst snd]. split.
  - intros r Hr Hin. unfold membership in Hr.
    destruct s as [a b c d e f g h rms [ss ws fs]]. cbn in *.
    unfold with_rooms, with_db, with_sessions. cbn.
    rewrite (join_member _ _ _ Hin).
    by rewrite (upsert_session_known _ _ _ _ _ Hr).
  - destruct s as [a b c d e f g h rms [ss ws fs]].
    unfold with_rooms, with_db, with_sessions. cbn.
    rewrite (join_member _ _ (join _ _ rms)) by apply members_join.
    destruct (upsert_session_lookup entryId userId t1 ss) as [j Hj].
    rewrite (upsert_session_known _ _ _ _ _ Hj).
    do 2 f_equal. apply map_eq. intros k.
    destruct (decide (k = (entryId, userId))) as [->|Hne].
    + by rewrite lookup_insert_eq, lookup_alter_eq, Hj.
    + by rewrite lookup_insert_ne, lookup_alter_ne.
Qed.

Lemma join_again_refreshes_witness :
  let s1 := (joinEntryRoom 300 Scenario.sockA "A" "E1" all_ok
                           (initial Scenario.empty_tables)).1.1 in
  (joinEntryRoom 900 Scenario.sockA "A" "E1" all_ok s1).1.1
  = with_db (with_sessions
               (alter (λ r, mkSession (status r) (joined_at r) 900)
                      ("E1", "A")) (db s1)) s1.
Proof.
  apply (join_again_refreshes 300 900 Scenario.sockA "E1" all_ok
           (initial Scenario.empty_tables)); reflexivity.
Defined.

(** ** Cursors and memberships *)

(** C7 as stated fails: on a fresh server, B moves its cursor in "E1"
    without having joined; the cursor is stored although B has no
    Membership there. *)
Lemma cursor_without_membership :
  let s := (step 500 (EntryCursorMove Scenario.sockB "E1" (JPoint 10 5))
                 (initial Scenario.empty_tables)).1 in
  cursor s "B" "E1" = Some (mkCursor "B" (JPoint 10 5) 500)
  ∧ membership s "B" "E1" = None
  ∧ ¬ cursor_implies_membership s.
Proof.
  split; [vm_compute; reflexivity|]. split; [vm_compute; reflexivity|].
  intros H. specialize (H "B" "E1").
  assert (Hc : is_Some (cursor (step 500 (EntryCursorMove Scenario.sockB "E1"
                                            (JPoint 10 5))
                                  (initial Scenario.empty_tables)).1
                               "B" "E1")) by (vm_compute; eauto).
  destruct (H Hc) as [r Hr]. vm_compute in Hr. discriminate.
Qed.

(** The implication is also lost without any cursor move from outside a
    room: B joins "E1" and moves its cursor there, and the periodic
    cleanup deletes B's session row once it is ten minutes old; the
    cursor stays in the store. *)
Lemma cleanup_keeps_cursor :
  let s := (run Scenario.stale_session (initial Scenario.empty_tables)).1 in
  cursor s "B" "E1" = Some (mkCursor "B" (JPoint 10 5) 300)
  ∧ membership s "B" "E1" = None.
Proof. split; vm_compute; reflexivity. Qed.

(** C7, as amended. The cursor handler checks no Membership. A valid
    cursor move that passes the throttle stores the position under the
    entry it names and the sender, whoever the sender is; it changes no
    other cursor and no Membership. So, from a state in which every
    cursor belongs to a Membership, the state after the move has that
    property exactly when the sender has a Membership for the entry;
    a member who has sent no cursor still has none. *)
Theorem cursor_move_ignores_membership (now : Z) (so : Socket) (e : string)
    (pos : jsval) (s : State) :
  truthy_id e = true →
  truthy pos = true →
  throttleMs ≤ now - default 0 (cursorThrottleMap s !! socket_id so) →
  cursor (onCursorMove now so e pos s).1 (socket_userId so) e
  = Some (mkCursor (socket_userId so) pos now)
  ∧ (∀ u e', (e', u) ≠ (e, socket_userId so) →
       cursor (onCursorMove now so e pos s).1 u e' = cursor s u e')
  ∧ (∀ u e',
       membership (onCursorMove now so e pos s).1 u e' = membership s u e')
  ∧ (cursor_implies_membership s →
     (cursor_implies_membership (onCursorMove now so e pos s).1
      ↔ is_Some (membership s (socket_userId so) e))).
Proof.
  intros He Hp Ht.
  destruct (onCursorMove_stores now so e pos s He Hp Ht) as (Hc & _ & Hdb & _).
  assert (Hm : ∀ u e',
    membership (onCursorMove now so e pos s).1 u e' = membership s u e').
  { intros u e'. unfold membership. by rewrite Hdb. }
  split; [|split; [|split]].
  - rewrite Hc. by rewrite decide_True.
  - intros u e' Hne. rewrite Hc. rewrite decide_False; [done|].
    intros [-> ->]. done.
  - exact Hm.
  - intros Hinv. split.
    + intros Hinv'. rewrite <- Hm. apply Hinv'.
      rewrite Hc. rewrite decide_True by done. by eexists.
    + intros Hmem u e' Hcur. rewrite Hm. rewrite Hc in Hcur.
      case_decide as Heq.
      * by destruct Heq as [-> ->].
      * by apply Hinv.
Qed.

(** B moves its cursor in "E1". After A and B have joined "E1", every
    cursor belongs to a Membership afterwards, and the member A has no
    cursor; on a fresh server B has none of the entry, and the property
    is lost. *)
Lemma cursor_move_ignores_membership_witness :
  (cursor_implies_membership
     (onCursorMove 500 Scenario.sockB "E1" (JPoint 10 5)
                   Scenario.both_joined).1
   ∧ is_Some (membership
                (onCursorMove 500 Scenario.sockB "E1" (JPoint 10 5)
                              Scenario.both_joined).1 "A" "E1")
   ∧ cursor (onCursorMove 500 Scenario.sockB "E1" (JPoint 10 5)
                          Scenario.both_joined).1 "A" "E1" = None)
  ∧ ¬ cursor_implies_membership
        (onCursorMove 500 Scenario.sockB "E1" (JPoint 10 5)
                      (initial Scenario.empty_tables)).1.
Proof.
  split; [split; [|split]|].
  - apply (cursor_move_ignores_membership 500 Scenario.sockB "E1"
             (JPoint 10 5) Scenario.both_joined).
    + reflexivity.
    + reflexivity.
    + vm_compute. discriminate.
    + intros u e [c Hc]. vm_compute in Hc. discriminate.
    + vm_compute. eauto.
  - vm_compute. eauto.
  - vm_compute. reflexivity.
  - intros Hinv.
    apply (cursor_move_ignores_membership 500 Scenario.sockB "E1"
             (JPoint 10 5) (initial Scenario.empty_tables)) in Hinv.
    + destruct Hinv as [r Hr]. vm_compute in Hr. discriminate.
    + reflexivity.
    + reflexivity.
    + vm_compute. discriminate.
    + intros u e [c Hc]. vm_compute in Hc. discriminate.
Defined.

(** ** Debounce *)

Section DebounceFacts.

Lemma relay_from_timer sid sid' tm :
  relay_from sid (timer_relay sid' tm) = String.eqb sid' sid.
Proof. reflexivity. Qed.

(** The timers of a list, run in order, seen from the socket [sid]: its
    own timer, when in the list, is the only relay sent for it, and leaves
    it without a pending timer. *)
Lemma fire_all_sid sid (l : list (string * Timeout)) : ∀ s,
  (∀ tm tm', (sid, tm) ∈ l → (sid, tm') ∈ l → tm = tm') →
  NoDup l →
  (∀ tm, (sid, tm) ∈ l →
     List.filter (relay_from sid) (fire_all l s).2 = [timer_relay sid tm]
     ∧ debounceMap (fire_all l s).1 !! sid = None)
  ∧ ((∀ tm, (sid, tm) ∉ l) →
     List.filter (relay_from sid) (fire_all l s).2 = []
     ∧ debounceMap (fire_all l s).1 !! sid = debounceMap s !! sid).
Proof.
  induction l as [|[sid' tm'] l IH]; intros s Hfun Hnd.
  - split; [intros tm Hin; by apply elem_of_nil in Hin|done].
  - apply NoDup_cons in Hnd as [Hnotin Hnd].
    assert (Hfun' : ∀ tm tm', (sid, tm) ∈ l → (sid, tm') ∈ l → tm = tm').
    { intros tm1 tm2 H1 H2. apply Hfun; by apply elem_of_cons; right. }
    specialize (IH (fire (due tm') sid' tm' s).1 Hfun' Hnd).
    destruct IH as [IHin IHout].
    cbn [fire_all]. cbn [fire] in *.
    destruct (fire_all l _) as [s2 ms2] eqn:Hrest. cbn [fst snd] in *.
    cbn [app List.filter]. fold (timer_relay sid' tm').
    rewrite relay_from_timer.
    destruct (String.eqb_spec sid' sid) as [->|Hne].
    + assert (Hnone : ∀ tm, (sid, tm) ∉ l).
      { intros tm Hin. assert (tm = tm') as ->; [|done].
        apply Hfun; [by apply elem_of_cons; right|by apply elem_of_cons; left]. }
      destruct (IHout Hnone) as [Hms Hdm]. split.
      * intros tm Hin. assert (tm = tm') as ->.
        { apply Hfun; [done|by apply elem_of_cons; left]. }
        rewrite Hms, Hdm. simpl. by rewrite lookup_delete_eq.
      * intros Hno. exfalso. apply (Hno tm'). by apply elem_of_cons; left.
    + split.
      * intros tm Hin. apply elem_of_cons in Hin as [[= ? ?]|Hin]; [done|].
        by apply IHin.
      * intros Hno. destruct IHout as [Hms Hdm].
        { intros tm Hin. apply (Hno tm). by apply elem_of_cons; right. }
        rewrite Hms, Hdm. simpl. by rewrite lookup_delete_ne.
Qed.

Lemma due_timers_elem now (dm : gmap string Timeout) sid tm :
  (sid, tm) ∈ due_timers now dm ↔ dm !! sid = Some tm ∧ due tm ≤ now.
Proof.
  unfold due_timers. rewrite merge_sort_Permutation.
  rewrite list_elem_of_filter, elem_of_map_to_list. simpl. tauto.
Qed.

Lemma due_timers_NoDup now (dm : gmap string Timeout) :
  NoDup (due_timers now dm).
Proof.
  unfold due_timers. rewrite merge_sort_Permutation.
  apply NoDup_filter, NoDup_map_to_list.
Qed.

(** The timers due by [now], seen from the socket [sid]. *)
Lemma advance_sid now s sid :
  match debounceMap s !! sid with
  | Some tm =>
      if decide (due tm ≤ now)
      then List.filter (relay_from sid) (advance now s).2 = [timer_relay sid tm]
           ∧ debounceMap (advance now s).1 !! sid = None
      else List.filter (relay_from sid) (advance now s).2 = []
           ∧ debounceMap (advance now s).1 !! sid = Some tm
  | None =>
      List.filter (relay_from sid) (advance now s).2 = []
      ∧ debounceMap (advance now s).1 !! sid = None
  end.
Proof.
  unfold advance.
  destruct (fire_all_sid sid (due_timers now (debounceMap s)) s)
    as [Hin Hout].
  { intros tm tm' H1%due_timers_elem H2%due_timers_elem.
    destruct H1 as [H1 _], H2 as [H2 _]. congruence. }
  { apply due_timers_NoDup. }
  destruct (debounceMap s !! sid) as [tm|] eqn:Hdm.
  - case_decide as Hdue.
    + apply Hin. by apply due_timers_elem.
    + apply Hout. intros tm' [H1 H2]%due_timers_elem. by simplify_eq.
  - apply Hout. intros tm' [H1 H2]%due_timers_elem. by simplify_eq.
Qed.

(** While the process runs, only the edit handler writes the debounce
    map, and only at the key of its socket. *)
Lemma dispatch_debounceMap now ev s sid :
  match ev with
  | EntryEdit so _ => socket_id so ≠ sid
  | _ => True
  end →
  exited (dispatch now ev s).1 = false →
  debounceMap (dispatch now ev s).1 !! sid = debounceMap s !! sid.
Proof.
  destruct ev; simpl; intros Hev Hex.
  - by destruct (onConnection_frame now socket fails s) as (?&?&?&->&?&?&?).
  - unfold onJoinEntryRoom, joinEntryRoom.
    repeat (case_match; simplify_eq/=; try done).
  - unfold onLeaveEntryRoom, leaveEntryRoom.
    repeat (case_match; simplify_eq/=; try done).
  - unfold onEntryEdit.
    repeat (case_match; simplify_eq/=; try done);
      by rewrite lookup_insert_ne.
  - unfold onCursorMove, handleCursorMove.
    repeat (case_match; simplify_eq/=; try done).
  - unfold onUserEditing, uncaught, userEditingEntry, userStatusEntry in *.
    repeat (case_match; simplify_eq/=; try done).
  - unfold onUserIdle, uncaught, userIdleEntry, userStatusEntry in *.
    repeat (case_match; simplify_eq/=; try done).
  - by destruct (onDisconnect_frame now socket fails s) as (?&?&->&?).
  - done.
  - done.
  - done.
  - by destruct (onStaleSocket_frame now socket fails s Hex)
      as (?&?&?&?&->&?).
  - done.
Qed.

Lemma onEntryEdit_exited now so p s :
  exited (onEntryEdit now so p s).1 = exited s.
Proof.
  unfold onEntryEdit. repeat (case_match; simplify_eq/=; try done).
Qed.


(** One step seen from the socket [sid], when the event is not an edit of
    that socket: the pending timer runs if it is due, and nothing else
    happens to it. *)
Lemma step_other_sid now ev s sid :
  match ev with
  | EntryEdit so _ => socket_id so ≠ sid
  | _ => True
  end →
  exited (step now ev s).1 = false →
  match debounceMap s !! sid with
  | Some tm =>
      if decide (due tm ≤ now)
      then List.filter (relay_from sid) (step now ev s).2 = [timer_relay sid tm]
           ∧ debounceMap (step now ev s).1 !! sid = None
      else List.filter (relay_from sid) (step now ev s).2 = []
           ∧ debounceMap (step now ev s).1 !! sid = Some tm
  | None =>
      List.filter (relay_from sid) (step now ev s).2 = []
      ∧ debounceMap (step now ev s).1 !! sid = None
  end.
Proof.
  intros Hev Hex.
  destruct (step_alive now ev s Hex) as (_ & -> & _ & Hd). clear Hex.
  pose proof (advance_sid now s sid) as Hadv.
  destruct (advance now s) as [s1 ms1]. cbn [fst snd] in *.
  pose proof (dispatch_no_relay now ev s1 (sent_by sid)) as Hrel.
  pose proof (dispatch_debounceMap now ev s1 sid Hev Hd) as Hdm.
  destruct (dispatch now ev s1) as [s2 ms2]. cbn [fst snd] in *.
  rewrite List.filter_app. fold (relay_from sid) in Hrel. rewrite Hrel, Hdm.
  rewrite app_nil_r. exact Hadv.
Qed.






End DebounceFacts.


(** The pending edit goes with the process: when the store rejects the
    status update of a "user_idle" sent while the timer is pending, the
    listener's promise is rejected with nobody to catch it, the process
    ends, and the edit is never relayed. *)
Lemma debounce_relay_lost_with_process :
  exited (run Scenario.edits_then_rejection
              (initial Scenario.empty_tables)).1 = true
  ∧ List.filter (relay_from "sA")
      (run_until 5000 Scenario.edits_then_rejection
                 (initial Scenario.empty_tables)).2 = [].
Proof. split; vm_compute; reflexivity. Qed.



(** ** The last-edit record *)

Section LastEditFacts.

Lemma fire_all_lastEdit (A : string) l : ∀ s,
  (∀ sid tm, (sid, tm) ∈ l → t_entryId tm ≠ A) →
  lastEditMap (fire_all l s).1 !! A = lastEditMap s !! A.
Proof.
  induction l as [|[sid tm] l IH]; intros s Hl; [done|].
  cbn [fire_all]. cbn [fire].
  match goal with |- context [fire_all l ?s1] =>
    specialize (IH s1); destruct (fire_all l s1) as [s2 ms2] end.
  cbn [fst] in *. rewrite IH.
  - simpl. rewrite lookup_insert_ne; [done|].
    apply (Hl sid). by apply elem_of_cons; left.
  - intros sid' tm' Hin. apply (Hl sid'). by apply elem_of_cons; right.
Qed.

(** Running timers only removes pending timers. *)
Lemma fire_all_pending l : ∀ s sid tm,
  debounceMap (fire_all l s).1 !! sid = Some tm →
  debounceMap s !! sid = Some tm.
Proof.
  induction l as [|[sid' tm'] l IH]; intros s sid tm; [done|].
  cbn [fire_all]. cbn [fire].
  match goal with |- context [fire_all l ?s1] =>
    specialize (IH s1 sid tm); destruct (fire_all l s1) as [s2 ms2] end.
  cbn [fst] in *. intros H. specialize (IH H). simpl in IH.
  by apply lookup_delete_Some in IH as [_ IH].
Qed.

Lemma dispatch_lastEditMap now ev s :
  exited (dispatch now ev s).1 = false →
  lastEditMap (dispatch now ev s).1 = lastEditMap s.
Proof.
  destruct ev; simpl; intros Hex.
  - by destruct (onConnection_frame now socket fails s) as (?&?&->&?&?&?&?).
  - unfold onJoinEntryRoom, joinEntryRoom.
    repeat (case_match; simplify_eq/=; try done).
  - unfold onLeaveEntryRoom, leaveEntryRoom.
    repeat (case_match; simplify_eq/=; try done).
  - unfold onEntryEdit.
    repeat (case_match; simplify_eq/=; try done).
  - unfold onCursorMove, handleCursorMove.
    repeat (case_match; simplify_eq/=; try done).
  - unfold onUserEditing, uncaught, userEditingEntry, userStatusEntry in *.
    repeat (case_match; simplify_eq/=; try done).
  - unfold onUserIdle, uncaught, userIdleEntry, userStatusEntry in *.
    repeat (case_match; simplify_eq/=; try done).
  - by destruct (onDisconnect_frame now socket fails s) as (?&->&?).
  - done.
  - done.
  - done.
  - by destruct (onStaleSocket_frame now socket fails s Hex)
      as (?&?&?&->&?).
  - done.
Qed.

Lemma advance_none_pending A now s :
  none_pending_for A s →
  none_pending_for A (advance now s).1
  ∧ lastEditMap (advance now s).1 !! A = lastEditMap s !! A.
Proof.
  intros Hnone. unfold advance. split.
  - intros sid tm H. apply (Hnone sid). by apply fire_all_pending in H.
  - apply fire_all_lastEdit. intros sid tm [H _]%due_timers_elem.
    by apply (Hnone sid).
Qed.






End LastEditFacts.




(** ** Conflict detection *)

Section ConflictFacts.

(** A notice is emitted only against a last-edit record of another user
    whose time is within 300 ms of the client's timestamp. *)
Lemma onEntryEdit_notice now so p s :
  List.filter conflict_notice (onEntryEdit now so p s).2 ≠ [] →
  ∃ le, lastEditMap s !! entryId p = Some le
        ∧ edit_userId le ≠ socket_userId so
        ∧ Z.abs (timestamp p - edit_timestamp le) < conflictMs.
Proof.
  unfold onEntryEdit. destruct (_ || _); [done|].
  destruct (RateLimit.checkRateLimit _ _ _) as [[|] counts]; simpl; [|done].
  unfold conflicts. destruct (lastEditMap s !! entryId p) as [le|]; [|done].
  destruct (String.eqb_spec (edit_userId le) (socket_userId so)); [done|].
  destruct (Z.ltb_spec (Z.abs (timestamp p - edit_timestamp le)) conflictMs);
    [|done].
  intros _. by exists le.
Qed.

Lemma fire_all_no_notice l : ∀ s,
  List.filter conflict_notice (fire_all l s).2 = [].
Proof.
  induction l as [|[sid tm] l IH]; intros s; [done|].
  cbn [fire_all]. cbn [fire].
  match goal with |- context [fire_all l ?s1] =>
    specialize (IH s1); destruct (fire_all l s1) as [s2 ms2] end.
  exact IH.
Qed.

(** The last-edit record of an entry is written when a timer runs, never
    when an edit arrives: on an entry without a record and without a due
    timer, two edits less than 500 ms apart produce no notice, whoever
    sends them and whatever their timestamps. *)
Lemma no_notice_within_debounce (E : string) (t1 t2 : Z)
    (so1 so2 : Socket) (p1 p2 : EditEvent) (s : State) :
  lastEditMap s !! E = None →
  none_pending_for E s →
  entryId p1 = E → entryId p2 = E →
  t2 < t1 + debounceMs →
  List.filter conflict_notice
    (run [(t1, EntryEdit so1 p1); (t2, EntryEdit so2 p2)] s).2 = [].
Proof.
  intros Hrec Hnone He1 He2 Hgap.
  destruct (exited s) eqn:Hs; [by rewrite run_exited|].
  cbn [run]. unfold step. rewrite Hs.
  destruct (advance_none_pending E t1 s Hnone) as [Hn1 Hl1].
  pose proof (fire_all_no_notice (due_timers t1 (debounceMap s)) s) as Hq1.
  pose proof (fire_all_exited (due_timers t1 (debounceMap s)) s) as Hx1.
  fold (advance t1 s) in Hq1, Hx1.
  destruct (advance t1 s) as [s1 ms1]. cbn [fst snd] in *.
  pose proof (onEntryEdit_notice t1 so1 p1 s1) as Hed1.
  pose proof (onEntryEdit_exited t1 so1 p1 s1) as Hx2.
  rewrite Hx1, Hs in Hx2.
  pose proof (dispatch_lastEditMap t1 (EntryEdit so1 p1) s1 Hx2) as Hl2.
  assert (Hpend : ∀ sid tm,
            debounceMap (onEntryEdit t1 so1 p1 s1).1 !! sid = Some tm →
            t_entryId tm = E → t2 < due tm).
  { intros sid tm. unfold onEntryEdit. destruct (_ || _).
    - intros H ?. by apply Hn1 in H.
    - destruct (RateLimit.checkRateLimit _ _ _) as [[|] counts]; simpl.
      + destruct (decide (socket_id so1 = sid)) as [<-|Hne].
        * rewrite lookup_insert_eq. intros [= <-] _. simpl. lia.
        * rewrite lookup_insert_ne by done. intros H ?. by apply Hn1 in H.
      + intros H ?. by apply Hn1 in H. }
  cbn [dispatch] in *.
  destruct (onEntryEdit t1 so1 p1 s1) as [s2 ms2]. cbn [fst snd] in *.
  rewrite Hx2.
  assert (Hms2 : List.filter conflict_notice ms2 = []).
  { destruct (List.filter conflict_notice ms2) eqn:Hf; [done|].
    destruct Hed1 as (le & Hle & _); [done|]. congruence. }
  pose proof (fire_all_no_notice (due_timers t2 (debounceMap s2)) s2) as Hq2.
  assert (Hl3 : lastEditMap (advance t2 s2).1 !! E = lastEditMap s2 !! E).
  { apply fire_all_lastEdit. intros sid tm [H1 H2]%due_timers_elem Heq.
    specialize (Hpend sid tm H1 Heq). lia. }
  fold (advance t2 s2) in Hq2.
  destruct (advance t2 s2) as [s3 ms3]. cbn [fst snd] in *.
  pose proof (onEntryEdit_notice t2 so2 p2 s3) as Hed2.
  destruct (onEntryEdit t2 so2 p2 s3) as [s4 ms4]. cbn [fst snd] in *.
  assert (Hms4 : List.filter conflict_notice ms4 = []).
  { destruct (List.filter conflict_notice ms4) eqn:Hf; [done|].
    destruct Hed2 as (le & Hle & _); [done|]. congruence. }
  rewrite !List.filter_app, Hq1, Hms2, Hq2, Hms4. done.
Qed.

End ConflictFacts.

(** C2, the code at the gaps of the specification and in between. Two
    users edit the same entry on a fresh server, the second edit arriving
    and stamped [gap] ms after the first.
    - gap = 50: both edits are relayed, no conflict notice is emitted to
      either connection (the specification has both conflict);
    - gap = 600: the second editor gets a notice, because the first edit
      was relayed, and recorded, 100 ms before; the notice is emitted under
      the event name [undefined], the constant CONFLICT_DETECTED being
      absent from the collaboration event table;
    - gap = 1000: no notice. *)
Theorem conflict_window_counts_from_relay :
  List.filter conflict_notice
    (run_until 5000 (Scenario.two_editors 50)
               (initial Scenario.empty_tables)).2 = []
  ∧ relayed_contents
      (run_until 5000 (Scenario.two_editors 50)
                 (initial Scenario.empty_tables)).2 = [JStr "a"; JStr "b"]
  ∧ List.filter conflict_notice
      (run_until 5000 (Scenario.two_editors 600)
                 (initial Scenario.empty_tables)).2
    = [ mkMessage (ToSocket "sB") None
                  (PConflict "E1" "last-write-wins" 1600) ]
  ∧ List.filter conflict_notice
      (run_until 5000 (Scenario.two_editors 1000)
                 (initial Scenario.empty_tables)).2 = [].
Proof. repeat split; vm_compute; reflexivity. Qed.

(** * Further properties of the code *)

(** ** The cursor store *)

Section OrderedMapFacts.

Context {V : Type}.

Lemma oget_None_keys (k : string) (m : list (string * V)) :
  oget k m = None ↔ k ∉ m.*1.
Proof.
  induction m as [|[k' v] m IH]; simpl.
  - split; [intros _ H; by apply elem_of_nil in H|done].
  - destruct (String.eqb_spec k k') as [->|Hne].
    + split; [done|]. intros H. exfalso. apply H. by left.
    + rewrite IH. split.
      * intros H [?|?]%elem_of_cons; by simplify_eq.
      * intros H ?. apply H. by right.
Qed.

Lemma oset_absent (k : string) (v : V) (m : list (string * V)) :
  oget k m = None → oset k v m = (m ++ [(k, v)])%list.
Proof.
  induction m as [|[k' v'] m IH]; simpl; [done|].
  destruct (String.eqb_spec k k'); [done|]. intros H. by rewrite IH.
Qed.

Lemma oset_keys (k : string) (v : V) (m : list (string * V)) :
  (oset k v m).*1 = if ohas k m then m.*1 else (m.*1 ++ [k])%list.
Proof.
  unfold ohas. induction m as [|[k' v'] m IH]; simpl; [done|].
  destruct (String.eqb_spec k k') as [->|Hne]; simpl; [done|].
  change (list_fmap (string * V)%type string fst) with
    (fmap (M:=list) (@fst string V)).
  rewrite IH. by destruct (oget k m).
Qed.

Lemma odelete_appended (k : string) (v : V) (m : list (string * V)) :
  oget k m = None → odelete k (m ++ [(k, v)]) = m.
Proof.
  induction m as [|[k' v'] m IH]; simpl.
  - by rewrite String.eqb_refl.
  - destruct (String.eqb_spec k k'); [done|]. intros H. by rewrite IH.
Qed.

Lemma oget_odelete_ne (k k' : string) (m : list (string * V)) :
  k ≠ k' → oget k' (odelete k m) = oget k' m.
Proof.
  intros Hne. induction m as [|[k0 v0] m IH]; simpl; [done|].
  destruct (String.eqb_spec k k0) as [->|Hk]; simpl.
  - by destruct (String.eqb_spec k' k0).
  - by rewrite IH.
Qed.

Lemma oget_odelete_eq (k : string) (m : list (string * V)) :
  NoDup (m.*1) → oget k (odelete k m) = None.
Proof.
  induction m as [|[k0 v0] m IH]; simpl; [done|].
  intros [Hnotin Hnd]%NoDup_cons.
  destruct (String.eqb_spec k k0) as [->|Hk]; simpl.
  - by apply oget_None_keys.
  - destruct (String.eqb_spec k k0); [done|]. by apply IH.
Qed.

Lemma odelete_keys_sub (k k' : string) (m : list (string * V)) :
  k' ∈ (odelete k m).*1 → k' ∈ m.*1.
Proof.
  induction m as [|[k0 v0] m IH]; simpl; [done|].
  destruct (String.eqb_spec k k0) as [->|Hk]; simpl.
  - intros H. by right.
  - intros [->|H]%elem_of_cons; [by left|right; by apply IH].
Qed.

Lemma odelete_NoDup (k : string) (m : list (string * V)) :
  NoDup (m.*1) → NoDup ((odelete k m).*1).
Proof.
  induction m as [|[k0 v0] m IH]; simpl; [done|].
  intros [Hnotin Hnd]%NoDup_cons.
  destruct (String.eqb_spec k k0) as [->|Hk]; simpl; [done|].
  apply NoDup_cons. split; [|by apply IH].
  intros H. by apply Hnotin, (odelete_keys_sub k).
Qed.

Lemma oset_NoDup (k : string) (v : V) (m : list (string * V)) :
  NoDup (m.*1) → NoDup ((oset k v m).*1).
Proof.
  intros Hnd. rewrite oset_keys. unfold ohas.
  destruct (oget k m) eqn:Hk; [done|].
  apply NoDup_app. split; [done|]. split; [|apply NoDup_singleton].
  intros x Hx ->%list_elem_of_singleton. by apply oget_None_keys in Hk.
Qed.

End OrderedMapFacts.

(** X1. [clearCursor] on a store with one map per entry: the cursor of
    (userId, entryId) is gone and every other cursor is as before; an
    entry whose last cursor went is dropped from the store, so no entry is
    left with an empty map by it; the store still has one map per entry.
    When the store knew the entry, whether or not the user had a cursor
    there, exactly one message is sent: "entry_cursor_clear" to the
    entry's room except the socket itself, carrying the user and the
    entry; when the store did not know the entry, nothing is sent. *)
Theorem clearCursor_effect (socket : Socket) (userId entryId : string)
    (cs : list (string * gmap string Cursor)) :
  NoDup (cs.*1) →
  let r := clearCursor socket userId entryId cs in
  (∀ u e, oget e r.1 ≫= (λ c, c !! u)
          = if decide (e = entryId ∧ u = userId) then None
            else oget e cs ≫= (λ c, c !! u))
  ∧ oget entryId r.1 ≠ Some ∅
  ∧ NoDup (r.1.*1)
  ∧ r.2 = match oget entryId cs with
          | Some _ =>
              [ mkMessage (ToRoomExcept (room_of entryId) (socket_id socket))
                          (Some "entry_cursor_clear")
                          (PCursorClear userId entryId) ]
          | None => []
          end.
Proof.
  intros Hnd. unfold clearCursor.
  destruct (oget entryId cs) as [c|] eqn:Hc; cbn [fst snd].
  - case_decide as Hsize.
    + apply map_size_empty_iff in Hsize.
      split; [|split; [|split]].
      * intros u e. destruct (decide (e = entryId)) as [->|Hne].
        -- rewrite oget_odelete_eq by done. simpl.
           case_decide as Heq; [done|]. rewrite Hc. simpl.
           assert (u ≠ userId) by tauto.
           rewrite <- (lookup_delete_ne c userId u) by done.
           by rewrite Hsize, lookup_empty.
        -- rewrite oget_odelete_ne by done. by rewrite decide_False by tauto.
      * by rewrite oget_odelete_eq.
      * by apply odelete_NoDup.
      * done.
    + split; [|split; [|split]].
      * intros u e. destruct (decide (e = entryId)) as [->|Hne].
        -- rewrite oget_oset_eq, Hc. simpl.
           destruct (decide (u = userId)) as [->|Hu].
           ++ rewrite decide_True by done. apply lookup_delete_eq.
           ++ rewrite decide_False by tauto. by apply lookup_delete_ne.
        -- rewrite oget_oset_ne by done. by rewrite decide_False by tauto.
      * rewrite oget_oset_eq. intros [= Heq]. apply Hsize.
        by rewrite Heq, map_size_empty.
      * by apply oset_NoDup.
      * done.
  - split; [|split; [|split]]; try done.
    + intros u e. case_decide as Heq; [|done].
      destruct Heq as [-> ->]. by rewrite Hc.
    + by rewrite Hc.
Qed.

Lemma clearCursor_effect_witness :
  oget "E1" (clearCursor Scenario.sockB "B" "E1"
               (cursorStore Scenario.in_shared_entry)).1 ≠ Some ∅.
Proof.
  apply (clearCursor_effect Scenario.sockB "B" "E1"
           (cursorStore Scenario.in_shared_entry)).
  vm_compute. apply NoDup_singleton.
Defined.

(** X2. Round trip: on a store that does not know the entry, a cursor move
    followed by the clear of that cursor gives the store back as it
    was. *)
Theorem move_then_clear_restores (now : Z) (socket : Socket)
    (userId entryId : string) (pos : jsval)
    (cs : list (string * gmap string Cursor)) :
  oget entryId cs = None →
  (clearCursor socket userId entryId
     (handleCursorMove now socket userId entryId pos cs).1).1 = cs.
Proof.
  intros Hnone. unfold handleCursorMove, clearCursor, ohas.
  rewrite Hnone. cbn [fst].
  rewrite (oset_absent entryId ∅ cs Hnone).
  assert (Hset : ∀ v : gmap string Cursor,
            oset entryId v (cs ++ [(entryId, ∅)])%list
            = (cs ++ [(entryId, v)])%list).
  { intros v. induction cs as [|[k c] cs IH]; simpl.
    - by rewrite String.eqb_refl.
    - simpl in Hnone. destruct (String.eqb_spec entryId k); [done|].
      by rewrite IH. }
  assert (Hget : ∀ v : gmap string Cursor,
            oget entryId (cs ++ [(entryId, v)])%list = Some v).
  { intros v. rewrite <- (oset_absent entryId v cs Hnone).
    apply oget_oset_eq. }
  rewrite (Hget ∅). cbn [default]. rewrite Hset, Hget. cbn [default id].
  rewrite delete_insert_eq, delete_empty.
  rewrite decide_True by apply map_size_empty.
  by apply odelete_appended.
Qed.

Lemma move_then_clear_restores_witness :
  (clearCursor Scenario.sockA "A" "E2"
     (handleCursorMove 700 Scenario.sockA "A" "E2" (JPoint 3 4)
        (cursorStore Scenario.in_shared_entry)).1).1
  = cursorStore Scenario.in_shared_entry.
Proof.
  apply (move_then_clear_restores 700 Scenario.sockA "A" "E2" (JPoint 3 4)
           (cursorStore Scenario.in_shared_entry)).
  reflexivity.
Defined.

(** ** The cursor store along a run *)

Section CursorStoreKeys.

Lemma ohas_keys {V : Type} (k : string) (m : list (string * V)) :
  ohas k m = true ↔ k ∈ m.*1.
Proof.
  unfold ohas. destruct (oget k m) eqn:Hk.
  - split; [intros _|done].
    destruct (decide (k ∈ m.*1)) as [|Hn]; [done|].
    apply oget_None_keys in Hn. congruence.
  - split; [done|]. intros Hin. by apply oget_None_keys in Hk.
Qed.

Lemma clear_cursors_keys socket userId
    (cs : list (string * gmap string Cursor)) :
  (clear_cursors socket userId cs).1.*1 = cs.*1.
Proof.
  induction cs as [|[e c] cs IH]; [done|]. cbn [clear_cursors].
  destruct (clear_cursors socket userId cs) as [cs' ms]. cbn [fst] in IH.
  destruct (c !! userId); cbn [fst]; rewrite !fmap_cons; by rewrite IH.
Qed.

Lemma drop_cursor_keys userId entryId
    (cs : list (string * gmap string Cursor)) :
  (drop_cursor userId entryId cs).*1 = cs.*1.
Proof.
  unfold drop_cursor. destruct (oget entryId cs) eqn:Hk; [|done].
  rewrite oset_keys. unfold ohas. by rewrite Hk.
Qed.

Lemma handleCursorMove_keys now socket userId entryId pos
    (cs : list (string * gmap string Cursor)) :
  (handleCursorMove now socket userId entryId pos cs).1.*1
  = if ohas entryId cs then cs.*1 else (cs.*1 ++ [entryId])%list.
Proof.
  unfold handleCursorMove. cbn [fst]. rewrite oset_keys.
  destruct (ohas entryId cs) eqn:Hk; [by rewrite Hk|].
  rewrite oset_keys, Hk.
  assert (Hin : ohas entryId (oset entryId ∅ cs) = true).
  { unfold ohas. by rewrite oget_oset_eq. }
  by rewrite Hin.
Qed.

Lemma dispatch_keys now ev s :
  exited (dispatch now ev s).1 = false →
  (cursorStore s).*1 `prefix_of` (cursorStore (dispatch now ev s).1).*1.
Proof.
  destruct ev; simpl; intros Hex.
  - by destruct (onConnection_frame now socket fails s) as (?&->&?).
  - unfold onJoinEntryRoom, joinEntryRoom.
    repeat (case_match; simplify_eq/=; try done).
  - unfold onLeaveEntryRoom, leaveEntryRoom.
    repeat (case_match; simplify_eq/=; try done).
    by rewrite drop_cursor_keys.
  - unfold onEntryEdit.
    repeat (case_match; simplify_eq/=; try done).
  - unfold onCursorMove.
    destruct (_ || _); [done|]. destruct (_ <? _); [done|].
    match goal with |- context [handleCursorMove ?a ?b ?c ?d ?e ?f] =>
      pose proof (handleCursorMove_keys a b c d e f) as Hk;
      destruct (handleCursorMove a b c d e f) as [cs ms] end.
    cbn [fst cursorStore with_cursorStore with_cursorThrottleMap] in *.
    rewrite Hk. destruct (ohas _ (cursorStore s)); [done|].
    by apply prefix_app_r.
  - unfold onUserEditing, uncaught, userEditingEntry, userStatusEntry in *.
    repeat (case_match; simplify_eq/=; try done).
  - unfold onUserIdle, uncaught, userIdleEntry, userStatusEntry in *.
    repeat (case_match; simplify_eq/=; try done).
  - clear Hex. unfold onDisconnect.
    match goal with |- context [Presence.setUserOffline ?a ?b ?c ?d] =>
      pose proof (setUserOffline_frame a b c d) as Hoff;
      destruct (Presence.setUserOffline a b c d) as [[s1 ms1] o1] end.
    destruct Hoff as (?&?&Hcs&?). simpl in *.
    destruct o1; [|simpl; by rewrite Hcs].
    pose proof (clear_cursors_keys socket (socket_userId socket)
                  (cursorStore s1)) as Hk.
    destruct (clear_cursors _ _ _) as [cs ms2]. cbn [fst] in Hk.
    destruct (fails QDeleteSessions); simpl; by rewrite Hk, Hcs.
  - done.
  - done.
  - done.
  - by destruct (onStaleSocket_frame now socket fails s Hex) as (?&?&->&?).
  - done.
Qed.

Lemma step_keys now ev s :
  exited (step now ev s).1 = false →
  (cursorStore s).*1 `prefix_of` (cursorStore (step now ev s).1).*1.
Proof.
  intros Hex. destruct (step_alive now ev s Hex) as (_ & -> & _ & Hd).
  cbn [fst].
  destruct (fire_all_store (due_timers now (debounceMap s)) s) as [Hcs _].
  fold (advance now s) in Hcs. rewrite <- Hcs. by apply dispatch_keys.
Qed.

End CursorStoreKeys.

(** X3. The entries of the cursor store are never dropped by the server
    while the process runs: along every trace the process survives,
    whatever the store rejects, the entry ids known to [cursorStore] at
    the start are still its first keys at the end, in the same order
    ([clearCursor], the one function that drops an entry, is imported by
    server.js and never called; leave and disconnect delete the user's
    cursor and keep the entry's map, empty or not). *)
Theorem cursor_store_keys_persist (tr : list (Z * Event)) (s : State) :
  exited (run tr s).1 = false →
  (cursorStore s).*1 `prefix_of` (cursorStore (run tr s).1).*1.
Proof.
  revert s. induction tr as [|[now ev] tr IH]; intros s Hex; [done|].
  apply run_cons_alive in Hex as [Hex1 Hex2].
  rewrite run_cons_fst. etrans; [by apply step_keys|by apply IH].
Qed.

(** B disconnects after moving its cursor in "E1": the store still has
    the entry "E1", with an empty map. *)
Lemma cursor_store_keys_persist_witness :
  (cursorStore Scenario.in_shared_entry).*1
    `prefix_of`
  (cursorStore (run [(600, Disconnect Scenario.sockB all_ok)]
                    Scenario.in_shared_entry).1).*1.
Proof.
  apply (cursor_store_keys_persist [(600, Disconnect Scenario.sockB all_ok)]
           Scenario.in_shared_entry).
  vm_compute. reflexivity.
Defined.

(** ** Presence notices *)

Section NoticeFacts.

Lemma notify_uncached isOnline now userId rows
    (fc : gmap string (gmap string (list string))) :
  (∀ r, r ∈ rows → fc !! r = None) →
  Presence.notify isOnline now userId rows fc
  = (fc, map (Views.friend_notice isOnline now userId) rows, Returned).
Proof.
  induction rows as [|r rows IH]; intros Hnone; [done|].
  cbn [Presence.notify]. unfold FriendsCache.updateStatus.
  rewrite (Hnone r) by (by left). rewrite IH.
  - cbn [map]. repeat f_equal. by destruct isOnline.
  - intros x Hx. apply Hnone. by right.
Qed.

Lemma notify_stops isOnline now userId pre r post
    (fc : gmap string (gmap string (list string))) :
  cache_as_written fc →
  (∀ x, x ∈ pre → fc !! x = None) →
  is_Some (fc !! r) →
  Presence.notify isOnline now userId (pre ++ r :: post) fc
  = (fc, map (Views.friend_notice isOnline now userId) pre, Thrown TypeError).
Proof.
  intros Hshape Hpre [c Hc].
  induction pre as [|x pre IH]; cbn [app Presence.notify map].
  - destruct (Hshape r c Hc) as [rows ->].
    by rewrite (updateStatus_on_result r userId isOnline rows fc Hc).
  - unfold FriendsCache.updateStatus at 1.
    rewrite (Hpre x) by (by left). rewrite IH.
    + repeat f_equal. by destruct isOnline.
    + intros y Hy. apply Hpre. by right.
Qed.

End NoticeFacts.

(** X4. The fan-out of a presence change when no user who lists
    [userId] as a friend has a cached friends list: [setUserOnline] and
    [setUserOffline] return normally, leave the cache as it is and emit
    one notice per row of the friends table that names [userId] as the
    friend, to the room named after the listing user, in the order of the
    rows (a user listed twice is notified twice). *)
Theorem presence_notices_uncached (now : Z) (userId socketId : string)
    (fails : query → bool) (s : State) :
  fails QUpsertConnection = false →
  fails QMarkOffline = false →
  fails QWhoLists = false →
  (∀ r, r ∈ who_lists userId (friends (db s)) → friendsCache s !! r = None) →
  let listers := who_lists userId (friends (db s)) in
  let on := Presence.setUserOnline now userId socketId fails s in
  let off := Presence.setUserOffline now userId fails s in
  on.1.2 = map (Views.friend_notice true now userId) listers
  ∧ on.2 = Returned
  ∧ friendsCache on.1.1 = friendsCache s
  ∧ off.1.2 = map (Views.friend_notice false now userId) listers
  ∧ off.2 = Returned
  ∧ friendsCache off.1.1 = friendsCache s.
Proof.
  intros Hup Hoff Hwho Hnone.
  unfold Presence.setUserOnline, Presence.setUserOffline.
  rewrite Hup, Hoff, Hwho. cbn [db with_db friends with_connections
                                friendsCache].
  rewrite !notify_uncached by done. done.
Qed.

Lemma presence_notices_uncached_witness :
  (Presence.setUserOffline 900 "B" all_ok
     (initial Scenario.friend_tables)).1.2
  = [Views.friend_notice false 900 "B" "A"].
Proof.
  apply (presence_notices_uncached 900 "B" "sB" all_ok
           (initial Scenario.friend_tables)); reflexivity.
Defined.

(** X5. The fan-out stops at the first cached friends list: with a cache
    holding only objects written by [sendFriendsList], when the users
    listing [userId] are [pre], then [r], then [post], and [r] is the first
    of them with a cached list, the loop notifies the users of [pre], in
    order, throws a TypeError in the cache update for [r], leaves the cache
    as it was, and notifies neither [r] nor any user of [post]. *)
Theorem presence_notices_stop_at_cached (isOnline : bool) (now : Z)
    (userId : string) (pre : list string) (r : string) (post : list string)
    (fc : gmap string (gmap string (list string))) :
  cache_as_written fc →
  (∀ x, x ∈ pre → fc !! x = None) →
  is_Some (fc !! r) →
  Presence.notify isOnline now userId (pre ++ r :: post) fc
  = (fc, map (Views.friend_notice isOnline now userId) pre, Thrown TypeError).
Proof. apply notify_stops. Qed.

Lemma presence_notices_stop_at_cached_witness :
  Presence.notify false 900 "B" (["C"] ++ "A" :: ["D"])
    (<["A" := Friends.result [("B", true)]]> ∅)
  = (<["A" := Friends.result [("B", true)]]> ∅,
     [Views.friend_notice false 900 "B" "C"], Thrown TypeError).
Proof.
  apply (presence_notices_stop_at_cached false 900 "B" ["C"] "A" ["D"]
           (<["A" := Friends.result [("B", true)]]> ∅)).
  - intros u c [[<- <-]|[_ H]]%lookup_insert_Some; [by eexists|].
    by rewrite lookup_empty in H.
  - intros x ->%list_elem_of_singleton. by vm_compute.
  - rewrite lookup_insert_eq. by eexists.
Defined.

(** ** Leaving, disconnecting and joining *)

Section SessionFacts.

Lemma delete_sessions_of_lookup (userId u e : string)
    (ss : gmap (string * string) Session) :
  delete_sessions_of userId ss !! (e, u)
  = if decide (u = userId) then None else ss !! (e, u).
Proof.
  unfold delete_sessions_of. case_decide as Hu.
  - apply map_lookup_filter_None. right. intros r _ Hne. by apply Hne.
  - destruct (ss !! (e, u)) as [r|] eqn:Hr.
    + by apply map_lookup_filter_Some.
    + apply map_lookup_filter_None. by left.
Qed.

Lemma not_member_after_leave (room sid : string)
    (rooms : gmap string (gset string)) :
  sid ∉ members room (leave room sid rooms).
Proof.
  unfold members, leave. rewrite lookup_partial_alter_eq.
  destruct (rooms !! room) as [ms|]; simpl; [|set_solver].
  unfold prune. case_decide; simpl; [apply not_elem_of_empty|].
  intros [_ Hsid]%elem_of_difference. apply Hsid. by apply elem_of_singleton.
Qed.

End SessionFacts.

(** X6. A disconnect whose store statements are answered, for a user
    whom no cached friends list names: the user is out of the connection
    registry, has no cursor and no Membership left in any entry, and the
    cursors and Memberships of every other user are as before. *)
Theorem disconnect_removes_user (now : Z) (socket : Socket)
    (fails : query → bool) (s : State) :
  fails QMarkOffline = false →
  fails QWhoLists = false →
  fails QDeleteSessions = false →
  (∀ r, r ∈ who_lists (socket_userId socket) (friends (db s)) →
        friendsCache s !! r = None) →
  let userId := socket_userId socket in
  let s' := (onDisconnect now socket fails s).1 in
  connectedUsers s' !! userId = None
  ∧ (∀ u e, cursor s' u e
            = if decide (u = userId) then None else cursor s u e)
  ∧ (∀ u e, membership s' u e
            = if decide (u = userId) then None else membership s u e).
Proof.
  intros Hoff Hwho Hdel Hnone. cbn zeta.
  unfold onDisconnect, Presence.setUserOffline.
  rewrite Hoff, Hwho.
  cbn [db with_db friends with_connections friendsCache with_rooms
       with_connectedUsers].
  rewrite notify_uncached by done.
  match goal with |- context [clear_cursors ?a ?b ?c] =>
    change c with (cursorStore s) end.
  pose proof (clear_cursors_cursor socket (socket_userId socket)
                (cursorStore s)) as Hcur.
  destruct (clear_cursors socket (socket_userId socket) (cursorStore s))
    as [cs ms2]. cbn [fst] in Hcur.
  rewrite Hdel. cbn [fst]. split; [|split].
  - simpl. apply lookup_delete_eq.
  - intros u e. unfold cursor. simpl. apply Hcur.
  - intros u e. unfold membership. simpl. apply delete_sessions_of_lookup.
Qed.

Lemma disconnect_removes_user_witness :
  cursor (onDisconnect 600 Scenario.sockB all_ok Scenario.in_shared_entry).1
         "B" "E1" = None
  ∧ cursor Scenario.in_shared_entry "B" "E1"
    = Some (mkCursor "B" (JPoint 10 5) 500).
Proof.
  split; [|by vm_compute].
  pose proof (disconnect_removes_user 600 Scenario.sockB all_ok
                Scenario.in_shared_entry eq_refl eq_refl eq_refl) as H.
  destruct H as (_ & Hcur & _).
  - intros r Hr. exfalso.
    assert (Hf : who_lists (socket_userId Scenario.sockB)
                   (friends (db Scenario.in_shared_entry)) = [])
      by (vm_compute; reflexivity).
    rewrite Hf in Hr. by apply elem_of_nil in Hr.
  - by rewrite (Hcur "B" "E1").
Defined.

(** X7. A leave whose DELETE is answered removes the Membership and the
    cursor of (user, entry) and of no other pair, takes the socket out of
    the entry's room, and broadcasts one "entry_collab_leave" to the rest
    of the room; it does so whether or not the user had joined the
    entry. *)
Theorem leave_removes_pair (now : Z) (socket : Socket) (e0 : string)
    (fails : query → bool) (s : State) :
  truthy_id e0 = true →
  fails QDeleteSession = false →
  let userId := socket_userId socket in
  let r := onLeaveEntryRoom now socket e0 fails s in
  (∀ u e, membership r.1 u e
          = (if decide (e = e0 ∧ u = userId) then None else membership s u e))
  ∧ (∀ u e, cursor r.1 u e
            = (if decide (e = e0 ∧ u = userId) then None else cursor s u e))
  ∧ (socket_id socket ∉ members (room_of e0) (rooms r.1))
  ∧ r.2 = [ mkMessage (ToRoomExcept (room_of e0) (socket_id socket))
                      (Some "entry_collab_leave")
                      (PPresence e0 userId now) ].
Proof.
  intros Hid Hdel. cbn zeta. unfold onLeaveEntryRoom, leaveEntryRoom.
  rewrite Hid, Hdel. cbn [negb fst snd]. split; [|split; [|split]].
  - intros u e. unfold membership, delete_session. simpl.
    case_decide as Heq.
    + destruct Heq as [-> ->]. apply lookup_delete_eq.
    + apply lookup_delete_ne. intros [= <- <-]. by apply Heq.
  - intros u e. unfold cursor. simpl. apply drop_cursor_cursor.
  - simpl. apply not_member_after_leave.
  - reflexivity.
Qed.

Lemma leave_removes_pair_witness :
  membership (onLeaveEntryRoom 600 Scenario.sockB "E1" all_ok
                Scenario.in_shared_entry).1 "B" "E1" = None
  ∧ is_Some (membership Scenario.in_shared_entry "B" "E1").
Proof.
  split; [|vm_compute; by eexists].
  pose proof (leave_removes_pair 600 Scenario.sockB "E1" all_ok
                Scenario.in_shared_entry eq_refl eq_refl) as H.
  destruct H as (Hm & _). by rewrite (Hm "B" "E1").
Defined.

(** X8. The room change comes before the store statement and is not
    undone when the statement is rejected. A leave whose DELETE is
    rejected has taken the socket out of the room, and keeps the
    Membership rows and the cursor store as they were, with no broadcast;
    a join whose upsert is rejected has put the socket into the room,
    creates no Membership, and answers the sender with one error. *)
Theorem room_change_survives_store_failure (now : Z) (socket : Socket)
    (e0 : string) (fails : query → bool) (s : State) :
  truthy_id e0 = true →
  fails QDeleteSession = true →
  fails QUpsertSession = true →
  let l := onLeaveEntryRoom now socket e0 fails s in
  let j := onJoinEntryRoom now socket e0 fails s in
  (socket_id socket ∉ members (room_of e0) (rooms l.1))
  ∧ active_sessions (db l.1) = active_sessions (db s)
  ∧ cursorStore l.1 = cursorStore s
  ∧ l.2 = []
  ∧ (socket_id socket ∈ members (room_of e0) (rooms j.1))
  ∧ active_sessions (db j.1) = active_sessions (db s)
  ∧ j.2 = [ mkMessage (ToSocket (socket_id socket)) (Some "error")
                      (PThrown StoreError) ].
Proof.
  intros Hid Hdel Hup. cbn zeta.
  unfold onLeaveEntryRoom, leaveEntryRoom, onJoinEntryRoom, joinEntryRoom.
  rewrite Hid, Hdel, Hup. cbn [negb fst snd rooms with_rooms db].
  split; [apply not_member_after_leave|].
  do 3 (split; [reflexivity|]).
  split; [apply members_join|]. split; reflexivity.
Qed.

Lemma room_change_survives_store_failure_witness :
  (onLeaveEntryRoom 600 Scenario.sockB "E1" (λ _, true)
     Scenario.in_shared_entry).2 = []
  ∧ is_Some (membership
               (onLeaveEntryRoom 600 Scenario.sockB "E1" (λ _, true)
                  Scenario.in_shared_entry).1 "B" "E1").
Proof.
  pose proof (room_change_survives_store_failure 600 Scenario.sockB "E1"
                (λ _, true) Scenario.in_shared_entry eq_refl eq_refl eq_refl)
    as H.
  destruct H as (_ & Hss & _ & Hms & _).
  split; [exact Hms|]. unfold membership. rewrite Hss.
  vm_compute. by eexists.
Defined.

(** ** Where Memberships come from *)

Section MembershipFacts.

Lemma dispatch_membership now ev s u e :
  ¬ Views.joins u e ev →
  membership s u e = None →
  membership (dispatch now ev s).1 u e = None.
Proof.
  unfold membership. destruct ev; simpl; intros Hev Hnone.
  - by destruct (onConnection_frame now socket fails s)
      as (?&?&?&?&?&?&->&?).
  - unfold onJoinEntryRoom, joinEntryRoom.
    assert (Hup : upsert_session entryId0 (socket_userId socket) now
                    (active_sessions (db s)) !! (e, u) = None).
    { unfold upsert_session.
      destruct (active_sessions (db s) !! (entryId0, socket_userId socket));
        rewrite lookup_insert_ne; try done; intros [= <- <-]; apply Hev;
        by split. }
    repeat (case_match; simplify_eq/=; try done).
  - unfold onLeaveEntryRoom, leaveEntryRoom, delete_session.
    repeat (case_match; simplify_eq/=; try done).
    by apply lookup_delete_None; right.
  - unfold onEntryEdit.
    repeat (case_match; simplify_eq/=; try done).
  - unfold onCursorMove, handleCursorMove.
    repeat (case_match; simplify_eq/=; try done).
  - unfold onUserEditing, uncaught, userEditingEntry, userStatusEntry,
      set_status.
    repeat (case_match; simplify_eq/=; try done).
    by apply lookup_alter_None.
  - unfold onUserIdle, uncaught, userIdleEntry, userStatusEntry, set_status.
    repeat (case_match; simplify_eq/=; try done).
    by apply lookup_alter_None.
  - unfold onDisconnect.
    match goal with |- context [Presence.setUserOffline ?a ?b ?c ?d] =>
      pose proof (setUserOffline_frame a b c d) as Hoff;
      destruct (Presence.setUserOffline a b c d) as [[s1 ms1] o1] end.
    destruct Hoff as (?&?&?&?&?&?&?&?&Hss&?). simpl in *.
    destruct o1; [|simpl; by rewrite Hss].
    destruct (clear_cursors _ _ _) as [cs ms2].
    destruct (fails QDeleteSessions); simpl; rewrite ?Hss; [done|].
    rewrite delete_sessions_of_lookup. by case_decide.
  - unfold Heartbeat.onPong, Heartbeat.touch_sessions.
    repeat (case_match; simplify_eq/=; try done).
    rewrite map_lookup_imap, Hnone. done.
  - unfold Heartbeat.cleanupStaleSessions.
    repeat (case_match; simplify_eq/=; try done).
    apply map_lookup_filter_None. by left.
  - done.
  - unfold onStaleSocket, uncaught.
    pose proof (setUserOffline_frame now (socket_userId socket) fails s)
      as Hoff.
    destruct (Presence.setUserOffline _ _ _ _) as [[s1 ms1] o1].
    destruct Hoff as (?&?&?&?&?&?&?&?&Hss&?). simpl in *.
    destruct o1; simpl; by rewrite Hss.
  - done.
Qed.

Lemma step_membership now ev s u e :
  ¬ Views.joins u e ev →
  membership s u e = None →
  membership (step now ev s).1 u e = None.
Proof.
  intros Hev Hnone. unfold step, advance. destruct (exited s); [done|].
  destruct (fire_all_store (due_timers now (debounceMap s)) s) as [_ Hdb].
  destruct (fire_all _ s) as [s1 ms1]. cbn [fst] in Hdb.
  pose proof (dispatch_membership now ev s1 u e Hev) as Hd.
  destruct (dispatch now ev s1) as [s2 ms2]. cbn [fst] in *.
  apply Hd. unfold membership. by rewrite Hdb.
Qed.

End MembershipFacts.

(** X9. Only a join creates a Membership: along every trace without a
    join of the entry by the user, whatever the other users do and
    whatever the store rejects, a user without a Membership for the entry
    has none at the end. In particular "user_editing_entry" and
    "user_idle_entry" from a user who never joined are broadcast to the
    room and create no row. *)
Theorem membership_only_by_join (userId e0 : string)
    (tr : list (Z * Event)) : ∀ s : State,
  membership s userId e0 = None →
  Forall (λ te, ¬ Views.joins userId e0 te.2) tr →
  membership (run tr s).1 userId e0 = None.
Proof.
  induction tr as [|[now ev] tr IH]; intros s Hnone Hall; [done|].
  apply Forall_cons_1 in Hall as [Hev Hall]. cbn [run].
  pose proof (step_membership now ev s userId e0 Hev Hnone) as Hs.
  destruct (step now ev s) as [s1 ms1]. cbn [fst] in Hs.
  specialize (IH s1 Hs Hall). by destruct (run tr s1) as [s2 ms2].
Qed.

Lemma membership_only_by_join_witness :
  membership
    (run [ (700, UserEditingEntry Scenario.sockA "E2" all_ok);
           (800, EntryCursorMove Scenario.sockA "E2" (JPoint 1 1)) ]
         Scenario.in_shared_entry).1 "A" "E2" = None.
Proof.
  apply (membership_only_by_join "A" "E2"
           [ (700, UserEditingEntry Scenario.sockA "E2" all_ok);
             (800, EntryCursorMove Scenario.sockA "E2" (JPoint 1 1)) ]
           Scenario.in_shared_entry).
  - by vm_compute.
  - repeat constructor; simpl; tauto.
Defined.

(** ** The viewers sent to a joiner *)

Section ViewerFacts.

Lemma select_viewers_elem (e u : string) (st : Status)
    (ss : gmap (string * string) Session) :
  (u, st) ∈ select_viewers e ss
  ↔ ∃ r, ss !! (e, u) = Some r ∧ status r = st.
Proof.
  unfold select_viewers. rewrite list_elem_of_omap. split.
  - intros ([[e' u'] r] & Hin & Hf). apply elem_of_map_to_list in Hin.
    destruct (String.eqb_spec e' e) as [->|]; [|done].
    injection Hf as -> <-. by exists r.
  - intros (r & Hr & <-). exists ((e, u), r). split.
    + by apply elem_of_map_to_list.
    + by rewrite String.eqb_refl.
Qed.

End ViewerFacts.

(** X10. A join whose two statements are answered sends the joiner one
    "current_viewers" snapshot and the rest of the room one
    "user_viewing_entry"; the snapshot lists exactly the users with a
    Membership for the entry after the join, each with the status of its
    row, and so it lists the joiner, as viewing. *)
Theorem join_snapshot (now : Z) (socket : Socket) (e0 : string)
    (fails : query → bool) (s : State) :
  truthy_id e0 = true →
  fails QUpsertSession = false →
  fails QViewers = false →
  let userId := socket_userId socket in
  let r := onJoinEntryRoom now socket e0 fails s in
  ∃ rows,
    r.2 = [ mkMessage (ToSocket (socket_id socket)) (Some "current_viewers")
                      (PViewers e0 rows);
            mkMessage (ToRoomExcept (room_of e0) (socket_id socket))
                      (Some "user_viewing_entry")
                      (PPresence e0 userId now) ]
    ∧ (∀ u st, (u, st) ∈ rows
               ↔ ∃ x, membership r.1 u e0 = Some x ∧ status x = st)
    ∧ (userId, viewing) ∈ rows.
Proof.
  intros Hid Hup Hv. cbn zeta. unfold onJoinEntryRoom, joinEntryRoom.
  rewrite Hid, Hup, Hv. cbn [negb fst snd].
  eexists. split; [reflexivity|]. split.
  - intros u st. apply select_viewers_elem.
  - apply select_viewers_elem. simpl.
    destruct (upsert_session_lookup e0 (socket_userId socket) now
                (active_sessions (db s))) as (j & Hj).
    eexists. split; [exact Hj|done].
Qed.

Lemma join_snapshot_witness :
  ∃ rows,
    (onJoinEntryRoom 700 Scenario.sockA "E2" all_ok
       Scenario.in_shared_entry).2
    = [ mkMessage (ToSocket "sA") (Some "current_viewers")
                  (PViewers "E2" rows);
        mkMessage (ToRoomExcept (room_of "E2") "sA")
                  (Some "user_viewing_entry") (PPresence "E2" "A" 700) ]
    ∧ ("A", viewing) ∈ rows.
Proof.
  destruct (join_snapshot 700 Scenario.sockA "E2" all_ok
              Scenario.in_shared_entry eq_refl eq_refl eq_refl)
    as (rows & Hms & _ & Hin).
  exists rows. by split.
Defined.

(** ** Pending edits *)

(** X11. A disconnect does not cancel the pending edit of its socket: the
    disconnect handler leaves [debounceMap] alone, so a timer that is not
    yet due when the socket disconnects is still pending afterwards,
    whatever the store rejects, and when it is due its callback relays the
    edit on behalf of the socket that is gone. *)
Theorem disconnect_keeps_pending_edit (now : Z) (socket : Socket)
    (fails : query → bool) (s : State) (tm : Timeout) :
  debounceMap s !! socket_id socket = Some tm →
  now < due tm →
  let s' := (step now (Disconnect socket fails) s).1 in
  debounceMap s' !! socket_id socket = Some tm
  ∧ List.filter (relay_from (socket_id socket)) (advance (due tm) s').2
    = [timer_relay (socket_id socket) tm].
Proof.
  intros Hdm Hdue. cbn zeta.
  assert (Hkept : debounceMap (step now (Disconnect socket fails) s).1
                    !! socket_id socket = Some tm).
  { destruct (exited s) eqn:Hs; [by rewrite step_exited|].
    assert (Hex : exited (step now (Disconnect socket fails) s).1 = false).
    { unfold step. rewrite Hs.
      pose proof (fire_all_exited (due_timers now (debounceMap s)) s) as Ha.
      fold (advance now s) in Ha.
      destruct (advance now s) as [s1 ms1]. cbn [fst dispatch] in *.
      destruct (onDisconnect_frame now socket fails s1)
        as (_&_&_&_&_&_&Hx).
      destruct (onDisconnect now socket fails s1) as [s2 ms2].
      cbn [fst] in *. congruence. }
    pose proof (step_other_sid now (Disconnect socket fails) s
                  (socket_id socket) I Hex) as Hstep.
    rewrite Hdm in Hstep. rewrite decide_False in Hstep by lia.
    by destruct Hstep as [_ Hkept]. }
  split; [exact Hkept|].
  pose proof (advance_sid (due tm)
                (step now (Disconnect socket fails) s).1 (socket_id socket))
    as Hadv.
  rewrite Hkept in Hadv. rewrite decide_True in Hadv by lia.
  by destruct Hadv.
Qed.

Lemma disconnect_keeps_pending_edit_witness :
  List.filter (relay_from "sA")
    (advance 1500
       (step 1200 (Disconnect Scenario.sockA all_ok) Scenario.editing_E1).1).2
  = [ relay_of Scenario.sockA
        (mkEditEvent "E1" (JStr "a") (JStr "update") JUndefined 1000) 1500 ].
Proof.
  apply (disconnect_keeps_pending_edit 1200 Scenario.sockA all_ok
           Scenario.editing_E1
           (mkTimeout 0 1500 (room_of "E1") "E1" (JStr "a") (JStr "update")
                      JUndefined "A")).
  - reflexivity.
  - reflexivity.
Defined.

(** X12. After the timers due by [now] have run, every timer still
    pending is due later than [now], and running the timers due by [now]
    again changes nothing and emits nothing. *)
Theorem advance_settles (now : Z) (s : State) :
  (∀ sid tm, debounceMap (advance now s).1 !! sid = Some tm → now < due tm)
  ∧ advance now (advance now s).1 = ((advance now s).1, []).
Proof.
  assert (Hlate : ∀ sid tm, debounceMap (advance now s).1 !! sid = Some tm →
                            now < due tm).
  { intros sid tm Hp. pose proof (advance_sid now s sid) as Hadv.
    destruct (debounceMap s !! sid) as [tm0|].
    - case_decide as Hdue.
      + destruct Hadv as [_ Hn]. congruence.
      + destruct Hadv as [_ Hk]. rewrite Hk in Hp. simplify_eq. lia.
    - destruct Hadv as [_ Hn]. congruence. }
  split; [exact Hlate|].
  unfold advance at 1.
  destruct (due_timers now (debounceMap (advance now s).1))
    as [|[sid tm] l] eqn:Hl; [done|].
  assert (Hin : (sid, tm) ∈ due_timers now (debounceMap (advance now s).1)).
  { rewrite Hl. by left. }
  apply due_timers_elem in Hin as [Hp Hdue].
  apply Hlate in Hp. lia.
Qed.

(** ** More on the rate limiter *)

Section RateLimitBounds.

Import RateLimit.

Lemma admissions_cons (r : bool) (rs : list bool) :
  Views.admissions (r :: rs)
  = ((if r then 1 else 0) + Views.admissions rs)%nat.
Proof. unfold Views.admissions. by destruct r. Qed.

(** Inside one window at most [RATE_LIMIT - k] further calls pass. *)
Lemma ticks_window_bound t0 ts : ∀ k,
  0 ≤ k →
  Forall (λ t, t - t0 ≤ windowMs) ts →
  Z.of_nat (Views.admissions (ticks ts (Some (mkRateData k t0))).1)
  ≤ Z.max 0 (RATE_LIMIT - k).
Proof.
  induction ts as [|t ts IH]; intros k Hk Hall.
  - unfold Views.admissions. simpl. lia.
  - apply Forall_cons_1 in Hall as [Ht Hts].
    cbn [ticks]. rewrite tick_same_window by done.
    specialize (IH (k + 1) ltac:(lia) Hts).
    destruct (ticks ts _) as [rs od]. cbn [fst] in *.
    rewrite admissions_cons. unfold RATE_LIMIT in *.
    destruct (Z.gtb_spec (k + 1) 10); lia.
Qed.

(** Calls that all fall in a span of [windowMs] meet at most two
    windows. *)
Lemma ticks_span_bound lo ts : ∀ d,
  0 ≤ count d →
  Forall (λ t, lo ≤ t ≤ lo + windowMs) ts →
  Z.of_nat (Views.admissions (ticks ts (Some d)).1)
  ≤ Z.max 0 (RATE_LIMIT - count d) + RATE_LIMIT.
Proof.
  induction ts as [|t ts IH]; intros [k t0] Hk Hall.
  - unfold Views.admissions, RATE_LIMIT. simpl. lia.
  - apply Forall_cons_1 in Hall as [Ht Hts]. cbn [count] in *.
    cbn [ticks].
    destruct (decide (t - t0 ≤ windowMs)) as [Hin|Hout].
    + rewrite tick_same_window by done.
      specialize (IH (mkRateData (k + 1) t0) ltac:(simpl; lia) Hts).
      destruct (ticks ts _) as [rs od]. cbn [fst count] in *.
      rewrite admissions_cons. unfold RATE_LIMIT in *.
      destruct (Z.gtb_spec (k + 1) 10); lia.
    + rewrite (tick_new_window t (Some (mkRateData k t0)))
        by (simpl; lia).
      assert (Hw : Forall (λ t', t' - t ≤ windowMs) ts).
      { eapply Forall_impl; [exact Hts|]. simpl. intros t'. lia. }
      pose proof (ticks_window_bound t ts 1 ltac:(lia) Hw) as Hb.
      destruct (ticks ts _) as [rs od]. cbn [fst] in *.
      rewrite admissions_cons. unfold RATE_LIMIT in *. lia.
Qed.

End RateLimitBounds.

(** X13. A user is rate-limited as if alone: the answers given to
    [userId], and the entry kept for it, depend only on the times of that
    user's own calls and on the entry it had; the calls of other users,
    however interleaved, neither use up nor renew its budget. *)
Theorem rate_limit_isolation (userId : string)
    (tr tr' : list (string * Z))
    (m m' : gmap string RateLimit.RateData) :
  m !! userId = m' !! userId →
  RateLimit.calls userId tr = RateLimit.calls userId tr' →
  RateLimit.answers userId (RateLimit.run tr m).1
  = RateLimit.answers userId (RateLimit.run tr' m').1
  ∧ (RateLimit.run tr m).2 !! userId = (RateLimit.run tr' m').2 !! userId.
Proof.
  intros Hm Hcalls.
  destruct (run_ticks userId tr m) as [-> ->].
  destruct (run_ticks userId tr' m') as [-> ->].
  by rewrite Hm, Hcalls.
Qed.

Lemma rate_limit_isolation_witness :
  RateLimit.answers "A"
    (RateLimit.run [("A", 1000); ("B", 1001); ("B", 1002); ("A", 1003)] ∅).1
  = RateLimit.answers "A" (RateLimit.run [("A", 1000); ("A", 1003)] ∅).1.
Proof.
  apply (rate_limit_isolation "A"
           [("A", 1000); ("B", 1001); ("B", 1002); ("A", 1003)]
           [("A", 1000); ("A", 1003)] ∅ ∅); reflexivity.
Defined.

(** X14. The window is fixed, not sliding: among the calls of one user
    that fall within any span of 1000 ms, at most twice [RATE_LIMIT] are
    admitted (the calls can straddle the end of one window and the start
    of the next), whatever the other users do. The entry the user starts
    with has a count that is not negative, as every entry written by
    [checkRateLimit] has. *)
Theorem rate_limit_span_bound (userId : string) (lo : Z)
    (tr : list (string * Z)) (m : gmap string RateLimit.RateData) :
  match m !! userId with
  | Some d => 0 ≤ RateLimit.count d
  | None => True
  end →
  Forall (λ t, lo ≤ t ≤ lo + RateLimit.windowMs) (RateLimit.calls userId tr) →
  Z.of_nat (Views.admissions
              (RateLimit.answers userId (RateLimit.run tr m).1))
  ≤ 2 * RateLimit.RATE_LIMIT.
Proof.
  intros Hcount Hall. destruct (run_ticks userId tr m) as [-> _].
  destruct (m !! userId) as [d|].
  - pose proof (ticks_span_bound lo _ d Hcount Hall) as Hb.
    unfold RateLimit.RATE_LIMIT in *. lia.
  - destruct (RateLimit.calls userId tr) as [|t ts]; [by vm_compute|].
    apply Forall_cons_1 in Hall as [Ht Hts]. cbn [RateLimit.ticks].
    rewrite (tick_new_window t None) by done.
    assert (Hw : Forall (λ t', t' - t ≤ RateLimit.windowMs) ts).
    { eapply Forall_impl; [exact Hts|]. simpl. intros t'. lia. }
    pose proof (ticks_window_bound t ts 1 ltac:(lia) Hw) as Hb.
    destruct (RateLimit.ticks ts _) as [rs od]. cbn [fst] in *.
    rewrite admissions_cons. unfold RateLimit.RATE_LIMIT in *. lia.
Qed.

Lemma rate_limit_span_bound_witness :
  Z.of_nat (Views.admissions
              (RateLimit.answers "A"
                 (RateLimit.run
                    (map (λ _, ("A", 2000)) (seq 0 12)
                     ++ map (λ _, ("A", 2001)) (seq 0 12))%list
                    (<["A" := RateLimit.mkRateData 1 1000]> ∅)).1))
  ≤ 2 * RateLimit.RATE_LIMIT.
Proof.
  apply (rate_limit_span_bound "A" 2000
           (map (λ _, ("A", 2000)) (seq 0 12)
            ++ map (λ _, ("A", 2001)) (seq 0 12))%list
           (<["A" := RateLimit.mkRateData 1 1000]> ∅)).
  - rewrite lookup_insert_eq. simpl. lia.
  - vm_compute. repeat constructor; discriminate.
Defined.

(** ** The friends list *)

Section FriendsListFacts.

Lemma partition_fst_Permutation (rows : list (string * bool)) :
  (map fst (List.filter (λ r, r.2) rows)
   ++ map fst (List.filter (λ r, negb r.2) rows))%list ≡ₚ map fst rows.
Proof.
  induction rows as [|[f [|]] rows IH]; simpl; [done| |].
  - by rewrite IH.
  - rewrite <- Permutation_middle. by rewrite IH.
Qed.

Lemma elem_of_filter_fst (b : bool) (f : string)
    (rows : list (string * bool)) :
  f ∈ map fst (List.filter (λ r, if b then r.2 else negb r.2) rows)
  ↔ (f, b) ∈ rows.
Proof.
  induction rows as [|[f' b'] rows IH]; simpl.
  - split; intros H; by apply elem_of_nil in H.
  - rewrite elem_of_cons. destruct b, b'; simpl;
      rewrite ?elem_of_cons, IH; split; intros H;
      try (destruct H as [H|H]; [left; congruence|by right]);
      try (right; done);
      try (destruct H as [H|H]; [congruence|done]).
Qed.

Lemma friends_with_status_fst userId t :
  map fst (friends_with_status userId t) = friends_of userId (friends t).
Proof.
  unfold friends_with_status. rewrite map_map. simpl. apply map_id.
Qed.

Lemma online_rows_fst userId t :
  map (λ r, r.1.1) (OnlineFriends.rows userId t)
  = map fst (List.filter (λ r, r.2) (friends_with_status userId t)).
Proof.
  unfold OnlineFriends.rows, friends_with_status.
  induction (friends_of userId (friends t)) as [|f fs IH]; [done|].
  simpl. destruct (ws_connections t !! f) as [c|]; simpl; [|exact IH].
  destruct (online c); simpl; [f_equal|]; exact IH.
Qed.

End FriendsListFacts.

(** X15. On a cache miss with the query answered, [sendFriendsList]
    caches and sends one and the same object; its two arrays together hold
    the friends of the user, one element per row of the friends table, and
    a friend is in [onlineFriends] exactly when its [ws_connections] row
    says online (a friend without a row counts as offline). *)
Theorem friends_list_on_miss (now : Z) (socket : Socket) (userId : string)
    (fails : query → bool) (s : State) :
  friendsCache s !! userId = None →
  fails QFriendsWithStatus = false →
  ∃ on off cached,
    Friends.sendFriendsList now socket userId fails s
    = (with_friendsCache (<[userId := cached]> (friendsCache s)) s,
       [ mkMessage (ToSocket (socket_id socket)) (Some "friends_list")
                   (PFriendsList cached now) ],
       Returned)
    ∧ cached !! "onlineFriends" = Some on
    ∧ cached !! "offlineFriends" = Some off
    ∧ (on ++ off)%list ≡ₚ friends_of userId (friends (db s))
    ∧ ∀ f, f ∈ on
           ↔ f ∈ friends_of userId (friends (db s))
             ∧ ∃ c, ws_connections (db s) !! f = Some c ∧ online c = true.
Proof.
  intros Hmiss Hq. unfold Friends.sendFriendsList. rewrite Hmiss, Hq.
  set (rows := friends_with_status userId (db s)).
  exists (map fst (List.filter (λ r, r.2) rows)),
         (map fst (List.filter (λ r, negb r.2) rows)),
         (Friends.result rows).
  split; [reflexivity|]. split; [|split; [|split]].
  - unfold Friends.result. by rewrite lookup_insert_ne, lookup_insert_eq.
  - unfold Friends.result. by rewrite lookup_insert_eq.
  - rewrite partition_fst_Permutation. unfold rows.
    by rewrite friends_with_status_fst.
  - intros f. rewrite (elem_of_filter_fst true). unfold rows.
    unfold friends_with_status. rewrite list_elem_of_fmap. split.
    + intros (f' & [= -> Hon] & Hin). split; [done|].
      destruct (ws_connections (db s) !! f') as [c|]; [|done].
      by exists c.
    + intros (Hin & c & Hc & Hon). exists f. split; [|done].
      by rewrite Hc, Hon.
Qed.

Lemma friends_list_on_miss_witness :
  ∃ (on off : list string) (cached : gmap string (list string)),
    Friends.sendFriendsList 100 Scenario.sockA "A" all_ok
      (initial Scenario.friend_tables)
    = (with_friendsCache (<["A" := cached]> ∅)
         (initial Scenario.friend_tables),
       [ mkMessage (ToSocket "sA") (Some "friends_list")
                   (PFriendsList cached 100) ],
       Returned)
    ∧ (on ++ off)%list ≡ₚ ["B"].
Proof.
  destruct (friends_list_on_miss 100 Scenario.sockA "A" all_ok
              (initial Scenario.friend_tables) eq_refl eq_refl)
    as (on & off & cached & Hsend & _ & _ & Hperm & _).
  exists on, off, cached. split; [exact Hsend|exact Hperm].
Defined.

(** X16. [getOnlineFriends] and [sendFriendsList] agree: with the query
    answered, the friend ids of the rows [getOnlineFriends] returns are
    the [onlineFriends] array that [sendFriendsList] builds from the same
    tables (both queries reading the friends table in the same order), and
    each row carries the socket id of the friend's [ws_connections] row;
    with the query rejected it returns no row and throws nothing. *)
Theorem getOnlineFriends_agrees (userId : string) (t : Tables) :
  Friends.result (friends_with_status userId t) !! "onlineFriends"
  = Some (map (λ r, r.1.1) (OnlineFriends.getOnlineFriends userId false t))
  ∧ Forall (λ r, r.2 = true
                 ∧ ∃ c, ws_connections t !! r.1.1 = Some c
                        ∧ conn_socket_id c = r.1.2 ∧ online c = true)
           (OnlineFriends.getOnlineFriends userId false t)
  ∧ OnlineFriends.getOnlineFriends userId true t = [].
Proof.
  split; [|split; [|reflexivity]].
  - unfold Friends.result, OnlineFriends.getOnlineFriends.
    rewrite lookup_insert_ne, lookup_insert_eq by done.
    by rewrite online_rows_fst.
  - unfold OnlineFriends.getOnlineFriends, OnlineFriends.rows.
    apply Forall_forall. intros [[f sid] b] Hin.
    apply list_elem_of_omap in Hin as (f' & _ & Hf).
    destruct (ws_connections t !! f') as [c|] eqn:Hc; [|done].
    destruct (online c) eqn:Hon; [|done].
    injection Hf as -> <- <-. simpl. split; [done|]. by exists c.
Qed.

(** ** The connection registry *)

Section RegistryFacts.

Lemma onConnection_registers now socket fails s :
  truthy_id (socket_userId socket) = true →
  connectedUsers (onConnection now socket fails s).1
  = obj_set (socket_userId socket) (socket_id socket) (connectedUsers s).
Proof.
  intros Hid. unfold onConnection. rewrite Hid. cbn [negb].
  match goal with |- context [Presence.setUserOnline ?a ?b ?c ?d ?e] =>
    pose proof (setUserOnline_frame a b c d e) as Hon;
    destruct (Presence.setUserOnline a b c d e) as [[s1 ms1] o1] end.
  destruct Hon as (_&Hc1&_). simpl in Hc1.
  destruct o1 as [|e1]; [|done].
  match goal with |- context [Friends.sendFriendsList ?a ?b ?c ?d ?e] =>
    pose proof (sendFriendsList_frame a b c d e) as Hfl;
    destruct (Friends.sendFriendsList a b c d e) as [[s2 ms2] o2] end.
  destruct Hfl as (_&Hc2&_). simpl in Hc2.
  destruct o2 as [|e2]; [|simpl; congruence].
  destruct (fails QFriendsOf); [simpl; congruence|].
  destruct (fails QSessionsOf); simpl; congruence.
Qed.

Lemma onDisconnect_unregisters now socket fails s :
  connectedUsers (onDisconnect now socket fails s).1
  = delete (socket_userId socket) (connectedUsers s).
Proof.
  unfold onDisconnect.
  match goal with |- context [Presence.setUserOffline ?a ?b ?c ?d] =>
    pose proof (setUserOffline_frame a b c d) as Hoff;
    destruct (Presence.setUserOffline a b c d) as [[s1 ms1] o1] end.
  destruct Hoff as (_&Hc&_). simpl in Hc.
  destruct o1; [|done].
  destruct (clear_cursors _ _ _) as [cs ms2].
  by destruct (fails QDeleteSessions).
Qed.

End RegistryFacts.

(** X17. The connection registry is a plain object keyed by the user
    alone. A connection with a user id assigns its socket id to the
    property named by the user id, whatever the store rejects: for
    every user id but "__proto__" the registry then holds the socket id
    as an own property, and for "__proto__" the assignment of a string
    stores nothing. The disconnect of any socket of that user, such as
    an earlier connection of the same user, deletes the own property
    without looking at the socket id it holds, so the user's live socket
    is no longer in the registry; a later read under the user id then
    finds nothing, unless the id is the name of a member of
    [Object.prototype], which the read still finds. *)
Theorem registry_keyed_by_user (t1 t2 : Z) (old new : Socket)
    (f1 f2 : query → bool) (s : State) :
  truthy_id (socket_userId new) = true →
  socket_userId old = socket_userId new →
  let u := socket_userId new in
  let s1 := (onConnection t1 new f1 s).1 in
  let s2 := (onDisconnect t2 old f2 s1).1 in
  connectedUsers s1 = obj_set u (socket_id new) (connectedUsers s)
  ∧ (u ≠ "__proto__" →
     connectedUsers s1 !! u = Some (socket_id new)
     ∧ obj_get u (connectedUsers s1) = Some (Own (socket_id new)))
  ∧ (u = "__proto__" → connectedUsers s1 = connectedUsers s)
  ∧ connectedUsers s2 = delete u (connectedUsers s1)
  ∧ obj_get u (connectedUsers s2)
    = if bool_decide (u ∈ OBJECT_PROTOTYPE) then Some (Inherited u) else None.
Proof.
  intros Hid Hsame. cbn zeta.
  rewrite onDisconnect_unregisters, Hsame, onConnection_registers by done.
  split; [done|]. split; [|split; [|split; [done|]]].
  - intros Hne. unfold obj_set, obj_get.
    destruct (String.eqb_spec (socket_userId new) "__proto__"); [done|].
    by rewrite lookup_insert_eq.
  - intros Heq. unfold obj_set. by rewrite Heq.
  - unfold obj_get. by rewrite lookup_delete_eq.
Qed.

(** A second connection of A registers "sA2"; the disconnect of A's
    first socket then removes A from the registry. *)
Lemma registry_keyed_by_user_witness :
  obj_get "A"
    (connectedUsers
       (onConnection 700 (mkSocket "sA2" "A") all_ok
          Scenario.in_shared_entry).1) = Some (Own "sA2")
  ∧ obj_get "A"
      (connectedUsers
         (onDisconnect 800 Scenario.sockA all_ok
            (onConnection 700 (mkSocket "sA2" "A") all_ok
               Scenario.in_shared_entry).1).1) = None.
Proof.
  destruct (registry_keyed_by_user 700 800 Scenario.sockA
              (mkSocket "sA2" "A") all_ok all_ok Scenario.in_shared_entry
              eq_refl eq_refl) as (_ & Hown & _ & _ & Hgone).
  split; [by apply Hown|exact Hgone].
Defined.

(** A user whose id is "constructor" or "__proto__": after the
    disconnect the registry has no own property under the id, and the
    read of the connection handler still finds a member of
    [Object.prototype]; the connection of "__proto__" registers
    nothing. *)
Lemma registry_finds_prototype_members :
  obj_get "constructor"
    (connectedUsers
       (onDisconnect 800 (mkSocket "s1" "constructor") all_ok
          (onConnection 700 (mkSocket "s1" "constructor") all_ok
             (initial Scenario.empty_tables)).1).1)
  = Some (Inherited "constructor")
  ∧ connectedUsers
      (onConnection 700 (mkSocket "s1" "__proto__") all_ok
         (initial Scenario.empty_tables)).1 = ∅.
Proof. split; vm_compute; reflexivity. Qed.

(** ** State requests *)

(** X18. A state request (or desync report) that names an entry is
    answered with exactly one "state_response", sent to the requester
    alone, and never throws. The response carries the state (the content
    and update time of the entry's row, the viewers of the entry and the
    server time) exactly when the entry exists and both queries are
    answered; otherwise it carries an error text, which is "Entry not
    found" exactly when the first query was answered without a row, and
    "Failed to fetch state" in every other case, that is when the first
    query was rejected, or the entry exists and the second query was
    rejected. A request that names no entry is dropped without an
    answer. *)
Theorem state_request_reply (now : Z) (socket : Socket) (e0 : string)
    (entries : gmap string StateRequest.DiaryEntry)
    (entry_rejected viewers_rejected : bool) (s : State) :
  (truthy_id e0 = false →
   StateRequest.onStateRequest now socket e0 entries entry_rejected
     viewers_rejected s = [])
  ∧ (truthy_id e0 = true →
     ∃ body,
       StateRequest.onStateRequest now socket e0 entries entry_rejected
         viewers_rejected s
       = [StateRequest.mkReply (socket_id socket) (Some "state_response")
                               body]
       ∧ match body with
         | StateRequest.Found e c u vs t =>
             entry_rejected = false ∧ viewers_rejected = false
             ∧ (∃ entry, entries !! e0 = Some entry
                         ∧ c = StateRequest.entry_content entry
                         ∧ u = StateRequest.entry_updated_at entry)
             ∧ e = e0 ∧ t = now
             ∧ vs = select_viewers e0 (active_sessions (db s))
         | StateRequest.Failed e msg =>
             e = e0
             ∧ (entry_rejected = true ∨ entries !! e0 = None
                ∨ viewers_rejected = true)
             ∧ (msg = "Entry not found"
                ↔ entry_rejected = false ∧ entries !! e0 = None)
             ∧ (msg = "Failed to fetch state"
                ↔ entry_rejected = true
                  ∨ (is_Some (entries !! e0) ∧ viewers_rejected = true))
             ∧ (msg = "Entry not found" ∨ msg = "Failed to fetch state")
         end).
Proof.
  unfold StateRequest.onStateRequest, StateRequest.handleStateRequest.
  split; intros ->; [done|]. cbn [negb].
  destruct entry_rejected.
  { eexists. split; [reflexivity|]. simpl. rewrite is_Some_alt.
    intuition congruence. }
  destruct (entries !! e0) as [entry|] eqn:He.
  - destruct viewers_rejected.
    + eexists. split; [reflexivity|]. simpl. rewrite is_Some_alt.
      intuition congruence.
    + eexists. split; [reflexivity|]. simpl. repeat split; try done.
      by exists entry.
  - eexists. split; [reflexivity|]. simpl. rewrite is_Some_alt.
    intuition congruence.
Qed.

(** ** Heartbeats and stale sessions *)

Section HeartbeatFacts.

Import Heartbeat.

Lemma touch_sessions_lookup (userId : string) (now : Z) (k : string * string)
    (ss : gmap (string * string) Session) :
  touch_sessions userId now ss !! k
  = (λ r, if decide (k.2 = userId)
          then mkSession (status r) (joined_at r) now else r) <$> ss !! k.
Proof.
  unfold touch_sessions. rewrite map_lookup_imap.
  by destruct (ss !! k).
Qed.

End HeartbeatFacts.

(** X19. A heartbeat answer keeps the sessions of its user from the
    cleanup of stale sessions, as long as both its statements are
    answered: a row of the user, however old, touched by a pong at [t] is
    still there, with its status and join time, after a cleanup that runs
    at most ten minutes after [t]. The two UPDATEs share one try block: a
    pong whose first statement is rejected refreshes no session row, and
    the cleanup then deletes the stale row of a user who did answer. *)
Theorem pong_keeps_sessions (t t' : Z) (userId e0 : string) (tb : Tables)
    (r : Session) (sessions_rejected : bool) :
  active_sessions tb !! (e0, userId) = Some r →
  t' - t ≤ Heartbeat.STALE_SESSION_MS →
  last_seen r < t' - Heartbeat.STALE_SESSION_MS →
  active_sessions
    (Heartbeat.cleanupStaleSessions t' false
       (Heartbeat.onPong t userId false false tb)) !! (e0, userId)
  = Some (mkSession (status r) (joined_at r) t)
  ∧ active_sessions
      (Heartbeat.cleanupStaleSessions t' false
         (Heartbeat.onPong t userId true sessions_rejected tb))
      !! (e0, userId)
    = None.
Proof.
  intros Hr Hfresh Hstale.
  unfold Heartbeat.cleanupStaleSessions, Heartbeat.onPong. simpl. split.
  - apply map_lookup_filter_Some. split.
    + rewrite touch_sessions_lookup, Hr. simpl. by rewrite decide_True.
    + simpl. lia.
  - apply map_lookup_filter_None. right. intros r' Hr' Hkeep.
    rewrite Hr in Hr'. injection Hr' as <-. simpl in Hkeep. lia.
Qed.

Lemma pong_keeps_sessions_witness :
  active_sessions
    (Heartbeat.cleanupStaleSessions 900000 false
       (Heartbeat.onPong 800000 "B" false false
          (db Scenario.in_shared_entry))) !! ("E1", "B")
  = Some (mkSession viewing 400 800000)
  ∧ active_sessions
      (Heartbeat.cleanupStaleSessions 900000 false
         (Heartbeat.onPong 800000 "B" true false
            (db Scenario.in_shared_entry))) !! ("E1", "B")
    = None.
Proof.
  apply (pong_keeps_sessions 800000 900000 "B" "E1"
           (db Scenario.in_shared_entry) (mkSession viewing 400 400) false).
  - by vm_compute.
  - by vm_compute.
  - by vm_compute.
Defined.

(** ** The presence hook of the client *)

Section UsePresenceFacts.

Import UsePresence.

Lemma includes_elem (x : string) (l : list string) :
  FriendsCache.includes x l = true ↔ x ∈ l.
Proof.
  unfold FriendsCache.includes. induction l as [|y l IH]; simpl.
  - split; [done|]. intros H. by apply elem_of_nil in H.
  - rewrite orb_true_iff, IH, elem_of_cons.
    destruct (String.eqb_spec x y); intuition congruence.
Qed.

Lemma without_elem (x y : string) (l : list string) :
  y ∈ FriendsCache.without x l ↔ y ∈ l ∧ y ≠ x.
Proof.
  unfold FriendsCache.without. induction l as [|z l IH]; simpl.
  - split; [intros H; by apply elem_of_nil in H|].
    intros [H _]. by apply elem_of_nil in H.
  - destruct (String.eqb_spec z x) as [->|Hne]; simpl;
      rewrite ?elem_of_cons, IH; intuition congruence.
Qed.

Lemma without_NoDup (x : string) (l : list string) :
  NoDup l → NoDup (FriendsCache.without x l).
Proof.
  induction 1 as [|z l Hz Hl IH]; simpl; [constructor|].
  destruct (String.eqb_spec z x); simpl; [done|].
  constructor; [|done]. rewrite without_elem. tauto.
Qed.

Lemma push_new_NoDup (x : string) (l : list string) :
  NoDup l →
  NoDup (if FriendsCache.includes x l then l else (l ++ [x])%list).
Proof.
  intros Hl. destruct (FriendsCache.includes x l) eqn:Hin; [done|].
  apply NoDup_app. split; [done|]. split; [|apply NoDup_singleton].
  intros y Hy ->%list_elem_of_singleton.
  apply includes_elem in Hy. congruence.
Qed.

Lemma push_new_elem (x y : string) (l : list string) :
  y ∈ (if FriendsCache.includes x l then l else (l ++ [x])%list)
  ↔ y ∈ l ∨ y = x.
Proof.
  destruct (FriendsCache.includes x l) eqn:Hin.
  - apply includes_elem in Hin. split; [by left|].
    intros [H| ->]; done.
  - rewrite elem_of_app, list_elem_of_singleton. done.
Qed.

Lemma receive_consistent ev v : consistent v → consistent (receive ev v).
Proof.
  intros (Hon & Hoff & Hdisj).
  destruct ev as [u|u]; simpl; unfold handleFriendOnline, handleFriendOffline;
    (split; [|split]); simpl.
  - by apply push_new_NoDup.
  - by apply without_NoDup.
  - intros x. rewrite push_new_elem, without_elem.
    intros [Hx| ->] [Hx' Hne]; [by apply (Hdisj x)|done].
  - by apply without_NoDup.
  - by apply push_new_NoDup.
  - intros x. rewrite push_new_elem, without_elem.
    intros [Hx Hne] [Hx'| ->]; [by apply (Hdisj x)|done].
Qed.

(** An event about another user leaves the place of [u] alone. *)
Lemma receive_other ev u v :
  Views.subject ev ≠ u →
  (u ∈ onlineUsers (receive ev v) ↔ u ∈ onlineUsers v)
  ∧ (u ∈ offlineUsers (receive ev v) ↔ u ∈ offlineUsers v).
Proof.
  destruct ev as [x|x]; simpl; intros Hne;
    rewrite push_new_elem, without_elem; intuition congruence.
Qed.

Lemma receive_all_other evs u : ∀ v,
  Forall (λ ev, Views.subject ev ≠ u) evs →
  (u ∈ onlineUsers (receive_all evs v) ↔ u ∈ onlineUsers v)
  ∧ (u ∈ offlineUsers (receive_all evs v) ↔ u ∈ offlineUsers v).
Proof.
  induction evs as [|ev evs IH]; intros v Hall; [done|].
  apply Forall_cons_1 in Hall as [Hev Hall].
  unfold receive_all in *. cbn [fold_left].
  destruct (IH (receive ev v) Hall) as [-> ->].
  by apply receive_other.
Qed.

End UsePresenceFacts.

(** X20. The presence hook keeps its two lists consistent: starting from
    lists in which no friend appears twice and none appears as both online
    and offline, every sequence of "friend_online" and "friend_offline"
    events leaves lists with the same property. *)
Theorem presence_view_consistent (evs : list UsePresence.PresenceEvent) :
  ∀ v : UsePresence.View,
  UsePresence.consistent v →
  UsePresence.consistent (UsePresence.receive_all evs v).
Proof.
  induction evs as [|ev evs IH]; intros v Hv; [done|].
  unfold UsePresence.receive_all in *. cbn [fold_left].
  apply IH. by apply receive_consistent.
Qed.

Lemma presence_view_consistent_witness :
  UsePresence.consistent
    (UsePresence.receive_all
       [ UsePresence.FriendOnline "B"; UsePresence.FriendOffline "B";
         UsePresence.FriendOnline "B" ]
       UsePresence.initial).
Proof.
  apply (presence_view_consistent
           [ UsePresence.FriendOnline "B"; UsePresence.FriendOffline "B";
             UsePresence.FriendOnline "B" ] UsePresence.initial).
  split; [constructor|]. split; [constructor|].
  intros u Hu. by apply elem_of_nil in Hu.
Defined.

(** X21. In the presence hook the last event about a friend decides:
    after any events, a "friend_online" for [u] followed by events about
    other users only leaves [u] in the online list and not in the offline
    list, and a "friend_offline" for [u] leaves it in the offline list and
    not in the online list, whatever the lists were before. *)
Theorem presence_last_event_wins (pre post : list UsePresence.PresenceEvent)
    (u : string) (v : UsePresence.View) :
  Forall (λ ev, Views.subject ev ≠ u) post →
  let v1 := UsePresence.receive_all
              (pre ++ UsePresence.FriendOnline u :: post) v in
  let v2 := UsePresence.receive_all
              (pre ++ UsePresence.FriendOffline u :: post) v in
  u ∈ UsePresence.onlineUsers v1 ∧ (u ∉ UsePresence.offlineUsers v1)
  ∧ u ∈ UsePresence.offlineUsers v2 ∧ (u ∉ UsePresence.onlineUsers v2).
Proof.
  intros Hpost. cbn zeta. unfold UsePresence.receive_all.
  rewrite !fold_left_app. cbn [fold_left].
  fold (UsePresence.receive_all pre v).
  set (v0 := UsePresence.receive_all pre v).
  fold (UsePresence.receive_all post
          (UsePresence.receive (UsePresence.FriendOnline u) v0)).
  fold (UsePresence.receive_all post
          (UsePresence.receive (UsePresence.FriendOffline u) v0)).
  destruct (receive_all_other post u
              (UsePresence.receive (UsePresence.FriendOnline u) v0) Hpost)
    as [-> ->].
  destruct (receive_all_other post u
              (UsePresence.receive (UsePresence.FriendOffline u) v0) Hpost)
    as [-> ->].
  simpl. rewrite !push_new_elem, !without_elem. tauto.
Qed.

Lemma presence_last_event_wins_witness :
  "B" ∈ UsePresence.onlineUsers
          (UsePresence.receive_all
             ([UsePresence.FriendOffline "B"]
              ++ UsePresence.FriendOnline "B"
                 :: [UsePresence.FriendOffline "C"])
             UsePresence.initial).
Proof.
  apply (presence_last_event_wins [UsePresence.FriendOffline "B"]
           [UsePresence.FriendOffline "C"] "B" UsePresence.initial).
  repeat constructor. simpl. discriminate.
Defined.

(** ** The collaboration hook of the client *)

Section UseCollaborationFacts.

Lemma knows_elem (u : string) (vs : list (string * Status)) :
  UseCollaboration.knows u vs = true ↔ u ∈ vs.*1.
Proof.
  unfold UseCollaboration.knows. induction vs as [|[x st] vs IH]; simpl.
  - split; [done|]. intros H. by apply elem_of_nil in H.
  - rewrite orb_true_iff, IH, elem_of_cons.
    destruct (String.eqb_spec x u); intuition congruence.
Qed.

Lemma filter_fst_sub (f : string * Status → bool) (y : string)
    (vs : list (string * Status)) :
  y ∈ (List.filter f vs).*1 → y ∈ vs.*1.
Proof.
  induction vs as [|[x st] vs IH]; simpl; [done|].
  destruct (f (x, st)); simpl; rewrite ?elem_of_cons; intuition.
Qed.

Lemma filter_fst_NoDup (f : string * Status → bool)
    (vs : list (string * Status)) :
  NoDup vs.*1 → NoDup (List.filter f vs).*1.
Proof.
  induction vs as [|[x st] vs IH]; simpl; [done|].
  intros [Hx Hvs]%NoDup_cons.
  destruct (f (x, st)); simpl; [|by apply IH].
  apply NoDup_cons. split; [|by apply IH].
  intros Hin. by apply Hx, (filter_fst_sub f).
Qed.

Lemma leave_forgets (u : string) (vs : list (string * Status)) :
  UseCollaboration.knows u
    (List.filter (λ x, negb (String.eqb x.1 u)) vs) = false.
Proof.
  unfold UseCollaboration.knows. induction vs as [|[x st] vs IH]; [done|].
  simpl. destruct (String.eqb_spec x u) as [->|Hne]; simpl; [done|].
  rewrite IH. by destruct (String.eqb_spec x u).
Qed.

(** One message keeps a viewer list free of repetitions. *)
Lemma receive_unique (t : Z) (m : Message) (v : UseCollaboration.View) :
  Views.snapshot_unique m →
  NoDup (UseCollaboration.viewers v).*1 →
  NoDup (UseCollaboration.viewers (UseCollaboration.receive t m v)).*1.
Proof.
  unfold Views.snapshot_unique, UseCollaboration.receive.
  intros Hm Hv. destruct (payload m); try done.
  - by destruct (has_event "entry_cursor_move" m).
  - by destruct (has_event "entry_cursor_clear" m).
  - by destruct (has_event "current_viewers" m).
  - destruct (has_event "user_viewing_entry" m); simpl.
    + destruct (UseCollaboration.knows userId (UseCollaboration.viewers v))
        eqn:Hk; [done|].
      rewrite fmap_app. apply NoDup_app. split; [done|].
      split; [|apply NoDup_singleton].
      intros x Hx ->%list_elem_of_singleton. simpl in Hx.
      apply knows_elem in Hx. congruence.
    + destruct (has_event "entry_collab_leave" m); simpl; [|done].
      by apply filter_fst_NoDup.
  - by destruct (has_event "entry_edit" m).
Qed.

Lemma receive_all_unique (t : Z) (ms : list Message) :
  ∀ v : UseCollaboration.View,
  Forall Views.snapshot_unique ms →
  NoDup (UseCollaboration.viewers v).*1 →
  NoDup (UseCollaboration.viewers (UseCollaboration.receive_all t ms v)).*1.
Proof.
  induction ms as [|m ms IH]; intros v Hall Hv; [done|].
  apply Forall_cons_1 in Hall as [Hm Hall].
  unfold UseCollaboration.receive_all in *. cbn [fold_left].
  apply IH; [done|]. by apply receive_unique.
Qed.

Lemma Forall_sublist {A} (P : A → Prop) (l1 l2 : list A) :
  l1 `sublist_of` l2 → Forall P l2 → Forall P l1.
Proof.
  intros Hsub Hall. apply Forall_forall. intros x Hx.
  eapply Forall_forall; [exact Hall|]. by eapply elem_of_sublist.
Qed.

(** The rows of the viewers query name no user twice: the table has one
    row per (entry, user). *)
Lemma select_viewers_unique (e : string)
    (ss : gmap (string * string) Session) :
  NoDup (select_viewers e ss).*1.
Proof.
  unfold select_viewers.
  pose proof (NoDup_fst_map_to_list ss) as Hnd.
  induction (map_to_list ss) as [|[[e' u] r] l IH]; [constructor|].
  simpl in Hnd. apply NoDup_cons in Hnd as [Hk Hnd]. simpl.
  destruct (String.eqb_spec e' e) as [->|Hne]; [|by apply IH].
  simpl. apply NoDup_cons. split; [|by apply IH].
  intros Hin. apply Hk.
  apply list_elem_of_fmap in Hin as ([u' st] & Hu & Hin). simpl in Hu. subst u'.
  apply list_elem_of_omap in Hin as ([[e2 u2] r2] & Hin & Hf).
  destruct (String.eqb_spec e2 e) as [->|]; [|done].
  injection Hf as -> _. apply list_elem_of_fmap.
  by exists ((e, u), r2).
Qed.

Lemma notify_snapshots isOnline now userId rows : ∀ fc,
  Forall Views.snapshot_unique (Presence.notify isOnline now userId rows fc).1.2.
Proof.
  induction rows as [|r rows IH]; intros fc; simpl; [constructor|].
  destruct (FriendsCache.updateStatus r userId isOnline fc) as [fc1 [|e1]];
    [|constructor].
  specialize (IH fc1).
  destruct (Presence.notify isOnline now userId rows fc1) as [[fc2 ms] o].
  simpl in *. by constructor.
Qed.

Lemma setUserOnline_snapshots now userId sid fails s :
  Forall Views.snapshot_unique
    (Presence.setUserOnline now userId sid fails s).1.2.
Proof.
  unfold Presence.setUserOnline.
  destruct (fails QUpsertConnection); [constructor|].
  destruct (fails QWhoLists); [constructor|].
  match goal with |- context [Presence.notify ?a ?b ?c ?d ?e] =>
    pose proof (notify_snapshots a b c d e) as H;
    destruct (Presence.notify a b c d e) as [[fc ms] o] end.
  exact H.
Qed.

Lemma setUserOffline_snapshots now userId fails s :
  Forall Views.snapshot_unique
    (Presence.setUserOffline now userId fails s).1.2.
Proof.
  unfold Presence.setUserOffline.
  destruct (fails QMarkOffline); [constructor|].
  destruct (fails QWhoLists); [constructor|].
  match goal with |- context [Presence.notify ?a ?b ?c ?d ?e] =>
    pose proof (notify_snapshots a b c d e) as H;
    destruct (Presence.notify a b c d e) as [[fc ms] o] end.
  exact H.
Qed.

Lemma sendFriendsList_snapshots now socket userId fails s :
  Forall Views.snapshot_unique
    (Friends.sendFriendsList now socket userId fails s).1.2.
Proof.
  unfold Friends.sendFriendsList.
  destruct (friendsCache s !! userId); [by repeat constructor|].
  destruct (fails QFriendsWithStatus); by repeat constructor.
Qed.

Lemma clear_cursors_snapshots socket userId
    (cs : list (string * gmap string Cursor)) :
  Forall Views.snapshot_unique (clear_cursors socket userId cs).2.
Proof.
  induction cs as [|[e c] cs IH]; simpl; [constructor|].
  destruct (clear_cursors socket userId cs) as [cs' ms]. simpl in IH.
  destruct (c !! userId); simpl; [by constructor|done].
Qed.

Lemma fire_all_snapshots l : ∀ s,
  Forall Views.snapshot_unique (fire_all l s).2.
Proof.
  induction l as [|[sid tm] l IH]; intros s; simpl; [constructor|].
  specialize (IH (fire (due tm) sid tm s).1).
  destruct (fire_all l _) as [s2 ms2]. simpl in *. by constructor.
Qed.

Lemma onConnection_snapshots now socket fails s :
  Forall Views.snapshot_unique (onConnection now socket fails s).2.
Proof.
  unfold onConnection.
  destruct (negb (truthy_id (socket_userId socket))); [by repeat constructor|].
  match goal with |- context [Presence.setUserOnline ?a ?b ?c ?d ?e] =>
    pose proof (setUserOnline_snapshots a b c d e) as Hon;
    destruct (Presence.setUserOnline a b c d e) as [[s1 ms1] o1] end.
  simpl in Hon.
  destruct o1 as [|e1];
    [|simpl; apply Forall_app; split; [done|by repeat constructor]].
  match goal with |- context [Friends.sendFriendsList ?a ?b ?c ?d ?e] =>
    pose proof (sendFriendsList_snapshots a b c d e) as Hfl;
    destruct (Friends.sendFriendsList a b c d e) as [[s2 ms2] o2] end.
  simpl in Hfl.
  assert (Hself : ∀ ev p, match p with PViewers _ _ => False | _ => True end →
                          Forall Views.snapshot_unique [to_self socket ev p]).
  { intros ev p Hp. constructor; [|constructor].
    unfold Views.snapshot_unique. simpl. by destruct p. }
  destruct o2 as [|e2];
    [|simpl; repeat (apply Forall_app; split; try done); by apply Hself].
  destruct (fails QFriendsOf);
    [simpl; repeat (apply Forall_app; split; try done); by apply Hself|].
  match goal with |- context [omap ?f ?l] =>
    assert (Hms3 : Forall Views.snapshot_unique (omap f l)) end.
  { apply Forall_forall. intros m (f & _ & Hf)%list_elem_of_omap.
    destruct (obj_get f _) as [[fs|name]|]; [| |done].
    - destruct (truthy_id fs); [|done]. by injection Hf as <-.
    - by injection Hf as <-. }
  destruct (fails QSessionsOf); simpl;
    repeat (apply Forall_app; split; try done); by apply Hself.
Qed.

Lemma dispatch_snapshots now ev s :
  Forall Views.snapshot_unique (dispatch now ev s).2.
Proof.
  destruct ev; simpl.
  - apply onConnection_snapshots.
  - unfold onJoinEntryRoom, joinEntryRoom.
    repeat (case_match; simplify_eq/=; try by repeat constructor).
    constructor; [apply select_viewers_unique|by repeat constructor].
  - unfold onLeaveEntryRoom, leaveEntryRoom.
    repeat (case_match; simplify_eq/=; try by repeat constructor).
  - unfold onEntryEdit.
    repeat (case_match; simplify_eq/=; try by repeat constructor).
  - unfold onCursorMove, handleCursorMove.
    repeat (case_match; simplify_eq/=; try by repeat constructor).
  - unfold onUserEditing, uncaught, userEditingEntry, userStatusEntry.
    repeat (case_match; simplify_eq/=; try by repeat constructor).
  - unfold onUserIdle, uncaught, userIdleEntry, userStatusEntry.
    repeat (case_match; simplify_eq/=; try by repeat constructor).
  - unfold onDisconnect.
    match goal with |- context [Presence.setUserOffline ?a ?b ?c ?d] =>
      pose proof (setUserOffline_snapshots a b c d) as Hoff;
      destruct (Presence.setUserOffline a b c d) as [[s1 ms1] o1] end.
    simpl in Hoff. destruct o1; [|done].
    pose proof (clear_cursors_snapshots socket (socket_userId socket)
                  (cursorStore s1)) as Hcl.
    destruct (clear_cursors _ _ _) as [cs ms2]. simpl in Hcl.
    destruct (fails QDeleteSessions); simpl; by apply Forall_app.
  - constructor.
  - constructor.
  - by repeat constructor.
  - unfold onStaleSocket, uncaught.
    pose proof (setUserOffline_snapshots now (socket_userId socket) fails s)
      as Hoff.
    by destruct (Presence.setUserOffline _ _ _ _) as [[s1 ms1] [|e]].
  - constructor.
Qed.

Lemma run_snapshots tr : ∀ s, Forall Views.snapshot_unique (run tr s).2.
Proof.
  induction tr as [|[now ev] tr IH]; intros s; [constructor|].
  rewrite run_cons_snd. apply Forall_app. split; [|apply IH].
  unfold step, advance. destruct (exited s); [constructor|].
  pose proof (fire_all_snapshots (due_timers now (debounceMap s)) s) as H1.
  destruct (fire_all _ s) as [s1 ms1].
  pose proof (dispatch_snapshots now ev s1) as H2.
  destruct (dispatch now ev s1) as [s2 ms2]. simpl in *.
  by apply Forall_app.
Qed.

End UseCollaborationFacts.

(** X22. Server and hook together: a client never shows a viewer twice.
    Whatever connections, joins, leaves, edits, cursor moves, status
    changes and disconnects the server handles and whatever the store
    rejects, when a client whose viewer list names no user twice receives
    any part of the messages emitted for them, in their order, its viewer
    list still names no user twice (every "current_viewers" snapshot comes
    from a table with one row per entry and user, and the hook adds a
    viewer only when it is not yet listed). *)
Theorem client_viewers_unique (t : Z) (tr : list (Z * Event)) (s : State)
    (ms : list Message) (v : UseCollaboration.View) :
  NoDup (UseCollaboration.viewers v).*1 →
  ms `sublist_of` (run tr s).2 →
  NoDup (UseCollaboration.viewers (UseCollaboration.receive_all t ms v)).*1.
Proof.
  intros Hv Hsub. apply receive_all_unique; [|done].
  eapply Forall_sublist; [exact Hsub|apply run_snapshots].
Qed.

Lemma client_viewers_unique_witness :
  NoDup (UseCollaboration.viewers
           (UseCollaboration.receive_all 900
              (run Scenario.shared_entry
                   (initial Scenario.empty_tables)).2
              UseCollaboration.initial)).*1.
Proof.
  apply (client_viewers_unique 900 Scenario.shared_entry
           (initial Scenario.empty_tables)
           (run Scenario.shared_entry (initial Scenario.empty_tables)).2
           UseCollaboration.initial).
  - constructor.
  - reflexivity.
Defined.

Section ClientViewFacts.

(** Presence notices and cursor clears leave the viewer list alone. *)
Lemma receive_keeps_viewers (t : Z) (m : Message)
    (v : UseCollaboration.View) :
  In (event m)
     [Some "friend_online"; Some "friend_offline"; Some "entry_cursor_clear"] →
  UseCollaboration.viewers (UseCollaboration.receive t m v)
  = UseCollaboration.viewers v.
Proof.
  unfold UseCollaboration.receive, has_event.
  intros [H|[H|[H|[]]]]; rewrite <- H; by destruct (payload m).
Qed.

Lemma receive_all_keeps_viewers (t : Z) (ms : list Message) :
  ∀ v : UseCollaboration.View,
  events_within
    [Some "friend_online"; Some "friend_offline"; Some "entry_cursor_clear"]
    ms →
  UseCollaboration.viewers (UseCollaboration.receive_all t ms v)
  = UseCollaboration.viewers v.
Proof.
  unfold events_within.
  induction ms as [|m ms IH]; intros v Hall; [done|].
  apply Forall_cons_1 in Hall as [Hm Hall].
  unfold UseCollaboration.receive_all in *. cbn [fold_left].
  rewrite IH by done. by apply receive_keeps_viewers.
Qed.

End ClientViewFacts.

(** X23. What a client shows after a departure. The message of a leave
    whose DELETE is answered makes the hook drop the user from the viewer
    list and drop the user's cursor. No message of a disconnect, whatever
    the store rejects and whichever part of the messages reaches the
    client, changes the viewer list: the hook removes a viewer on
    "entry_collab_leave" alone, and a disconnect emits presence notices
    and cursor clears. *)
Theorem client_view_after_departure (t now : Z) (socket : Socket)
    (e0 : string) (fails : query → bool) (s : State) (ms : list Message)
    (v : UseCollaboration.View) :
  truthy_id e0 = true →
  fails QDeleteSession = false →
  ms `sublist_of` (onDisconnect now socket fails s).2 →
  let u := socket_userId socket in
  let left := UseCollaboration.receive_all t
                (onLeaveEntryRoom now socket e0 fails s).2 v in
  UseCollaboration.knows u (UseCollaboration.viewers left) = false
  ∧ UseCollaboration.cursors left !! u = None
  ∧ UseCollaboration.viewers (UseCollaboration.receive_all t ms v)
    = UseCollaboration.viewers v.
Proof.
  intros Hid Hdel Hsub. cbn zeta.
  unfold onLeaveEntryRoom, leaveEntryRoom. rewrite Hid, Hdel.
  cbn [negb fst snd]. split; [|split].
  - apply leave_forgets.
  - apply lookup_delete_eq.
  - apply receive_all_keeps_viewers. unfold events_within.
    eapply Forall_sublist; [exact Hsub|]. apply onDisconnect_emits.
Qed.

Lemma client_view_after_departure_witness :
  UseCollaboration.viewers
    (UseCollaboration.receive_all 900
       (onDisconnect 600 Scenario.sockB all_ok Scenario.in_shared_entry).2
       (UseCollaboration.mkView [("A", viewing); ("B", viewing)] ∅ (JStr "")))
  = [("A", viewing); ("B", viewing)].
Proof.
  apply (client_view_after_departure 900 600 Scenario.sockB "E1" all_ok
           Scenario.in_shared_entry
           (onDisconnect 600 Scenario.sockB all_ok
              Scenario.in_shared_entry).2
           (UseCollaboration.mkView [("A", viewing); ("B", viewing)] ∅
              (JStr ""))); reflexivity.
Defined.

(** X24. Editing and idle states never reach a client's view: the hook
    registers no listener for "user_editing_entry" or "user_idle_entry",
    so the messages of those two handlers, whatever the store answers,
    leave the viewers, the cursors and the content of every client as they
    were. *)
Theorem status_events_not_shown (t now : Z) (socket : Socket) (e0 : string)
    (fails : query → bool) (s : State) (v : UseCollaboration.View) :
  UseCollaboration.receive_all t (onUserEditing now socket e0 fails s).2 v = v
  ∧ UseCollaboration.receive_all t (onUserIdle now socket e0 fails s).2 v = v.
Proof.
  unfold onUserEditing, onUserIdle, userEditingEntry, userIdleEntry,
    userStatusEntry.
  destruct (negb (truthy_id e0)); [done|].
  destruct (fails QSetStatus); done.
Qed.

(** ** Sessions restored at connection *)

Section RestoreFacts.

Lemma join_mono (room room' sid sid' : string)
    (rooms : gmap string (gset string)) :
  sid ∈ members room rooms → sid ∈ members room (join room' sid' rooms).
Proof.
  unfold join, members. intros Hin.
  destruct (decide (room = room')) as [->|Hne].
  - rewrite lookup_insert_eq. simpl. by apply elem_of_union_r.
  - by rewrite lookup_insert_ne.
Qed.

Lemma restore_mono (room sid : string) (es : list string) :
  ∀ rooms : gmap string (gset string),
  sid ∈ members room rooms →
  sid ∈ members room (fold_left (λ r e, join (room_of e) sid r) es rooms).
Proof.
  induction es as [|e es IH]; intros rooms Hin; [done|].
  simpl. apply IH. by apply join_mono.
Qed.

Lemma restore_member (sid e : string) (es : list string) :
  ∀ rooms : gmap string (gset string),
  e ∈ es →
  sid ∈ members (room_of e)
          (fold_left (λ r e, join (room_of e) sid r) es rooms).
Proof.
  induction es as [|e' es IH]; intros rooms Hin.
  - by apply elem_of_nil in Hin.
  - simpl. apply elem_of_cons in Hin as [->|Hin]; [|by apply IH].
    apply restore_mono, members_join.
Qed.

Lemma sessions_of_elem (e u : string) (ss : gmap (string * string) Session) :
  e ∈ sessions_of u ss ↔ is_Some (ss !! (e, u)).
Proof.
  unfold sessions_of. rewrite list_elem_of_omap. split.
  - intros ([[e' u'] r] & Hin & Hf). apply elem_of_map_to_list in Hin.
    destruct (String.eqb_spec u' u) as [->|]; [|done].
    injection Hf as ->. by exists r.
  - intros [r Hr]. exists ((e, u), r). split.
    + by apply elem_of_map_to_list.
    + by rewrite String.eqb_refl.
Qed.

Lemma setUserOnline_returns now userId sid fails s :
  fails QUpsertConnection = false →
  fails QWhoLists = false →
  (∀ r, r ∈ who_lists userId (friends (db s)) → friendsCache s !! r = None) →
  (Presence.setUserOnline now userId sid fails s).2 = Returned.
Proof.
  intros Hup Hwho Hnone. unfold Presence.setUserOnline.
  rewrite Hup, Hwho. cbn [db with_db friends with_connections friendsCache].
  by rewrite notify_uncached.
Qed.

End RestoreFacts.

(** X25. A connection whose statements are all answered, for a user whom
    no cached friends list names, puts the new socket into the room of
    every entry for which the user still has a Membership, and its last
    message is "authenticated", sent to the socket. *)
Theorem connection_restores_rooms (now : Z) (socket : Socket)
    (fails : query → bool) (s : State) (e0 : string) :
  truthy_id (socket_userId socket) = true →
  (∀ q, fails q = false) →
  (∀ r, r ∈ who_lists (socket_userId socket) (friends (db s)) →
        friendsCache s !! r = None) →
  is_Some (membership s (socket_userId socket) e0) →
  let r := onConnection now socket fails s in
  socket_id socket ∈ members (room_of e0) (rooms r.1)
  ∧ last r.2 = Some (mkMessage (ToSocket (socket_id socket))
                               (Some "authenticated")
                               (PAuthenticated (socket_userId socket) now)).
Proof.
  intros Hid Hok Hnone Hmem. cbn zeta. unfold onConnection.
  rewrite Hid. cbn [negb].
  match goal with |- context [Presence.setUserOnline ?a ?b ?c ?d ?e] =>
    pose proof (setUserOnline_frame a b c d e) as Hon;
    pose proof (setUserOnline_returns a b c d e (Hok _) (Hok _)) as Hret;
    destruct (Presence.setUserOnline a b c d e) as [[s1 ms1] o1] end.
  simpl in Hret. rewrite Hret by done.
  destruct Hon as (_&_&_&_&_&_&_&Hr1&Hs1&_). simpl in Hr1, Hs1.
  match goal with |- context [Friends.sendFriendsList ?a ?b ?c ?d ?e] =>
    pose proof (sendFriendsList_frame a b c d e) as Hfl;
    assert (Hret2 : (Friends.sendFriendsList a b c d e).2 = Returned);
    [|destruct (Friends.sendFriendsList a b c d e) as [[s2 ms2] o2]] end.
  { unfold Friends.sendFriendsList.
    destruct (friendsCache s1 !! _); [done|]. by rewrite Hok. }
  simpl in Hret2. subst o2.
  destruct Hfl as (_&_&_&_&_&_&_&Hr2&Hs2&_). simpl in Hr2, Hs2.
  rewrite !Hok. cbn [fst snd rooms with_rooms]. split.
  - apply restore_member, sessions_of_elem.
    unfold membership in Hmem. by rewrite Hs2, Hs1.
  - rewrite !app_assoc. apply last_snoc.
Qed.

Lemma connection_restores_rooms_witness :
  "sA2" ∈ members (room_of "E1")
            (rooms (onConnection 700 (mkSocket "sA2" "A") all_ok
                      Scenario.in_shared_entry).1).
Proof.
  apply (connection_restores_rooms 700 (mkSocket "sA2" "A") all_ok
           Scenario.in_shared_entry "E1").
  - reflexivity.
  - reflexivity.
  - intros r Hr. exfalso.
    assert (Hf : who_lists "A" (friends (db Scenario.in_shared_entry)) = [])
      by (vm_compute; reflexivity).
    simpl in Hr. rewrite Hf in Hr. by apply elem_of_nil in Hr.
  - vm_compute. by eexists.
Defined.

(** ** Who spends the rate budget *)

Section BudgetFacts.

Lemma dispatch_userEventCounts now ev s :
  match ev with
  | EntryEdit _ p => valid_edit p = false
  | _ => True
  end →
  exited (dispatch now ev s).1 = false →
  userEventCounts (dispatch now ev s).1 = userEventCounts s.
Proof.
  destruct ev; simpl; intros Hev Hex.
  - by destruct (onConnection_frame now socket fails s) as (->&?).
  - unfold onJoinEntryRoom, joinEntryRoom.
    repeat (case_match; simplify_eq/=; try done).
  - unfold onLeaveEntryRoom, leaveEntryRoom.
    repeat (case_match; simplify_eq/=; try done).
  - unfold onEntryEdit, valid_edit in *.
    apply andb_false_iff in Hev as [->| ->]; simpl; [done|].
    by rewrite orb_true_r.
  - unfold onCursorMove, handleCursorMove.
    repeat (case_match; simplify_eq/=; try done).
  - unfold onUserEditing, uncaught, userEditingEntry, userStatusEntry in *.
    repeat (case_match; simplify_eq/=; try done).
  - unfold onUserIdle, uncaught, userIdleEntry, userStatusEntry in *.
    repeat (case_match; simplify_eq/=; try done).
  - by destruct (onDisconnect_frame now socket fails s) as (->&?).
  - done.
  - done.
  - done.
  - by destruct (onStaleSocket_frame now socket fails s Hex) as (->&?).
  - done.
Qed.

End BudgetFacts.

(** X26. Only edits spend the rate budget. While the process runs, an
    event that is not an edit with a valid payload (a connection, join,
    leave, cursor move, status change, disconnect, heartbeat answer or
    sweep, an edit without entry id or timestamp, and the debounce timers
    that run before it) leaves [userEventCounts] as it was, whatever the
    store rejects; a valid edit writes the entry of its user alone,
    admitted or not. *)
Theorem rate_budget_spent_by_edits (now : Z) (ev : Event) (s : State) :
  exited (step now ev s).1 = false →
  match ev with
  | EntryEdit so p =>
      if valid_edit p
      then ∀ u, u ≠ socket_userId so →
                userEventCounts (step now ev s).1 !! u
                = userEventCounts s !! u
      else userEventCounts (step now ev s).1 = userEventCounts s
  | _ => userEventCounts (step now ev s).1 = userEventCounts s
  end.
Proof.
  intros Hex. destruct (step_alive now ev s Hex) as (_ & Hstep & _ & Hd).
  pose proof (fire_all_userEventCounts (due_timers now (debounceMap s)) s)
    as Hf.
  fold (advance now s) in Hf.
  assert (Hother : (match ev with
                    | EntryEdit _ p => valid_edit p = false
                    | _ => True
                    end) →
                   userEventCounts (step now ev s).1 = userEventCounts s).
  { intros Hev. rewrite Hstep. cbn [fst].
    by rewrite dispatch_userEventCounts. }
  destruct ev; try (by apply Hother).
  destruct (valid_edit p) eqn:Hv; [|by apply Hother].
  intros u Hu. rewrite Hstep. cbn [fst dispatch].
  destruct (advance now s) as [s1 ms1]. cbn [fst] in *.
  unfold onEntryEdit, valid_edit in *.
  apply andb_true_iff in Hv as [-> ->]. cbn [negb orb].
  pose proof (checkRateLimit_other now (socket_userId socket) u
                (userEventCounts s1) ltac:(done)) as Hc.
  destruct (RateLimit.checkRateLimit _ _ _) as [[|] counts];
    cbn [fst snd negb] in *; by rewrite <- Hf.
Qed.

(** B's cursor move in the shared entry spends nothing. *)
Lemma rate_budget_spent_by_edits_witness :
  userEventCounts
    (step 600 (EntryCursorMove Scenario.sockB "E1" (JPoint 2 2))
          Scenario.in_shared_entry).1
  = userEventCounts Scenario.in_shared_entry.
Proof.
  apply (rate_budget_spent_by_edits 600
           (EntryCursorMove Scenario.sockB "E1" (JPoint 2 2))
           Scenario.in_shared_entry).
  vm_compute. reflexivity.
Defined.

(** ** Conflicts do not block *)

(** X27. Last write wins: an edit that draws a conflict notice is kept
    all the same. When the step of an edit emits a notice, the edit had a
    valid payload and was admitted, it is the pending edit of its socket,
    and 500 ms later its relay, and no other relay for that socket, goes
    out to the room. *)
Theorem conflict_notice_keeps_edit (now : Z) (so : Socket) (p : EditEvent)
    (s : State) :
  List.filter conflict_notice (step now (EntryEdit so p) s).2 ≠ [] →
  let s' := (step now (EntryEdit so p) s).1 in
  valid_edit p = true
  ∧ List.filter (relay_from (socket_id so)) (advance (now + debounceMs) s').2
    = [relay_of so p (now + debounceMs)].
Proof.
  intros Hn. cbn zeta. unfold step in *. destruct (exited s); [done|].
  pose proof (fire_all_no_notice (due_timers now (debounceMap s)) s) as Hms1.
  fold (advance now s) in Hms1.
  destruct (advance now s) as [s1 ms1]. cbn [snd] in Hms1.
  cbn [dispatch] in *.
  pose proof (advance_sid (now + debounceMs) (onEntryEdit now so p s1).1
                (socket_id so)) as Hadv.
  unfold onEntryEdit, valid_edit in *.
  destruct (truthy_id (entryId p)); cbn [negb orb andb] in *;
    [|cbn [fst snd] in Hn; rewrite List.filter_app, Hms1 in Hn; done].
  destruct (truthy_num (timestamp p)); cbn [negb] in *;
    [|cbn [fst snd] in Hn; rewrite List.filter_app, Hms1 in Hn; done].
  destruct (RateLimit.checkRateLimit _ _ _) as [[|] counts];
    cbn [negb fst snd] in *;
    [|rewrite List.filter_app, Hms1 in Hn; done].
  split; [done|].
  cbn [debounceMap with_timerSeq with_debounceMap] in Hadv.
  rewrite lookup_insert_eq in Hadv. cbn [due] in Hadv.
  rewrite decide_True in Hadv by lia.
  by destruct Hadv.
Qed.

Lemma conflict_notice_keeps_edit_witness :
  List.filter (relay_from "sB")
    (advance 2100
       (step 1600 (EntryEdit Scenario.sockB
                     (mkEditEvent "E1" (JStr "b") (JStr "update") JUndefined
                                  1600))
             Scenario.editing_E1).1).2
  = [ relay_of Scenario.sockB
        (mkEditEvent "E1" (JStr "b") (JStr "update") JUndefined 1600) 2100 ].
Proof.
  apply (conflict_notice_keeps_edit 1600 Scenario.sockB
           (mkEditEvent "E1" (JStr "b") (JStr "update") JUndefined 1600)
           Scenario.editing_E1).
  vm_compute. discriminate.
Defined.

(** ** A cursor as a client sees it *)

Section ClientCursorFacts.

Lemma clear_cursors_emits socket userId e
    (cs : list (string * gmap string Cursor)) :
  is_Some (oget e cs ≫= λ cursors, cursors !! userId) →
  mkMessage (ToRoomExcept (room_of e) (socket_id socket))
            (collab "ENTRY_CURSOR_CLEAR") (PCursorClear userId e)
  ∈ (clear_cursors socket userId cs).2.
Proof.
  induction cs as [|[e' c] cs IH]; simpl; [by intros [? ?]|].
  destruct (clear_cursors socket userId cs) as [cs' ms]. simpl in IH.
  destruct (String.eqb_spec e e') as [->|Hne]; simpl.
  - intros [x Hx]. rewrite Hx. simpl. by left.
  - intros H. destruct (c !! userId); simpl; [right|]; by apply IH.
Qed.

Lemma receive_keeps_no_cursor (t : Z) (m : Message) (u : string)
    (v : UseCollaboration.View) :
  In (event m)
     [Some "friend_online"; Some "friend_offline"; Some "entry_cursor_clear"] →
  UseCollaboration.cursors v !! u = None →
  UseCollaboration.cursors (UseCollaboration.receive t m v) !! u = None.
Proof.
  unfold UseCollaboration.receive, has_event.
  intros [H|[H|[H|[]]]] Hnone; rewrite <- H; destruct (payload m); try done.
  simpl. destruct (decide (userId = u)) as [->|Hne].
  - apply lookup_delete_eq.
  - by rewrite lookup_delete_ne.
Qed.

Lemma receive_all_clears (t : Z) (u e : string) (ms : list Message) :
  ∀ v : UseCollaboration.View,
  events_within
    [Some "friend_online"; Some "friend_offline"; Some "entry_cursor_clear"]
    ms →
  UseCollaboration.cursors v !! u = None
  ∨ (∃ tg, mkMessage tg (Some "entry_cursor_clear") (PCursorClear u e) ∈ ms) →
  UseCollaboration.cursors (UseCollaboration.receive_all t ms v) !! u = None.
Proof.
  unfold events_within.
  induction ms as [|m ms IH]; intros v Hall Hor.
  - destruct Hor as [Hnone|[tg Hin]]; [done|by apply elem_of_nil in Hin].
  - apply Forall_cons_1 in Hall as [Hm Hall].
    unfold UseCollaboration.receive_all in *. cbn [fold_left].
    apply IH; [done|].
    destruct Hor as [Hnone|[tg Hin]].
    + left. by apply receive_keeps_no_cursor.
    + apply elem_of_cons in Hin as [<-|Hin]; [|right; by exists tg].
      left. simpl. apply lookup_delete_eq.
Qed.

End ClientCursorFacts.

(** X28. A cursor from the move to the disconnect, as a client sees it.
    When a cursor move passes the guards and the throttle, the client
    that receives its broadcast holds the position under the sender's
    user id, stamped with the client's own clock. When that socket then
    disconnects and the statements that mark the user offline are
    answered (no cached friends list naming the user), the messages of
    the disconnect leave the client without a cursor for the user. *)
Theorem client_cursor_life (t1 t2 now1 now2 : Z) (so : Socket) (e0 : string)
    (pos : jsval) (fails : query → bool) (s : State)
    (v : UseCollaboration.View) :
  truthy_id e0 = true →
  truthy pos = true →
  throttleMs ≤ now1 - default 0 (cursorThrottleMap s !! socket_id so) →
  fails QMarkOffline = false →
  fails QWhoLists = false →
  (∀ r, r ∈ who_lists (socket_userId so) (friends (db s)) →
        friendsCache s !! r = None) →
  let u := socket_userId so in
  let mv := onCursorMove now1 so e0 pos s in
  let v1 := UseCollaboration.receive_all t1 mv.2 v in
  let v2 := UseCollaboration.receive_all t2
              (onDisconnect now2 so fails mv.1).2 v1 in
  UseCollaboration.cursors v1 !! u
  = Some (UseCollaboration.mkClientCursor pos t1)
  ∧ UseCollaboration.cursors v2 !! u = None.
Proof.
  intros Hid Hpos Hth Hoff Hwho Hnone. cbn zeta. split.
  - unfold onCursorMove. rewrite Hid, Hpos. cbn [negb orb].
    destruct (Z.ltb_spec (now1 - default 0 (cursorThrottleMap s !! socket_id so))
                throttleMs); [lia|].
    simpl. apply lookup_insert_eq.
  - apply (receive_all_clears t2 (socket_userId so) e0).
    { apply onDisconnect_emits. }
    right. exists (ToRoomExcept (room_of e0) (socket_id so)).
    assert (Hcur : is_Some (cursor (onCursorMove now1 so e0 pos s).1
                              (socket_userId so) e0)).
    { unfold onCursorMove. rewrite Hid, Hpos. cbn [negb orb].
      destruct (Z.ltb_spec
                  (now1 - default 0 (cursorThrottleMap s !! socket_id so))
                  throttleMs); [lia|].
      unfold cursor.
      match goal with |- context [handleCursorMove ?a ?b ?c ?d ?e ?f] =>
        pose proof (handleCursorMove_cursor a b c d e f
                      (socket_userId so) e0) as Hc;
        destruct (handleCursorMove a b c d e f) as [cs ms] end.
      cbn [fst] in *. cbn [cursorStore with_cursorStore]. rewrite Hc.
      rewrite decide_True by done. by eexists. }
    assert (Hfr : friends (db (onCursorMove now1 so e0 pos s).1)
                  = friends (db s)
                  ∧ friendsCache (onCursorMove now1 so e0 pos s).1
                    = friendsCache s).
    { unfold onCursorMove, handleCursorMove.
      repeat (case_match; simplify_eq/=; try done). }
    destruct Hfr as [Hfr Hfc].
    set (s1 := (onCursorMove now1 so e0 pos s).1) in *.
    unfold onDisconnect, Presence.setUserOffline. rewrite Hoff, Hwho.
    cbn [db with_db friends with_connections friendsCache with_rooms
         with_connectedUsers].
    rewrite notify_uncached by (rewrite Hfr, Hfc; exact Hnone).
    match goal with |- context [clear_cursors ?a ?b ?c] =>
      change c with (cursorStore s1) end.
    pose proof (clear_cursors_emits so (socket_userId so) e0
                  (cursorStore s1) Hcur) as Hin.
    destruct (clear_cursors so (socket_userId so) (cursorStore s1))
      as [cs ms2]. cbn [snd] in Hin.
    destruct (fails QDeleteSessions); cbn [snd];
      apply elem_of_app; by right.
Qed.

Lemma client_cursor_life_witness :
  UseCollaboration.cursors
    (UseCollaboration.receive_all 1300
       (onDisconnect 1200 Scenario.sockA all_ok
          (onCursorMove 1100 Scenario.sockA "E1" (JPoint 2 3)
             Scenario.in_shared_entry).1).2
       (UseCollaboration.receive_all 1150
          (onCursorMove 1100 Scenario.sockA "E1" (JPoint 2 3)
             Scenario.in_shared_entry).2
          UseCollaboration.initial)) !! "A" = None.
Proof.
  apply (client_cursor_life 1150 1300 1100 1200 Scenario.sockA "E1"
           (JPoint 2 3) all_ok Scenario.in_shared_entry
           UseCollaboration.initial); try reflexivity.
  - by vm_compute.
  - intros r Hr. exfalso.
    assert (Hf : who_lists "A" (friends (db Scenario.in_shared_entry)) = [])
      by (vm_compute; reflexivity).
    simpl in Hr. rewrite Hf in Hr. by apply elem_of_nil in Hr.
Defined.
